(** * cubes: entity store, spatial index and blend engine

    A shallow embedding of the JavaScript sources [models.js], [storage.js],
    [utils.js], [painter.js] and [main.js], and the properties of the
    specification proved (or refuted) on it.

    Modelling conventions.
    - JavaScript values are the plain data that the program builds and that
      IndexedDB can store: undefined, null, booleans, numbers, strings, arrays
      and objects with string-named fields (type [jsval]).
    - JavaScript numbers are the integers extended with [NaN] and the two
      infinities (type [num]); arithmetic on them is exact.  Fractional
      values, negative zero and rounding are outside the model: the model
      stands for the double-precision arithmetic of the program on the
      integers where that arithmetic is exact, which is as long as the
      operands and the result stay below [2^53] in magnitude (see
      [safe_integer] below, and the note at each operation).  A statement that depends on
      the value of a sum, a product, a quotient or a square root, or on the
      text of a number, carries such a bound as a hypothesis; so does a
      statement that depends on the number that a string, an array or an
      object is converted to.
    - A thrown exception is a [Throw] result; the errors the program raises
      itself with [new Error(msg)] are told apart by their message.
    - The asynchronous store calls are modelled by their completed effect on
      the database: a function from the storage state to a result and,
      for writes, the state afterwards.  The persistence engine is IndexedDB:
      object stores with in-line keys, [put], [get] and [getAll] on an index.
    - A call that never ends has the outcome [Diverges].

    The file has the embedding first (one module per source file), then the
    vocabulary of the statements, then the lemmas and the claims C1 to C10 of
    the specification, then further properties of the code (marked X). *)

From Stdlib Require Import ZArith Ascii String List Bool Lia.
From Stdlib Require Import Rbase R_sqrt Lra.
From stdpp Require Import base option list gmap strings pretty countable.

Set Warnings "-register-all".

Local Open Scope string_scope.
Local Open Scope Z_scope.

(** ** Numbers *)

Inductive num : Set :=
  | NaN
  | NInf
  | Fin (z : Z)
  | PInf.

Global Instance num_eq_dec : EqDecision num.
Proof. solve_decision. Defined.

Definition num_enc (n : num) : Z + nat :=
  match n with
  | Fin z => inl z
  | NaN => inr 0%nat
  | NInf => inr 1%nat
  | PInf => inr 2%nat
  end.

Definition num_dec (x : Z + nat) : num :=
  match x with
  | inl z => Fin z
  | inr 0%nat => NaN
  | inr 1%nat => NInf
  | inr _ => PInf
  end.

Global Instance num_countable : Countable num.
Proof. apply (inj_countable' num_enc num_dec). by intros []. Defined.

(** [a < b], [a <= b] on numbers: every comparison with [NaN] is false. *)
Definition num_lt (a b : num) : bool :=
  match a, b with
  | NaN, _ | _, NaN => false
  | Fin x, Fin y => x <? y
  | NInf, NInf => false
  | NInf, _ => true
  | Fin _, PInf => true
  | _, _ => false
  end.

Definition num_le (a b : num) : bool :=
  match a, b with
  | NaN, _ | _, NaN => false
  | Fin x, Fin y => x <=? y
  | NInf, _ => true
  | _, PInf => true
  | _, _ => false
  end.

Definition num_neg (a : num) : num :=
  match a with
  | NaN => NaN
  | NInf => PInf
  | Fin z => Fin (- z)
  | PInf => NInf
  end.

(** The integers that double precision holds one by one
    ([Number.isSafeInteger]): a sum, a difference or a product of such
    integers whose exact value is one of them again is computed without
    rounding. *)
Definition safe_integer (z : Z) : Prop := Z.abs z < 2 ^ 53.

(** [a + b], exact.  It is the sum of the program while the result of
    two integers is a [safe_integer]; beyond, the program rounds. *)
Definition num_add (a b : num) : num :=
  match a, b with
  | NaN, _ | _, NaN => NaN
  | Fin x, Fin y => Fin (x + y)
  | PInf, NInf | NInf, PInf => NaN
  | PInf, _ | _, PInf => PInf
  | NInf, _ | _, NInf => NInf
  end.

Definition num_sub (a b : num) : num := num_add a (num_neg b).

(** [a * b], exact; as for [num_add], it is the product of the program
    while the result is a [safe_integer]. *)
Definition num_mul (a b : num) : num :=
  match a, b with
  | NaN, _ | _, NaN => NaN
  | Fin x, Fin y => Fin (x * y)
  | Fin x, PInf | PInf, Fin x =>
      if x =? 0 then NaN else if 0 <? x then PInf else NInf
  | Fin x, NInf | NInf, Fin x =>
      if x =? 0 then NaN else if 0 <? x then NInf else PInf
  | PInf, PInf | NInf, NInf => PInf
  | PInf, NInf | NInf, PInf => NInf
  end.

(** [Math.min(a, b)] and [Math.max(a, b)]. *)
Definition num_min (a b : num) : num :=
  match a, b with
  | NaN, _ | _, NaN => NaN
  | _, _ => if num_le a b then a else b
  end.

Definition num_max (a b : num) : num :=
  match a, b with
  | NaN, _ | _, NaN => NaN
  | _, _ => if num_le a b then b else a
  end.

(** The quotient [a / b] is in general not an integer, so the model has the
    two roundings the program applies to a quotient, [Math.floor(a / b)] and
    [Math.ceil(a / b)], as primitive operations.  They round the exact
    quotient, where the program rounds the quotient to double precision first:
    the two agree for integers [a] and [b] with [|a| + |b| < 2^53], since the
    exact quotient of such integers is either an integer or at least [1/|b|]
    away from one, further than double precision rounds at that magnitude. *)
Definition div_zero (x : Z) : num :=
  if x =? 0 then NaN else if 0 <? x then PInf else NInf.

Definition floor_div (a b : num) : num :=
  match a, b with
  | NaN, _ | _, NaN => NaN
  | Fin x, Fin y => if y =? 0 then div_zero x else Fin (x / y)
  | Fin _, _ => Fin 0
  | PInf, Fin y => if 0 <=? y then PInf else NInf
  | NInf, Fin y => if 0 <=? y then NInf else PInf
  | _, _ => NaN
  end.

Definition ceil_div (a b : num) : num :=
  match a, b with
  | NaN, _ | _, NaN => NaN
  | Fin x, Fin y => if y =? 0 then div_zero x else Fin (- ((- x) / y))
  | Fin _, _ => Fin 0
  | PInf, Fin y => if 0 <=? y then PInf else NInf
  | NInf, Fin y => if 0 <=? y then NInf else PInf
  | _, _ => NaN
  end.

(** [Math.sqrt(s) <= r], decided without computing the root:
    for [0 <= s] it holds iff [0 <= r] and [s <= r * r].  This compares
    the real square root of [s], where the program compares the root rounded
    to double precision: the two agree for integers with [s < 2^52], since
    then the root of [s > r * r] exceeds [r] by more than [1/(2r+1)], with
    [r < 2^26], and the doubles around [r] are less than [2^-27] apart. *)
Definition sqrt_le (s r : num) : bool :=
  match s, r with
  | Fin x, Fin y => (0 <=? x) && (0 <=? y) && (x <=? y * y)
  | Fin x, PInf => 0 <=? x
  | PInf, PInf => true
  | _, _ => false
  end.

(** ** Values *)

Inductive jsval :=
  | JUndef
  | JNull
  | JBool (b : bool)
  | JNum (n : num)
  | JStr (s : string)
  | JArr (l : list jsval)
  | JObj (fields : list (string * jsval)).

Inductive exn :=
  | NotInitialized              (* Error("Database not initialized") *)
  | InvalidValueArray           (* Error("Invalid valueArray format: ...") *)
  | InvalidColor                (* Error("Invalid color range: ...") *)
  | InvalidPosition             (* Error("Invalid position format: ...") *)
  | InvalidWeight               (* Error("Invalid weight: ...") *)
  | InvalidProximity            (* Error("Invalid proximity: ...") *)
  | InvalidVertexArray          (* Error("Invalid vertexArray format: ...") *)
  | InvalidCenter               (* Error("Invalid center format: ...") *)
  | InvalidMatrixLayers         (* Error("Invalid matrix layers: ...") *)
  | InvalidBinData              (* Error("Invalid binData: ...") *)
  | InvalidOriginID (expected got : string)
                                (* Error("Invalid originID: expected .., got ..") *)
  | TypeError
  | ReferenceError (ident : string)
  | DataError                   (* IndexedDB: no valid key *)
  | NotFoundError.              (* IndexedDB: no such object store or index *)

(** The specification's error taxonomy, read off the messages. *)
Definition is_ValidationError (e : exn) : bool :=
  match e with
  | InvalidValueArray | InvalidColor | InvalidPosition | InvalidWeight
  | InvalidProximity | InvalidVertexArray | InvalidCenter
  | InvalidMatrixLayers | InvalidBinData => true
  | _ => false
  end.

Definition is_ConsistencyError (e : exn) : bool :=
  match e with
  | InvalidOriginID _ _ => true
  | _ => false
  end.

Inductive result (A : Type) :=
  | Ok (a : A)
  | Throw (e : exn).
Arguments Ok {A} a.
Arguments Throw {A} e.

Definition rbind {A B} (m : result A) (k : A → result B) : result B :=
  match m with
  | Ok a => k a
  | Throw e => Throw e
  end.

Declare Scope js_scope.
Delimit Scope js_scope with js.
Notation "'let*' x := m 'in' k" := (rbind m (fun x => k))
  (at level 10, x pattern, m at level 100, k at level 200) : js_scope.
Local Open Scope js_scope.

Definition is_Ok {A} (r : result A) : bool :=
  match r with Ok _ => true | Throw _ => false end.

Module JS.

(** *** Number to string, string to number *)

(** The text of a number, as a template literal inserts it: for an integer
    below [2^53] in magnitude, its decimal digits.  (From [2^53] on the
    program prints the shortest digits that tell the double apart, and from
    [10^21] on an exponent; the model writes all the digits of the integer.) *)
Definition num_to_string (n : num) : string :=
  match n with
  | NaN => "NaN"
  | NInf => "-Infinity"
  | PInf => "Infinity"
  | Fin z => pretty z
  end.

Definition digit_of (c : ascii) : option Z :=
  let n := Z.of_nat (nat_of_ascii c) in
  if (48 <=? n) && (n <=? 57) then Some (n - 48) else None.

Fixpoint parse_digits (s : string) (acc : Z) : option Z :=
  match s with
  | EmptyString => Some acc
  | String c s' =>
      match digit_of c with
      | Some d => parse_digits s' (10 * acc + d)
      | None => None
      end
  end.

Definition parse_unsigned (s : string) : option Z :=
  match s with
  | EmptyString => None
  | _ => parse_digits s 0
  end.

Definition is_white_space (c : ascii) : bool :=
  let n := nat_of_ascii c in
  (Nat.leb 9 n && Nat.leb n 13) || Nat.eqb n 32.

Fixpoint trim_start (s : string) : string :=
  match s with
  | String c s' => if is_white_space c then trim_start s' else s
  | EmptyString => EmptyString
  end.

Fixpoint trim_end (s : string) : string :=
  match s with
  | EmptyString => EmptyString
  | String c s' =>
      match trim_end s' with
      | EmptyString => if is_white_space c then EmptyString else String c EmptyString
      | t => String c t
      end
  end.

(** The numeric value of a string, white space around it dropped: the empty
    string is [0]; an optionally signed run of decimal digits is that
    integer; [Infinity] with an optional sign is infinite; every other string
    is [NaN].  Literals with a fraction, an exponent or a radix prefix are
    not read (most of them denote numbers outside the integer model): on
    these strings, which the program reads as numbers, the model differs from
    the program.  The statements on coordinates therefore ask for coordinates
    that are not strings (see [numeric] below). *)
Definition StringToNumber (text : string) : num :=
  let s := trim_end (trim_start text) in
  if String.eqb s "" then Fin 0
  else if String.eqb s "Infinity" || String.eqb s "+Infinity" then PInf
  else if String.eqb s "-Infinity" then NInf
  else match s with
       | String "-" s' =>
           match parse_unsigned s' with Some z => Fin (- z) | None => NaN end
       | String "+" s' =>
           match parse_unsigned s' with Some z => Fin z | None => NaN end
       | _ =>
           match parse_unsigned s with Some z => Fin z | None => NaN end
       end.

Fixpoint join (sep : string) (l : list string) : string :=
  match l with
  | [] => ""
  | [s] => s
  | s :: l' => s +:+ sep +:+ join sep l'
  end.

(** *** Coercions *)

Fixpoint ToString (v : jsval) : string :=
  match v with
  | JUndef => "undefined"
  | JNull => "null"
  | JBool true => "true"
  | JBool false => "false"
  | JNum n => num_to_string n
  | JStr s => s
  | JArr l =>
      join ","
        (map (fun x => match x with
                       | JUndef | JNull => ""
                       | _ => ToString x
                       end) l)
  | JObj _ => "[object Object]"
  end.

Definition ToNumber (v : jsval) : num :=
  match v with
  | JUndef => NaN
  | JNull => Fin 0
  | JBool true => Fin 1
  | JBool false => Fin 0
  | JNum n => n
  | JStr s => StringToNumber s
  | JArr _ | JObj _ => StringToNumber (ToString v)
  end.

Definition truthy (v : jsval) : bool :=
  match v with
  | JUndef | JNull => false
  | JBool b => b
  | JNum NaN => false
  | JNum (Fin z) => negb (z =? 0)
  | JNum _ => true
  | JStr s => negb (String.eqb s "")
  | JArr _ | JObj _ => true
  end.

(** [a || b] *)
Definition or_else (a b : jsval) : jsval := if truthy a then a else b.

(** [a + b]: concatenation as soon as one operand is (or converts to) a
    string, numeric addition otherwise. *)
Definition stringy (v : jsval) : bool :=
  match v with
  | JStr _ | JArr _ | JObj _ => true
  | _ => false
  end.

Definition add (a b : jsval) : jsval :=
  if stringy a || stringy b
  then JStr (ToString a +:+ ToString b)
  else JNum (num_add (ToNumber a) (ToNumber b)).

(** [a - b], [a * b], [- a] always work on numbers. *)
Definition sub (a b : jsval) : num := num_sub (ToNumber a) (ToNumber b).
Definition mul (a b : jsval) : num := num_mul (ToNumber a) (ToNumber b).
Definition neg (a : jsval) : num := num_neg (ToNumber a).

(** Comparisons of a value with a number are numeric. *)
Definition lt_num (a : jsval) (n : num) : bool := num_lt (ToNumber a) n.
Definition gt_num (a : jsval) (n : num) : bool := num_lt n (ToNumber a).
Definition le_num (a : jsval) (n : num) : bool := num_le (ToNumber a) n.
Definition ge_num (a : jsval) (n : num) : bool := num_le n (ToNumber a).

(** *** Property access *)

Fixpoint assoc (name : string) (fs : list (string * jsval)) : option jsval :=
  match fs with
  | [] => None
  | (k, v) :: fs' => if String.eqb k name then Some v else assoc name fs'
  end.

Fixpoint assoc_set (name : string) (v : jsval) (fs : list (string * jsval))
  : list (string * jsval) :=
  match fs with
  | [] => [(name, v)]
  | (k, w) :: fs' =>
      if String.eqb k name then (k, v) :: fs'
      else (k, w) :: assoc_set name v fs'
  end.

(** [v.name] for a field name that no built-in prototype defines:
    reading a field of undefined or null throws, a value without the
    field gives undefined. *)
Definition get_prop (v : jsval) (name : string) : result jsval :=
  match v with
  | JUndef | JNull => Throw TypeError
  | JObj fs => Ok (default JUndef (assoc name fs))
  | _ => Ok JUndef
  end.

Fixpoint chars (s : string) : list jsval :=
  match s with
  | EmptyString => []
  | String c s' => JStr (String c EmptyString) :: chars s'
  end.

(** [v[i]] for a literal index [i]. *)
Definition get_index (v : jsval) (i : nat) : result jsval :=
  match v with
  | JUndef | JNull => Throw TypeError
  | JArr l => Ok (nth i l JUndef)
  | JStr s => Ok (nth i (chars s) JUndef)
  | JObj fs => Ok (default JUndef (assoc (pretty i) fs))
  | _ => Ok JUndef
  end.

(** [v.name = x] on an object. *)
Definition set_prop (v : jsval) (name : string) (x : jsval) : jsval :=
  match v with
  | JObj fs => JObj (assoc_set name x fs)
  | _ => v
  end.

(** The elements a [for ... of] loop or an array pattern draws from [v]. *)
Definition iterate (v : jsval) : result (list jsval) :=
  match v with
  | JArr l => Ok l
  | JStr s => Ok (chars s)
  | _ => Throw TypeError
  end.

(** [Array.isArray(v) && v.length === n] *)
Definition is_array_of_length (v : jsval) (n : nat) : bool :=
  match v with
  | JArr l => Nat.eqb (length l) n
  | _ => false
  end.

Definition is_array (v : jsval) : bool :=
  match v with JArr _ => true | _ => false end.

End JS.

(** ** utils.js *)

Module Utils.

Section Blending.

(** Lines 6-10 of [BlendCornerByProximity] interpolate with the factor
    [Math.max(0, 1 - distanceToSubject / padding)], which is not an integer in
    general; the integer model leaves that arithmetic as a parameter:
    [interpolate d padding color1 color2 ambient] stands for the value of
    lines 5-10 when [distanceToSubject] evaluates to [d]. *)
Variable interpolate : jsval → jsval → jsval → jsval → jsval → result jsval.

(** The value of an identifier inside a function body whose local bindings
    are [locals].  [utils.js] imports nothing and declares only
    [blendingFunctions] and [calculateProximityPadding] at module level, and
    the host's global object is taken to define none of the names looked up
    here: an identifier that is not local is unbound, and reading it throws. *)
Definition resolve (locals : list (string * jsval)) (x : string) : result jsval :=
  match JS.assoc x locals with
  | Some v => Ok v
  | None => Throw (ReferenceError x)
  end.

Definition BlendCornerByProximity (color1 color2 params : jsval) : result jsval :=
  let* weight := JS.get_prop params "weight" in
  let* ambient := JS.get_prop params "ambient" in
  let padding := if JS.ge_num weight (Fin 0) then weight else JNum (JS.neg weight) in
  let locals := [("color1", color1); ("color2", color2); ("weight", weight);
                 ("ambient", ambient); ("padding", padding)] in
  let* distanceToSubject := resolve locals "distanceToSubject" in
  interpolate distanceToSubject padding color1 color2 ambient.

Definition BlendVrtxByWeight (color1 color2 params : jsval) : result jsval :=
  let* weight := JS.get_prop params "weight" in
  let* ambient := JS.get_prop params "ambient" in
  let channel (i : nat) : result jsval :=
    let* a := JS.get_index color1 i in
    let* b := JS.get_index color2 i in
    let* c := JS.get_index ambient i in
    Ok (JS.add (JNum (num_add (JS.mul a (JNum (JS.sub (JNum (Fin 1)) weight)))
                              (JS.mul b weight))) c) in
  let* r := channel 0%nat in
  let* g := channel 1%nat in
  let* b := channel 2%nat in
  Ok (JArr [r; g; b]).

Definition blendBackground (color1 color2 params : jsval) : result jsval :=
  let* ambient := JS.get_prop params "ambient" in
  let channel (i : nat) : result jsval :=
    let* a := JS.get_index color1 i in
    let* b := JS.get_index color2 i in
    let* c := JS.get_index ambient i in
    Ok (JNum (num_min (Fin 255) (JS.ToNumber (JS.add (JS.add a b) c)))) in
  let* r := channel 0%nat in
  let* g := channel 1%nat in
  let* b := channel 2%nat in
  Ok (JArr [r; g; b]).

(** What [blendingFunctions[key]] evaluates to.  [blendingFunctions] is an
    object literal: besides its three own properties it inherits the members
    of [Object.prototype]. *)
Inductive member :=
  | Own_BlendCornerByProximity
  | Own_BlendVrtxByWeight
  | Own_blendBackground
  | Inherited (name : string).

Definition Object_prototype : list string :=
  ["constructor"; "__defineGetter__"; "__defineSetter__"; "hasOwnProperty";
   "__lookupGetter__"; "__lookupSetter__"; "isPrototypeOf";
   "propertyIsEnumerable"; "toString"; "valueOf"; "__proto__";
   "toLocaleString"].

Definition blendingFunctions (key : string) : option member :=
  if String.eqb key "BlendCornerByProximity" then Some Own_BlendCornerByProximity
  else if String.eqb key "BlendVrtxByWeight" then Some Own_BlendVrtxByWeight
  else if String.eqb key "blendBackground" then Some Own_blendBackground
  else if existsb (String.eqb key) Object_prototype then Some (Inherited key)
  else None.

(** A member of [Object.prototype] called as a plain function of the colors:
    [this] is undefined (module code is strict).  [__proto__] is an object and
    not callable; [toString] answers for undefined; [constructor] is [Object],
    which returns an object argument as it is (the wrapper of a primitive is
    identified with the primitive); [isPrototypeOf] answers false for a
    primitive argument; every other member first converts [this] to an object
    and throws. *)
Definition call_inherited (name : string) (color1 : jsval) : result jsval :=
  if String.eqb name "toString" then Ok (JStr "[object Undefined]")
  else if String.eqb name "constructor" then
    match color1 with
    | JUndef | JNull => Ok (JObj [])
    | _ => Ok color1
    end
  else if String.eqb name "isPrototypeOf" then
    match color1 with
    | JArr _ | JObj _ => Throw TypeError
    | _ => Ok (JBool false)
    end
  else Throw TypeError.

Definition call (f : member) (color1 color2 params : jsval) : result jsval :=
  match f with
  | Own_BlendCornerByProximity => BlendCornerByProximity color1 color2 params
  | Own_BlendVrtxByWeight => BlendVrtxByWeight color1 color2 params
  | Own_blendBackground => blendBackground color1 color2 params
  | Inherited name => call_inherited name color1
  end.

End Blending.

Definition calculateProximityPadding (weight : jsval) : jsval :=
  if JS.ge_num weight (Fin 0) then weight else JNum (JS.neg weight).

End Utils.

(** ** models.js *)

Module Models.

Definition CubeVertex (vertexID windowUID position color blendingLogicId : jsval)
  : jsval :=
  JObj [("vertexID", vertexID);
        ("windowUID", windowUID);
        ("valueArray", JArr [position; color]);
        ("blendingLogicId", blendingLogicId)].

Fixpoint map_valueArray (vertices : list jsval) : result (list jsval) :=
  match vertices with
  | [] => Ok []
  | v :: vs =>
      let* a := JS.get_prop v "valueArray" in
      let* rest := map_valueArray vs in
      Ok (a :: rest)
  end.

Definition Cube (id windowUID position subcubeIDs : jsval)
    (vertices : list jsval) (blendingLogicId : jsval) : result jsval :=
  let* arrays := map_valueArray vertices in
  Ok (JObj [("id", id);
            ("windowUID", windowUID);
            ("value", JArr [position; subcubeIDs; JArr arrays]);
            ("blendingLogicId", blendingLogicId)]).

Definition SubcubeVertex
    (id windowUID cubeId subCubeID originID value activeWindowUID : jsval)
  : result jsval :=
  let* w := JS.get_index value 2 in
  Ok (JObj [("id", id);
            ("windowUID", windowUID);
            ("cubeId", cubeId);
            ("subCubeID", subCubeID);
            ("originID", originID);
            ("value", value);
            ("activeWindowUID", activeWindowUID);
            ("proximityPadding",
             if JS.ge_num w (Fin 0) then w else JNum (JS.neg w))]).

Definition Subcube
    (id windowUID center order vertexArray cubeId originID blendingLogicId : jsval)
  : jsval :=
  JObj [("id", id);
        ("windowUID", windowUID);
        ("center", center);
        ("order", order);
        ("vertexArray", vertexArray);
        ("cubeId", cubeId);
        ("originID", originID);
        ("blendingLogicId", blendingLogicId)].

End Models.

(** ** storage.js *)

Module Storage.

(** *** The IndexedDB database *)

(** A key is a number other than NaN, a string, or an array of keys. *)
Abbreviation idbkey := (gen_tree (num + string)) (only parsing).

Fixpoint to_key (v : jsval) : option idbkey :=
  match v with
  | JNum NaN => None
  | JNum n => Some (GenLeaf (inl n))
  | JStr s => Some (GenLeaf (inr s))
  | JArr l =>
      GenNode 0 <$>
        (fix go (l : list jsval) : option (list idbkey) :=
           match l with
           | [] => Some []
           | x :: l' =>
               match to_key x, go l' with
               | Some k, Some ks => Some (k :: ks)
               | _, _ => None
               end
           end) l
  | _ => None
  end.

Fixpoint split_path (s cur : string) : list string :=
  match s with
  | EmptyString => [cur]
  | String c s' =>
      if Ascii.eqb c "." then cur :: split_path s' ""
      else split_path s' (cur +:+ String c "")
  end.

Fixpoint eval_path (path : list string) (v : jsval) : option jsval :=
  match path with
  | [] => Some v
  | p :: ps =>
      match v with
      | JObj fs =>
          match JS.assoc p fs with
          | Some w => eval_path ps w
          | None => None
          end
      | _ => None
      end
  end.

(** The key that a key path selects in a record, if it is a valid one. *)
Definition extract_key (keyPath : string) (v : jsval) : option idbkey :=
  eval_path (split_path keyPath "") v ≫= to_key.

(** The object stores that [init] creates on upgrade: name, key path, and the
    indices as (name, key path). *)
Definition schema : list (string * (string * list (string * string))) :=
  [("Cubes", ("id",
      [("windowUID", "windowUID"); ("activeWindowUID", "activeWindowUID");
       ("blendingLogicId", "blendingLogicId")]));
   ("CubeVertices", ("vertexID",
      [("windowUID", "windowUID"); ("activeWindowUID", "activeWindowUID")]));
   ("Subcubes", ("id",
      [("cubeId", "cubeId"); ("windowUID", "windowUID");
       ("activeWindowUID", "activeWindowUID"); ("originID", "originID");
       ("blendingLogicId", "blendingLogicId")]));
   ("SubcubeVertices", ("id",
      [("cubeId", "cubeId"); ("subCubeID", "subCubeID");
       ("originID", "originID"); ("windowUID", "windowUID");
       ("activeWindowUID", "activeWindowUID");
       ("proximityPadding", "proximityPadding");
       ("weight", "value.weight"); ("proximity", "value.proximity")]));
   ("CubeMatrix", ("id",
      [("windowUID", "windowUID"); ("redLayer", "redLayer");
       ("greenLayer", "greenLayer"); ("blueLayer", "blueLayer");
       ("binData", "binData")]));
   ("SubcubeMatrix", ("id",
      [("cubeId", "cubeId"); ("windowUID", "windowUID");
       ("redLayer", "redLayer"); ("greenLayer", "greenLayer");
       ("blueLayer", "blueLayer"); ("binData", "binData")]));
   ("BackgroundMatrix", ("id",
      [("ambientValue", "ambientValue"); ("windowUID", "windowUID");
       ("redLayer", "redLayer"); ("greenLayer", "greenLayer");
       ("blueLayer", "blueLayer"); ("binData", "binData");
       ("blendingLogicId", "blendingLogicId")]));
   ("BlendingLogic", ("logicId", []));
   ("ZAxisConfig", ("id",
      [("cameraPosition", "cameraPosition");
       ("userDefinedPoint", "userDefinedPoint")]))].

Fixpoint lookup_name {A} (name : string) (l : list (string * A)) : option A :=
  match l with
  | [] => None
  | (k, a) :: l' => if String.eqb k name then Some a else lookup_name name l'
  end.

Definition keyPath_of (storeName : string) : option string :=
  fst <$> lookup_name storeName schema.

Definition index_of (storeName indexName : string) : option string :=
  lookup_name storeName schema ≫= λ s, lookup_name indexName (snd s).

(** The records of every object store, by store name and primary key. *)
Abbreviation database := (gmap string (gmap idbkey jsval)) (only parsing).

Definition records (d : database) (storeName : string) : gmap idbkey jsval :=
  default ∅ (d !! storeName).

(** A [CubeStorage] object: [db] tells whether [this.db] holds an open
    connection, [data] is the content of the database it names. *)
Record CubeStorage := {
  db : bool;
  data : database
}.

Definition init (s : CubeStorage) : CubeStorage :=
  {| db := true; data := data s |}.

Definition close (s : CubeStorage) : CubeStorage :=
  {| db := false; data := data s |}.

(** [transaction.objectStore(storeName).put(entity)] in a transaction whose
    scope has [storeName]: the key is taken from the record by the store's
    key path; without a valid key [put] throws. *)
Definition put (d : database) (storeName : string) (entity : jsval)
  : result database :=
  match keyPath_of storeName with
  | None => Throw NotFoundError
  | Some kp =>
      match extract_key kp entity with
      | None => Throw DataError
      | Some k => Ok (<[storeName := <[k := entity]> (records d storeName)]> d)
      end
  end.

(** *** validateEntity

    [Ok e'] is the normal return; [e'] is the entity as the call leaves it
    (for the vertex stores, with [proximityPadding] assigned). *)

Definition color_out_of_range (color : list jsval) : bool :=
  existsb (fun c => JS.lt_num c (Fin 0) || JS.gt_num c (Fin 255)) color.

Definition is_pair (v : jsval) : bool := JS.is_array_of_length v 2.

Definition validate (entity : jsval) (storeName : string) : result jsval :=
  if String.eqb storeName "CubeVertices" || String.eqb storeName "SubcubeVertices"
  then
    let* valueArray := JS.get_prop entity "valueArray" in
    match valueArray with
    | JArr [color; position; weight; proximity] =>
        match color with
        | JArr [c0; c1; c2] =>
            if color_out_of_range [c0; c1; c2] then Throw InvalidColor
            else if negb (JS.is_array_of_length position 3) then Throw InvalidPosition
            else
              match weight with
              | JNum NaN => Throw InvalidWeight
              | JNum w =>
                  match proximity with
                  | JStr _ =>
                      Ok (JS.set_prop entity "proximityPadding"
                            (if num_le (Fin 0) w then weight
                             else JNum (num_neg w)))
                  | _ => Throw InvalidProximity
                  end
              | _ => Throw InvalidWeight
              end
        | _ => Throw InvalidColor
        end
    | _ => Throw InvalidValueArray
    end
  else if String.eqb storeName "Subcubes" then
    let* vertexArray := JS.get_prop entity "vertexArray" in
    match vertexArray with
    | JArr vs =>
        if negb (forallb is_pair vs) then Throw InvalidVertexArray
        else
          let* center := JS.get_prop entity "center" in
          if negb (JS.is_array_of_length center 3) then Throw InvalidCenter
          else Ok entity
    | _ => Throw InvalidVertexArray
    end
  else if String.eqb storeName "CubeMatrix" || String.eqb storeName "SubcubeMatrix"
          || String.eqb storeName "BackgroundMatrix" then
    let* redLayer := JS.get_prop entity "redLayer" in
    let* greenLayer := JS.get_prop entity "greenLayer" in
    let* blueLayer := JS.get_prop entity "blueLayer" in
    if negb (JS.is_array redLayer && JS.is_array greenLayer && JS.is_array blueLayer)
    then Throw InvalidMatrixLayers
    else
      let* binData := JS.get_prop entity "binData" in
      if negb (JS.is_array binData) then Throw InvalidBinData
      else Ok entity
  else Ok entity.

Definition validateEntity (s : CubeStorage) (entity : jsval) (storeName : string)
  : result jsval :=
  if negb (db s) then Throw NotInitialized
  else validate entity storeName.

Definition validateOriginID (originID windowUID cubeId : jsval) : result bool :=
  let expected := JS.ToString windowUID +:+ JS.ToString cubeId in
  match originID with
  | JStr s =>
      if String.eqb s expected then Ok true
      else Throw (InvalidOriginID expected s)
  | _ => Throw (InvalidOriginID expected (JS.ToString originID))
  end.

(** *** save, get, getAllByIndex *)

Definition needs_originID (storeName : string) : bool :=
  existsb (String.eqb storeName) ["Subcubes"; "SubcubeVertices"].

Definition check_originID (entity : jsval) (storeName : string) : result bool :=
  if needs_originID storeName then
    let* originID := JS.get_prop entity "originID" in
    let* windowUID := JS.get_prop entity "windowUID" in
    let* cubeId := JS.get_prop entity "cubeId" in
    validateOriginID originID windowUID cubeId
  else Ok true.

Definition save (s : CubeStorage) (entity : jsval) (storeName : string)
  : result unit * CubeStorage :=
  match validateEntity s entity storeName with
  | Throw e => (Throw e, s)
  | Ok entity' =>
      match check_originID entity' storeName with
      | Throw e => (Throw e, s)
      | Ok _ =>
          if negb (db s) then (Throw NotInitialized, s)
          else
            match put (data s) storeName entity' with
            | Throw e => (Throw e, s)
            | Ok d => (Ok tt, {| db := db s; data := d |})
            end
      end
  end.

Definition get (s : CubeStorage) (key : jsval) (storeName : string)
  : result jsval :=
  if negb (db s) then Throw NotInitialized
  else
    match keyPath_of storeName with
    | None => Throw NotFoundError
    | Some _ =>
        match to_key key with
        | None => Throw DataError
        | Some k => Ok (default JUndef (records (data s) storeName !! k))
        end
    end.

(** [index.getAll(value)]: the records whose index key is [value]; all the
    records the index holds when [value] is undefined or null.  A record is in
    an index when the index's key path selects a valid key in it.  The order of
    the answer (by index key, then primary key) is not modelled: the records
    come in the enumeration order of the map. *)
Definition getAllByIndex (s : CubeStorage) (indexName : string) (value : jsval)
    (storeName : string) : result (list jsval) :=
  if negb (db s) then Throw NotInitialized
  else
    match keyPath_of storeName with
    | None => Throw NotFoundError
    | Some _ =>
        match index_of storeName indexName with
        | None => Throw NotFoundError
        | Some path =>
            let all := (map_to_list (records (data s) storeName)).*2 in
            match value with
            | JUndef | JNull =>
                Ok (filter (λ r, is_Some (extract_key path r)) all)
            | _ =>
                match to_key value with
                | None => Throw DataError
                | Some k => Ok (filter (λ r, extract_key path r = Some k) all)
                end
            end
        end
    end.

(** *** updateCubeHierarchy *)

Module CubeData.
Record t := {
  cube : jsval;
  subcubes : option (list jsval);
  subcubeVertices : option (list jsval);
  cubeVertices : option (list jsval)
}.
End CubeData.

(** The [put] requests of one transaction, in the order they are placed.  A
    [put] that throws ends the caller there (the promise is rejected); the
    transaction is not aborted, and commits the requests placed before. *)
Fixpoint puts (d : database) (requests : list (string * jsval))
  : result unit * database :=
  match requests with
  | [] => (Ok tt, d)
  | (storeName, entity) :: rest =>
      match put d storeName entity with
      | Throw e => (Throw e, d)
      | Ok d' => puts d' rest
      end
  end.

Definition requests_of (cubeData : CubeData.t) : list (string * jsval) :=
  [("Cubes", CubeData.cube cubeData)]
  ++ map (pair "Subcubes") (default [] (CubeData.subcubes cubeData))
  ++ map (pair "SubcubeVertices") (default [] (CubeData.subcubeVertices cubeData))
  ++ map (pair "CubeVertices") (default [] (CubeData.cubeVertices cubeData)).

(** One transaction over the four stores: a [put] for the cube, then for each
    subcube, each subcube vertex and each cube vertex of the lists that are
    present; the promise resolves when every request has succeeded. *)
Definition updateCubeHierarchy (s : CubeStorage) (cubeData : CubeData.t)
  : result unit * CubeStorage :=
  if negb (db s) then (Throw NotInitialized, s)
  else
    let '(r, d) := puts (data s) (requests_of cubeData) in
    (r, {| db := db s; data := d |}).

(** *** getEntitiesInBounds *)

Record entities := {
  cubes : list jsval;
  subcubes : list jsval;
  subcubeVertices : list jsval
}.

Definition no_entities : entities :=
  {| cubes := []; subcubes := []; subcubeVertices := [] |}.

Record bounds := {
  min : num * num * num;
  max : num * num * num
}.

Fixpoint filterR {A} (p : A → result bool) (l : list A) : result (list A) :=
  match l with
  | [] => Ok []
  | x :: l' =>
      let* b := p x in
      let* rest := filterR p l' in
      Ok (if b then x :: rest else rest)
  end.

Definition isInBounds (b : bounds) (position : jsval) : result bool :=
  let '(min0, min1, min2) := min b in
  let '(max0, max1, max2) := max b in
  let* p0 := JS.get_index position 0 in
  let* p1 := JS.get_index position 1 in
  let* p2 := JS.get_index position 2 in
  Ok (JS.ge_num p0 min0 && JS.le_num p0 max0 &&
      JS.ge_num p1 min1 && JS.le_num p1 max1 &&
      JS.ge_num p2 min2 && JS.le_num p2 max2).

(** The three lists of a bin (or of an answer), and the place where an entity
    of each list carries its position: [cube.value[0]], [subcube.center],
    [vertex.value[1]]. *)
Inductive slot := Cubes | Subcubes | SubcubeVertices.

Definition position_of (sl : slot) (e : jsval) : result jsval :=
  match sl with
  | Cubes => let* v := JS.get_prop e "value" in JS.get_index v 0
  | Subcubes => JS.get_prop e "center"
  | SubcubeVertices => let* v := JS.get_prop e "value" in JS.get_index v 1
  end.

Definition slot_of (sl : slot) (b : entities) : list jsval :=
  match sl with
  | Cubes => cubes b
  | Subcubes => subcubes b
  | SubcubeVertices => subcubeVertices b
  end.

(** [b.<slot>.push(...es)] *)
Definition push (sl : slot) (es : list jsval) (b : entities) : entities :=
  match sl with
  | Cubes =>
      {| cubes := cubes b ++ es; subcubes := subcubes b;
         subcubeVertices := subcubeVertices b |}
  | Subcubes =>
      {| cubes := cubes b; subcubes := subcubes b ++ es;
         subcubeVertices := subcubeVertices b |}
  | SubcubeVertices =>
      {| cubes := cubes b; subcubes := subcubes b;
         subcubeVertices := subcubeVertices b ++ es |}
  end.

Definition in_bounds (b : bounds) (sl : slot) (e : jsval) : result bool :=
  let* position := position_of sl e in
  isInBounds b position.

Definition getEntitiesInBounds (s : CubeStorage) (b : bounds) (windowUID : jsval)
  : result entities :=
  if negb (db s) then Throw NotInitialized
  else
    let* cs := getAllByIndex s "windowUID" windowUID "Cubes" in
    let* ss := getAllByIndex s "windowUID" windowUID "Subcubes" in
    let* vs := getAllByIndex s "windowUID" windowUID "SubcubeVertices" in
    let* cs' := filterR (in_bounds b Cubes) cs in
    let* ss' := filterR (in_bounds b Subcubes) ss in
    let* vs' := filterR (in_bounds b SubcubeVertices) vs in
    Ok {| cubes := cs'; subcubes := ss'; subcubeVertices := vs' |}.

(** *** buildSpatialIndex *)

Record spatialIndex := {
  binSize : num;
  bins : gmap string entities
}.

Definition getBinCoords (binSize : num) (position : jsval)
  : result (num * num * num) :=
  let* p0 := JS.get_index position 0 in
  let* p1 := JS.get_index position 1 in
  let* p2 := JS.get_index position 2 in
  Ok (floor_div (JS.ToNumber p0) binSize,
      floor_div (JS.ToNumber p1) binSize,
      floor_div (JS.ToNumber p2) binSize).

Definition getBinKey (binCoords : num * num * num) : string :=
  let '(b0, b1, b2) := binCoords in
  JS.num_to_string b0 +:+ "," +:+ JS.num_to_string b1 +:+ ","
    +:+ JS.num_to_string b2.

(** [Math.sqrt(pow(position[0]-pos[0],2) + ...) <= radius], with
    [Math.pow(d, 2)] the square [d * d] and the root compared as in
    [sqrt_le]: the test of the program as long as the sum of the squares is
    an integer below [2^52]. *)
Definition addIfInRadius (position : jsval) (radius : num) (pos : jsval)
  : result bool :=
  let* a0 := JS.get_index position 0 in
  let* b0 := JS.get_index pos 0 in
  let* a1 := JS.get_index position 1 in
  let* b1 := JS.get_index pos 1 in
  let* a2 := JS.get_index position 2 in
  let* b2 := JS.get_index pos 2 in
  let sq (d : num) := num_mul d d in
  Ok (sqrt_le (num_add (num_add (sq (JS.sub a0 b0)) (sq (JS.sub a1 b1)))
                       (sq (JS.sub a2 b2)))
              radius).

(** A call either returns, throws, or never ends. *)
Inductive outcome (A : Type) :=
  | Returns (a : A)
  | Throws (e : exn)
  | Diverges.
Arguments Returns {A} a.
Arguments Throws {A} e.
Arguments Diverges {A}.

(** The values of [x] in [for (let x = lo; x <= hi; x++)]; [None] when the
    loop never ends ([x++] leaves an infinite [x] where it is, and never
    reaches an infinite [hi]).  The finite case counts integers, as the
    program does while [hi] is a [safe_integer]: at [2^53] the increment of the
    program rounds back to [x] and its loop does not end either. *)
Definition loop_range (lo hi : num) : option (list Z) :=
  match lo, hi with
  | NaN, _ | _, NaN => Some []
  | Fin a, Fin b => Some (seqZ a (b - a + 1))
  | Fin _, PInf => None
  | Fin _, NInf => Some []
  | NInf, _ => None
  | PInf, PInf => None
  | PInf, _ => Some []
  end.

Fixpoint iter {A} (body : Z → A → outcome A) (xs : list Z) (acc : A)
  : outcome A :=
  match xs with
  | [] => Returns acc
  | x :: xs' =>
      match body x acc with
      | Returns acc' => iter body xs' acc'
      | Throws e => Throws e
      | Diverges => Diverges
      end
  end.

Definition for_loop {A} (lo hi : num) (body : Z → A → outcome A) (acc : A)
  : outcome A :=
  match loop_range lo hi with
  | None => Diverges
  | Some xs => iter body xs acc
  end.

Definition in_radius (position : jsval) (radius : num) (sl : slot) (e : jsval)
  : result bool :=
  let* pos := position_of sl e in
  addIfInRadius position radius pos.

(** The body of the innermost loop at the cell [(x, y, z)]. *)
Definition visit (idx : spatialIndex) (position : jsval) (radius : num)
    (x y z : Z) (results : entities) : outcome entities :=
  let binKey := getBinKey (Fin x, Fin y, Fin z) in
  match bins idx !! binKey with
  | None => Returns results
  | Some bin =>
      match
        (let* cs := filterR (in_radius position radius Cubes) (cubes bin) in
         let* ss := filterR (in_radius position radius Subcubes) (subcubes bin) in
         let* vs := filterR (in_radius position radius SubcubeVertices)
                      (subcubeVertices bin) in
         Ok (push SubcubeVertices vs (push Subcubes ss (push Cubes cs results))))
      with
      | Ok results' => Returns results'
      | Throw e => Throws e
      end
  end.

Definition queryNearPosition (idx : spatialIndex) (position : jsval)
    (radius : num) : outcome entities :=
  let radiusInBins := ceil_div radius (binSize idx) in
  match getBinCoords (binSize idx) position with
  | Throw e => Throws e
  | Ok (c0, c1, c2) =>
      for_loop (num_sub c0 radiusInBins) (num_add c0 radiusInBins) (λ x,
        for_loop (num_sub c1 radiusInBins) (num_add c1 radiusInBins) (λ y,
          for_loop (num_sub c2 radiusInBins) (num_add c2 radiusInBins) (λ z,
            visit idx position radius x y z)))
        no_entities
  end.

(** One pass of [entities.<slot>.forEach(...)] over the bins. *)
Definition index_entity (binSize : num) (sl : slot)
    (bins : gmap string entities) (e : jsval) : result (gmap string entities) :=
  let* position := position_of sl e in
  let* binCoords := getBinCoords binSize position in
  let binKey := getBinKey binCoords in
  let bins' :=
    match bins !! binKey with
    | None => <[binKey := no_entities]> bins
    | Some _ => bins
    end in
  Ok (<[binKey := push sl [e] (default no_entities (bins' !! binKey))]> bins').

Fixpoint index_all (binSize : num) (sl : slot) (es : list jsval)
    (bins : gmap string entities) : result (gmap string entities) :=
  match es with
  | [] => Ok bins
  | e :: es' =>
      let* bins' := index_entity binSize sl bins e in
      index_all binSize sl es' bins'
  end.

Definition everywhere : bounds :=
  {| min := (NInf, NInf, NInf); max := (PInf, PInf, PInf) |}.

Definition buildSpatialIndex (s : CubeStorage) (windowUID : jsval) (binSize : num)
  : result spatialIndex :=
  let* ents := getEntitiesInBounds s everywhere windowUID in
  let* b1 := index_all binSize Cubes (cubes ents) ∅ in
  let* b2 := index_all binSize Subcubes (subcubes ents) b1 in
  let* b3 := index_all binSize SubcubeVertices (subcubeVertices ents) b2 in
  Ok {| binSize := binSize; bins := b3 |}.

(** *** batchUpdateMatrices *)

(** [v === "text"] *)
Definition is_string (v : jsval) (text : string) : bool :=
  match v with
  | JStr t => String.eqb t text
  | _ => false
  end.

(** The first [forEach]: the set of store names of the transaction. *)
Definition add_storeName (storeNames : gset string) (update : jsval)
  : result (gset string) :=
  let* type := JS.get_prop update "type" in
  let s1 := if is_string type "CubeMatrix"
            then {["CubeMatrix"]} ∪ storeNames else storeNames in
  let s2 := if is_string type "SubcubeMatrix"
            then {["SubcubeMatrix"]} ∪ s1 else s1 in
  Ok (if is_string type "BackgroundMatrix"
      then {["BackgroundMatrix"]} ∪ s2 else s2).

Fixpoint storeNames_of (storeNames : gset string) (matrixUpdates : list jsval)
  : result (gset string) :=
  match matrixUpdates with
  | [] => Ok storeNames
  | update :: rest =>
      let* storeNames' := add_storeName storeNames update in
      storeNames_of storeNames' rest
  end.

(** [transaction.objectStore(update.type).put(update.matrix)] in a
    transaction over [scope]: a name outside the scope is not found. *)
Definition put_matrix (scope : gset string) (d : database) (update : jsval)
  : result database :=
  let* type := JS.get_prop update "type" in
  if bool_decide (JS.ToString type ∈ scope) then
    let* matrix := JS.get_prop update "matrix" in
    put d (JS.ToString type) matrix
  else Throw NotFoundError.

(** The second [forEach]; as in [puts], a request that throws ends the call
    and leaves the requests placed before it to be committed. *)
Fixpoint put_matrices (scope : gset string) (d : database)
    (matrixUpdates : list jsval) : result unit * database :=
  match matrixUpdates with
  | [] => (Ok tt, d)
  | update :: rest =>
      match put_matrix scope d update with
      | Throw e => (Throw e, d)
      | Ok d' => put_matrices scope d' rest
      end
  end.

(** How a call of [batchUpdateMatrices] ends: it resolves, or it is rejected
    with one of the errors above, or with the InvalidAccessError that
    [db.transaction] throws when the list of store names is empty. *)
Inductive settled :=
  | Resolves
  | Rejects (e : exn)
  | RejectsInvalidAccess.

Definition batchUpdateMatrices (s : CubeStorage) (matrixUpdates : list jsval)
  : settled * CubeStorage :=
  if negb (db s) then (Rejects NotInitialized, s)
  else
    match storeNames_of ∅ matrixUpdates with
    | Throw e => (Rejects e, s)
    | Ok storeNames =>
        if bool_decide (storeNames = ∅) then (RejectsInvalidAccess, s)
        else
          let '(r, d) := put_matrices storeNames (data s) matrixUpdates in
          (match r with Ok _ => Resolves | Throw e => Rejects e end,
           {| db := db s; data := d |})
    end.

End Storage.

(** ** painter.js *)

Module Painter.

Record bin := {
  color : jsval;
  active : bool;
  depth : jsval
}.

(** A [Map] with string keys, in insertion order. *)
Definition Map : Type := list (string * bin).

Fixpoint Map_get (m : Map) (k : string) : option bin :=
  match m with
  | [] => None
  | (k', b) :: m' => if String.eqb k' k then Some b else Map_get m' k
  end.

Fixpoint Map_set (m : Map) (k : string) (b : bin) : Map :=
  match m with
  | [] => [(k, b)]
  | (k', b') :: m' =>
      if String.eqb k' k then (k', b) :: m' else (k', b') :: Map_set m' k b
  end.

Record Painter := {
  binSize : num;
  ambientValue : jsval;
  bins : Map
}.

(** [new Painter()] *)
Definition new : Painter :=
  {| binSize := Fin 10;
     ambientValue := JArr [JNum (Fin 10); JNum (Fin 10); JNum (Fin 10)];
     bins := [] |}.

Section Painting.

Variable interpolate : jsval → jsval → jsval → jsval → jsval → result jsval.

Definition blend (p : Painter) (color1 color2 params : jsval) : result jsval :=
  let* weight := JS.get_prop params "weight" in
  let* proximity := JS.get_prop params "proximity" in
  let blendFunc :=
    match Utils.blendingFunctions (JS.ToString proximity) with
    | Some f => f
    | None => Utils.Own_blendBackground
    end in
  Utils.call interpolate blendFunc color1 color2
    (JObj [("weight", weight); ("ambient", ambientValue p)]).

(** [item.value[2] || item.vertexArray.map(v => ({ valueArray: v }))],
    as the list of vertices that [for ... of] draws from it. *)
Definition vertices_of (item : jsval) : result (list jsval) :=
  let* value := JS.get_prop item "value" in
  let* nested := JS.get_index value 2 in
  if JS.truthy nested then JS.iterate nested
  else
    let* vertexArray := JS.get_prop item "vertexArray" in
    match vertexArray with
    | JArr vs => Ok (map (λ v, JObj [("valueArray", v)]) vs)
    | _ => Throw TypeError
    end.

(** [vertex.valueArray[i] || vertex.value[i]] *)
Definition part (vertex : jsval) (i : nat) : result jsval :=
  let* valueArray := JS.get_prop vertex "valueArray" in
  let* a := JS.get_index valueArray i in
  if JS.truthy a then Ok a
  else
    let* value := JS.get_prop vertex "value" in
    JS.get_index value i.

Fixpoint foldR {A S} (f : S → A → result S) (l : list A) (s : S) : result S :=
  match l with
  | [] => Ok s
  | x :: l' => let* s' := f s x in foldR f l' s'
  end.

Definition findFarthestDepth (data : list jsval) : result num :=
  foldR (λ maxZ item,
    let* vertices := vertices_of item in
    foldR (λ maxZ vertex,
      let* position := part vertex 1 in
      let* z := JS.get_index position 2 in
      Ok (num_max maxZ (JS.ToNumber z))) vertices maxZ) data NInf.

(** [vertex.valueArray[3] || vertex[1] || 'blendBackground'] *)
Definition logic_of (vertex : jsval) : result jsval :=
  let* valueArray := JS.get_prop vertex "valueArray" in
  let* logic3 := JS.get_index valueArray 3 in
  if JS.truthy logic3 then Ok logic3
  else
    let* logic1 := JS.get_index vertex 1 in
    Ok (JS.or_else logic1 (JStr "blendBackground")).

(** The body of the inner loop of [createBins] for one vertex. *)
Definition paint (p : Painter) (isBackground : bool) (maxDepth : num)
    (bins : Map) (vertex : jsval) : result Map :=
  let* position := part vertex 1 in
  let* xyz := JS.iterate position in
  let x := nth 0 xyz JUndef in
  let y := nth 1 xyz JUndef in
  let z := nth 2 xyz JUndef in
  let row := floor_div (JS.ToNumber x) (binSize p) in
  let col := floor_div (JS.ToNumber y) (binSize p) in
  let depthBin := floor_div (JS.ToNumber z) (binSize p) in
  let binKey :=
    if isBackground
    then JS.num_to_string row +:+ "," +:+ JS.num_to_string col +:+ ","
           +:+ JS.num_to_string depthBin
    else JS.num_to_string row +:+ "," +:+ JS.num_to_string col in
  let* bins1 :=
    match Map_get bins binKey with
    | Some _ => Ok bins
    | None =>
        let* ambient := JS.iterate (ambientValue p) in
        Ok (Map_set bins binKey
              {| color := JArr ambient; active := false; depth := z |})
    end in
  if JS.le_num z (num_add maxDepth (Fin 1)) then
    let* blendLogic := logic_of vertex in
    match Map_get bins1 binKey with
    | None => Throw TypeError
    | Some b =>
        let* color2 := part vertex 0 in
        let* weight := part vertex 2 in
        let* newColor :=
          blend p (color b) color2
            (JObj [("weight", weight); ("proximity", blendLogic)]) in
        let depth' :=
          if isBackground
          then JNum (num_max (JS.ToNumber (depth b)) (JS.ToNumber z))
          else depth b in
        Ok (Map_set bins1 binKey
              {| color := newColor; active := true; depth := depth' |})
    end
  else Ok bins1.

(** [createBins(data, isBackground)]: the bins it returns. *)
Definition createBins (p : Painter) (data : list jsval) (isBackground : bool)
  : result Map :=
  let* maxDepth := findFarthestDepth data in
  foldR (λ bins item,
    let* vertices := vertices_of item in
    foldR (paint p isBackground maxDepth) vertices bins) data [].

End Painting.

End Painter.

(** ** main.js *)

Module Main.

(** How the promise of [main()] settles: it is fulfilled, or rejected with
    one of the errors of the calls it awaits (the error then goes to
    [console.error]), or it stays pending because a loop never ends. *)
Inductive ending :=
  | Fulfilled
  | Rejected (e : exn)
  | RejectedInvalidAccess
  | RejectedByRenderer
  | Pending.

(** A step of the script works on the storage object; it gives a value to
    the steps after it, or ends the script. *)
Definition step (A : Type) : Type :=
  Storage.CubeStorage → (A + ending) * Storage.CubeStorage.

Definition bind {A B} (m : step A) (k : A → step B) : step B :=
  λ s, match m s with
       | (inl a, s') => k a s'
       | (inr e, s') => (inr e, s')
       end.

Notation "'let!' x := m 'in' k" := (bind m (fun x => k))
  (at level 10, x pattern, m at level 100, k at level 200) : js_scope.

Definition finish (e : ending) : step unit := λ s, (inr e, s).

Definition of_result {A} (r : result A) : step A :=
  λ s, (match r with Ok a => inl a | Throw e => inr (Rejected e) end, s).

Definition of_outcome {A} (r : Storage.outcome A) : step A :=
  λ s, (match r with
        | Storage.Returns a => inl a
        | Storage.Throws e => inr (Rejected e)
        | Storage.Diverges => inr Pending
        end, s).

(** [await storage.init()] *)
Definition init : step unit := λ s, (inl tt, Storage.init s).

(** [await storage.save(entity, storeName)].  The value is the entity object
    as the call leaves it: [validateEntity] assigns its [proximityPadding],
    and the script goes on with the same object. *)
Definition save (entity : jsval) (storeName : string) : step jsval :=
  λ s, let '(r, s') := Storage.save s entity storeName in
       (match r with
        | Ok _ =>
            inl (match Storage.validate entity storeName with
                 | Ok entity' => entity'
                 | Throw _ => entity
                 end)
        | Throw e => inr (Rejected e)
        end, s').

Definition updateCubeHierarchy (cubeData : Storage.CubeData.t) : step unit :=
  λ s, let '(r, s') := Storage.updateCubeHierarchy s cubeData in
       of_result r s'.

Definition batchUpdateMatrices (matrixUpdates : list jsval) : step unit :=
  λ s, let '(r, s') := Storage.batchUpdateMatrices s matrixUpdates in
       (match r with
        | Storage.Resolves => inl tt
        | Storage.Rejects e => inr (Rejected e)
        | Storage.RejectsInvalidAccess => inr RejectedInvalidAccess
        end, s').

Definition getEntitiesInBounds (b : Storage.bounds) (windowUID : jsval)
  : step Storage.entities :=
  λ s, of_result (Storage.getEntitiesInBounds s b windowUID) s.

Definition buildSpatialIndex (windowUID : jsval) (binSize : num)
  : step Storage.spatialIndex :=
  λ s, of_result (Storage.buildSpatialIndex s windowUID binSize) s.

Definition number (z : Z) : jsval := JNum (Fin z).

Definition numbers (l : list Z) : jsval := JArr (map number l).

Section Main.

Variable interpolate : jsval → jsval → jsval → jsval → jsval → result jsval.

(** The number 0.5, the weight of the sample SubcubeVertex: the integer
    model has no such number, and the script is modelled for whatever value
    stands in its place. *)
Variable half : jsval.

(** Lines 55 and 56, [new Renderer()] and [renderMiniMap(bins, 100, 100)] of
    [rendering.js], work on three.js and the DOM: of them the model keeps
    whether they return for the bins. *)
Variable renderMiniMap : Painter.Map → bool.

(** [main()] on a new [CubeStorage] object; the output of [console.log] is
    not modelled. *)
Definition main : step unit :=
  let! _ := init in
  let vertex1 :=
    Models.CubeVertex (JStr "1vrtx0") (number 1) (numbers [-75; -75; -75])
      (numbers [255; 0; 0]) (JStr "blendBackground") in
  let vertex2 :=
    Models.CubeVertex (JStr "1vrtx1") (number 1) (numbers [75; -75; -75])
      (numbers [0; 255; 0]) (JStr "blendBackground") in
  let! cube :=
    of_result (Models.Cube (number 1) (number 1) (numbers [0; 0; 0])
                 (JArr [JStr "AA"]) [vertex1; vertex2] (JStr "blendBackground")) in
  let! subcubeVertex :=
    of_result (Models.SubcubeVertex (JStr "AAv0") (number 1) (number 1)
                 (JStr "AA") (JStr "11")
                 (JArr [numbers [0; 255; 0]; numbers [0; 0; 0]; half;
                        JStr "weightedSphere"])
                 (number 1)) in
  let subcube :=
    Models.Subcube (JStr "AA") (number 1) (numbers [0; 0; 0]) (number 0)
      (JArr [JArr [JStr "AAv0"; JStr "BlendCornerByProximity"]]) (number 1)
      (JStr "11") (JStr "BlendCornerByProximity") in
  let! cube := save cube "Cubes" in
  let! vertex1 := save vertex1 "CubeVertices" in
  let! vertex2 := save vertex2 "CubeVertices" in
  let! subcube := save subcube "Subcubes" in
  let! subcubeVertex := save subcubeVertex "SubcubeVertices" in
  let cubeData :=
    {| Storage.CubeData.cube := cube;
       Storage.CubeData.subcubes := Some [subcube];
       Storage.CubeData.subcubeVertices := Some [subcubeVertex];
       Storage.CubeData.cubeVertices := Some [vertex1; vertex2] |} in
  let! _ := updateCubeHierarchy cubeData in
  let matrixUpdates :=
    [JObj [("type", JStr "CubeMatrix");
           ("matrix",
            JObj [("id", number 1); ("windowUID", number 1);
                  ("redLayer", JArr [numbers [0; 255]]);
                  ("greenLayer", JArr [numbers [0; 0]]);
                  ("blueLayer", JArr [numbers [255; 0]]);
                  ("binData",
                   JArr [JObj [("row", number 0); ("col", number 0);
                               ("depth", number 0);
                               ("value", numbers [0; 0; 0])]])])];
     JObj [("type", JStr "BackgroundMatrix");
           ("matrix",
            JObj [("id", number 1); ("windowUID", number 1);
                  ("ambientValue", numbers [10; 10; 10]);
                  ("redLayer", JArr [numbers [10; 20]]);
                  ("greenLayer", JArr [numbers [50; 60]]);
                  ("blueLayer", JArr [numbers [90; 100]]);
                  ("binData",
                   JArr [JObj [("row", number 0); ("col", number 0);
                               ("depth", number 1);
                               ("value", numbers [10; 10; 10])]]);
                  ("blendingLogicId", JStr "blendBackground")])]] in
  let! _ := batchUpdateMatrices matrixUpdates in
  let bounds :=
    {| Storage.min := (Fin (-100), Fin (-100), Fin (-100));
       Storage.max := (Fin 100, Fin 100, Fin 100) |} in
  let! entities := getEntitiesInBounds bounds (number 1) in
  let! spatialIndex := buildSpatialIndex (number 1) (Fin 50) in
  let! nearEntities :=
    of_outcome (Storage.queryNearPosition spatialIndex (numbers [0; 0; 0])
                  (Fin 100)) in
  let! bins :=
    of_result (Painter.createBins interpolate Painter.new [cube; subcube] false) in
  if renderMiniMap bins then finish Fulfilled else finish RejectedByRenderer.

End Main.

End Main.

(** * Vocabulary of the properties *)

(** The absolute value of a number. *)
Definition num_abs (a : num) : num :=
  match a with
  | NaN => NaN
  | NInf | PInf => PInf
  | Fin z => Fin (Z.abs z)
  end.

(** A numeric color array. *)
Definition rgb (r g b : num) : jsval := JArr [JNum r; JNum g; JNum b].

(** An integer of magnitude at most [2^51]: three of them are added without
    rounding. *)
Definition addend (z : Z) : Prop := Z.abs z ≤ 2 ^ 51.

Definition int (z : Z) : jsval := JNum (Fin z).

(** A storage object on which [init] has completed, with an empty database. *)
Definition fresh : Storage.CubeStorage :=
  Storage.init {| Storage.db := false; Storage.data := ∅ |}.

(** The value of the key property of a record of a store. *)
Definition key_value (storeName : string) (e : jsval) : option jsval :=
  Storage.keyPath_of storeName ≫= λ kp,
    Storage.eval_path (Storage.split_path kp "") e.

Definition key_of (storeName : string) (e : jsval) : option Storage.idbkey :=
  key_value storeName e ≫= Storage.to_key.

Definition is_vertex_store (storeName : string) : bool :=
  String.eqb storeName "CubeVertices" || String.eqb storeName "SubcubeVertices".

Definition sample_vertex1 : jsval :=
  Models.CubeVertex (JStr "1vrtx0") (int 1) (rgb (Fin (-75)) (Fin (-75)) (Fin (-75)))
    (rgb (Fin 255) (Fin 0) (Fin 0)) (JStr "blendBackground").

Definition sample_vertex2 : jsval :=
  Models.CubeVertex (JStr "1vrtx1") (int 1) (rgb (Fin 75) (Fin (-75)) (Fin (-75)))
    (rgb (Fin 0) (Fin 255) (Fin 0)) (JStr "blendBackground").

(** [new Cube(1, 1, [0,0,0], ["AA"], [vertex1, vertex2], "blendBackground")] *)
Definition sample_cube : jsval :=
  JObj [("id", int 1);
        ("windowUID", int 1);
        ("value",
         JArr [rgb (Fin 0) (Fin 0) (Fin 0);
               JArr [JStr "AA"];
               JArr [JArr [rgb (Fin (-75)) (Fin (-75)) (Fin (-75));
                           rgb (Fin 255) (Fin 0) (Fin 0)];
                     JArr [rgb (Fin 75) (Fin (-75)) (Fin (-75));
                           rgb (Fin 0) (Fin 255) (Fin 0)]]]);
        ("blendingLogicId", JStr "blendBackground")].

(** [new SubcubeVertex("AAv0", 1, 1, "AA", originID, [[0,255,0],[0,0,0],1,
    "weightedSphere"], 1)] *)
Definition sample_subcubeVertex (originID : string) : jsval :=
  JObj [("id", JStr "AAv0");
        ("windowUID", int 1);
        ("cubeId", int 1);
        ("subCubeID", JStr "AA");
        ("originID", JStr originID);
        ("value", JArr [rgb (Fin 0) (Fin 255) (Fin 0); rgb (Fin 0) (Fin 0) (Fin 0);
                        int 1; JStr "weightedSphere"]);
        ("activeWindowUID", int 1);
        ("proximityPadding", int 1)].

Definition sample_subcube : jsval :=
  Models.Subcube (JStr "AA") (int 1) (rgb (Fin 0) (Fin 0) (Fin 0)) (int 0)
    (JArr [JArr [JStr "AAv0"; JStr "BlendCornerByProximity"]]) (int 1) (JStr "11")
    (JStr "BlendCornerByProximity").

(** A vertex record in the layout that [validateEntity] accepts. *)
Definition sample_valid_vertex (weight : Z) : jsval :=
  JObj [("id", JStr "v0");
        ("windowUID", int 1);
        ("cubeId", int 1);
        ("originID", JStr "11");
        ("valueArray", JArr [rgb (Fin 0) (Fin 255) (Fin 0);
                             rgb (Fin 0) (Fin 0) (Fin 0);
                             int weight; JStr "blendBackground"]);
        ("proximityPadding", int 77)].

(** [e.originID] is the string [`${e.windowUID}${e.cubeId}`]. *)
Definition originID_matches (e : jsval) : Prop :=
  ∃ windowUID cubeId,
    JS.get_prop e "windowUID" = Ok windowUID
    ∧ JS.get_prop e "cubeId" = Ok cubeId
    ∧ JS.get_prop e "originID"
      = Ok (JStr (JS.ToString windowUID +:+ JS.ToString cubeId)).

(** The text that the model gives [v] in a template literal is the text of
    the program: the numbers in [v] are integers below [2^53] in magnitude,
    infinite or NaN (see [JS.num_to_string]). *)
Fixpoint printable (v : jsval) : bool :=
  match v with
  | JNum (Fin z) => Z.abs z <? 2 ^ 53
  | JArr l => forallb printable l
  | _ => true
  end.

(** The [windowUID] and the [cubeId] of [e] are [printable]. *)
Definition ids_printable (e : jsval) : Prop :=
  ∀ name v,
    name = "windowUID" ∨ name = "cubeId" →
    JS.get_prop e name = Ok v → printable v = true.

(** The record under key [k] of store [storeName] after the requests,
    starting from [before]: the last request for that store and key wins. *)
Fixpoint written (requests : list (string * jsval)) (storeName : string)
    (k : gen_tree (num + string)) (before : option jsval) : option jsval :=
  match requests with
  | [] => before
  | (name, e) :: rest =>
      written rest storeName k
        (if decide (name = storeName ∧ key_of name e = Some k)
         then Some e else before)
  end.

(** The store and key that a request writes. *)
Definition target (r : string * jsval) : string * option (gen_tree (num + string)) :=
  (r.1, key_of r.1 r.2).

(** The bundle of [main.js]: the cube and its SubcubeVertex. *)
Definition sample_bundle : Storage.CubeData.t :=
  {| Storage.CubeData.cube := sample_cube;
     Storage.CubeData.subcubes := Some [];
     Storage.CubeData.subcubeVertices := Some [sample_subcubeVertex "11"];
     Storage.CubeData.cubeVertices := None |}.

(** An item with one nested vertex [{valueArray: [color, position, weight,
    logic]}]. *)
Definition sample_item (logic : string) : jsval :=
  JObj [("value",
         JArr [rgb (Fin 0) (Fin 0) (Fin 0); JArr [];
               JArr [JObj [("valueArray",
                            JArr [rgb (Fin 1) (Fin 2) (Fin 3);
                                  rgb (Fin 15) (Fin 25) (Fin 35);
                                  int 1; JStr logic])]]])].

(** The integer coordinates of a position, when it has three finite ones. *)
Definition coordinates (pos : jsval) : option (Z * Z * Z) :=
  match JS.get_index pos 0, JS.get_index pos 1, JS.get_index pos 2 with
  | Ok v0, Ok v1, Ok v2 =>
      match JS.ToNumber v0, JS.ToNumber v1, JS.ToNumber v2 with
      | Fin q0, Fin q1, Fin q2 => Some (q0, q1, q2)
      | _, _, _ => None
      end
  | _, _, _ => None
  end.




Definition point (p : Z * Z * Z) : jsval :=
  let '(p0, p1, p2) := p in JArr [int p0; int p1; int p2].

(** [e] is in the list [sl] of some bin. *)
Definition indexed (bins : gmap string Storage.entities) (sl : Storage.slot)
    (e : jsval) : Prop :=
  ∃ key bin, bins !! key = Some bin ∧ e ∈ Storage.slot_of sl bin.

(** Every entity sits in the bin that is named after the cell of its
    position. *)
Definition bins_inv (binSize : num) (bins : gmap string Storage.entities) : Prop :=
  ∀ key bin sl e,
    bins !! key = Some bin → e ∈ Storage.slot_of sl bin →
    ∃ pos coords,
      Storage.position_of sl e = Ok pos
      ∧ Storage.getBinCoords binSize pos = Ok coords
      ∧ Storage.getBinKey coords = key.



Definition sample_subcube_at (id : string) (x y z : Z) : jsval :=
  Models.Subcube (JStr id) (int 1) (rgb (Fin x) (Fin y) (Fin z)) (int 0)
    (JArr [JArr [JStr "v0"; JStr "blendBackground"]]) (int 1) (JStr "11")
    (JStr "blendBackground").

(** Window 1 with subcubes centred at [[0,0,0]], [[10,0,0]] and
    [[60,60,60]]. *)
Definition sample_storage : Storage.CubeStorage :=
  let s1 := (Storage.save fresh (sample_subcube_at "A" 0 0 0) "Subcubes").2 in
  let s2 := (Storage.save s1 (sample_subcube_at "B" 10 0 0) "Subcubes").2 in
  (Storage.save s2 (sample_subcube_at "C" 60 60 60) "Subcubes").2.

Definition index_or_empty (r : result Storage.spatialIndex) : Storage.spatialIndex :=
  match r with
  | Ok idx => idx
  | Throw _ => {| Storage.binSize := NaN; Storage.bins := ∅ |}
  end.

Definition sample_index (binSize : Z) : Storage.spatialIndex :=
  index_or_empty (Storage.buildSpatialIndex sample_storage (int 1) (Fin binSize)).

(** A storage object before [init], on a database that holds nothing. *)
Definition unopened : Storage.CubeStorage :=
  {| Storage.db := false; Storage.data := ∅ |}.

(** Every record is filed under the key that the key path of its store
    selects in it. *)
Definition well_keyed (d : gmap string (gmap (gen_tree (num + string)) jsval))
  : Prop :=
  ∀ storeName k e,
    Storage.records d storeName !! k = Some e → key_of storeName e = Some k.

(** The calls of a [CubeStorage] object that change it or its database. *)
Inductive operation :=
  | Init
  | Close
  | Save (entity : jsval) (storeName : string)
  | UpdateCubeHierarchy (cubeData : Storage.CubeData.t)
  | BatchUpdateMatrices (matrixUpdates : list jsval).

Definition perform (s : Storage.CubeStorage) (op : operation)
  : Storage.CubeStorage :=
  match op with
  | Init => Storage.init s
  | Close => Storage.close s
  | Save entity storeName => (Storage.save s entity storeName).2
  | UpdateCubeHierarchy cubeData => (Storage.updateCubeHierarchy s cubeData).2
  | BatchUpdateMatrices matrixUpdates =>
      (Storage.batchUpdateMatrices s matrixUpdates).2
  end.

(** The storage after a history of calls on a new database. *)
Definition run (history : list operation) : Storage.CubeStorage :=
  foldl perform unopened history.

(** The object store that [getEntitiesInBounds] reads for each list. *)
Definition store_of (sl : Storage.slot) : string :=
  match sl with
  | Storage.Cubes => "Cubes"
  | Storage.Subcubes => "Subcubes"
  | Storage.SubcubeVertices => "SubcubeVertices"
  end.

(** The record [e] is in the store [storeName] and belongs to the window
    whose key is [kw]: its [windowUID] is that key. *)
Definition in_window (s : Storage.CubeStorage) (storeName : string)
    (kw : gen_tree (num + string)) (e : jsval) : Prop :=
  (∃ k, Storage.records (Storage.data s) storeName !! k = Some e)
  ∧ ∃ w, JS.get_prop e "windowUID" = Ok w ∧ Storage.to_key w = Some kw.

(** The closed box with integer corners. *)
Definition box (lo hi : Z * Z * Z) : Storage.bounds :=
  let '(l0, l1, l2) := lo in
  let '(h0, h1, h2) := hi in
  {| Storage.min := (Fin l0, Fin l1, Fin l2);
     Storage.max := (Fin h0, Fin h1, Fin h2) |}.

Definition in_box (lo hi q : Z * Z * Z) : Prop :=
  let '(l0, l1, l2) := lo in
  let '(h0, h1, h2) := hi in
  let '(q0, q1, q2) := q in
  l0 ≤ q0 ≤ h0 ∧ l1 ≤ q1 ≤ h1 ∧ l2 ≤ q2 ≤ h2.

(** A coordinate that the model reads as the program does, and that is
    bounded by [B] when it is finite: undefined, null, a boolean or a number
    that is NaN, infinite or an integer of magnitude at most [B].  (Strings,
    arrays and objects are left out: they are read through
    [JS.StringToNumber].) *)
Definition coordinate_within (B : Z) (v : jsval) : bool :=
  match v with
  | JNum (Fin z) => Z.abs z <=? B
  | JStr _ | JArr _ | JObj _ => false
  | _ => true
  end.

Definition position_within (B : Z) (pos : jsval) : bool :=
  match JS.get_index pos 0, JS.get_index pos 1, JS.get_index pos 2 with
  | Ok v0, Ok v1, Ok v2 =>
      coordinate_within B v0 && coordinate_within B v1 && coordinate_within B v2
  | _, _, _ => true
  end.

(** The position of [e], if [e] has one, has its coordinates within [B]. *)
Definition entity_within (B : Z) (sl : Storage.slot) (e : jsval) : bool :=
  match Storage.position_of sl e with
  | Ok pos => position_within B pos
  | Throw _ => true
  end.

(** Every record of the three stores of positioned entities has its
    coordinates within [B]. *)
Definition positions_within (B : Z) (s : Storage.CubeStorage) : bool :=
  forallb
    (λ sl, forallb (entity_within B sl)
             (map_to_list (Storage.records (Storage.data s) (store_of sl))).*2)
    [Storage.Cubes; Storage.Subcubes; Storage.SubcubeVertices].

(** An integer of magnitude at most [2^24]: the squared distance of two
    points with such coordinates is below [2^52], and is computed without
    rounding. *)
Definition small (z : Z) : Prop := Z.abs z ≤ 2 ^ 24.


(** The entity has no position to read coordinates from: the place where
    its list keeps the position is missing, undefined or null. *)
Definition positionless (sl : Storage.slot) (e : jsval) : Prop :=
  match Storage.position_of sl e with
  | Ok pos => pos = JUndef ∨ pos = JNull
  | Throw _ => True
  end.

Definition entities_or_none (r : result Storage.entities) : Storage.entities :=
  match r with
  | Ok ents => ents
  | Throw _ => Storage.no_entities
  end.

(** The three matrix stores. *)
Definition matrix_stores : list string :=
  ["CubeMatrix"; "SubcubeMatrix"; "BackgroundMatrix"].



(** [item] is an object built by [new Subcube(...)]. *)
Definition is_model_Subcube (item : jsval) : Prop :=
  ∃ id windowUID center order vertexArray cubeId originID blendingLogicId,
    item = Models.Subcube id windowUID center order vertexArray cubeId originID
             blendingLogicId.

(** [item] is an object built by [new Cube(...)] from a list of vertices that
    starts with an object built by [new CubeVertex(...)]. *)
Definition is_model_Cube (item : jsval) : Prop :=
  ∃ id windowUID position subcubeIDs blendingLogicId
    vertexID vertexWindowUID vertexPosition color logic vertices,
    Models.Cube id windowUID position subcubeIDs
      (Models.CubeVertex vertexID vertexWindowUID vertexPosition color logic
       :: vertices)
      blendingLogicId
    = Ok item.

(** A vertex in the form [{valueArray: [color, position, weight, logic]}]. *)
Definition flat_vertex (color position weight logic : jsval) : jsval :=
  JObj [("valueArray", JArr [color; position; weight; logic])].

(** An item with the nested vertices [vertices]. *)
Definition item_of (vertices : list jsval) : jsval :=
  JObj [("value", JArr [rgb (Fin 0) (Fin 0) (Fin 0); JArr []; JArr vertices])].

(** An integer of magnitude below [2^52]: for two such integers [a] and
    [b], [|a| + |b| < 2^53], and the program rounds [a / b] into the cell of
    the exact quotient (see [floor_div]). *)
Definition medium (z : Z) : Prop := Z.abs z < 2 ^ 52.

(** The cell [c] of bins of size [b] holds the coordinate [x]: cells are
    half-open intervals, closed towards minus infinity for a positive size
    and towards plus infinity for a negative one. *)
Definition in_cell (b c x : Z) : Prop :=
  (0 < b ∧ b * c ≤ x < b * (c + 1)) ∨ (b < 0 ∧ b * (c + 1) < x ≤ b * c).

(** Every character of [s] satisfies [P]. *)
Fixpoint string_forall (P : ascii → bool) (s : string) : bool :=
  match s with
  | EmptyString => true
  | String c s' => P c && string_forall P s'
  end.

(** A decimal digit or the minus sign. *)
Definition numeric_char (c : ascii) : bool :=
  let n := nat_of_ascii c in
  (Nat.leb 48 n && Nat.leb n 57) || Nat.eqb n 45.

Definition not_comma (c : ascii) : bool := negb (Ascii.eqb c ",").

(** The key of the bin of a vertex at [xyz]: [row,col] from the first two
    coordinates, and [row,col,depthBin] for a background. *)
Definition bin_key (p : Painter.Painter) (isBackground : bool) (xyz : list jsval)
  : string :=
  let row := floor_div (JS.ToNumber (nth 0 xyz JUndef)) (Painter.binSize p) in
  let col := floor_div (JS.ToNumber (nth 1 xyz JUndef)) (Painter.binSize p) in
  let depthBin := floor_div (JS.ToNumber (nth 2 xyz JUndef)) (Painter.binSize p) in
  if isBackground
  then JS.num_to_string row +:+ "," +:+ JS.num_to_string col +:+ ","
         +:+ JS.num_to_string depthBin
  else JS.num_to_string row +:+ "," +:+ JS.num_to_string col.

(** [vertex] is a vertex of the data, at [xyz]. *)
Definition vertex_at (data : list jsval) (vertex : jsval) (xyz : list jsval)
  : Prop :=
  ∃ item vertices position,
    item ∈ data
    ∧ Painter.vertices_of item = Ok vertices
    ∧ vertex ∈ vertices
    ∧ Painter.part vertex 1 = Ok position
    ∧ JS.iterate position = Ok xyz.

(** * Properties *)

(** [case_bind m as x H]: in a goal that comes from [let* x := m in ...]
    being [Ok], name the value of [m]; the throwing case is closed. *)
Tactic Notation "case_bind" constr(m) "as" ident(x) ident(H) :=
  destruct m as [x|] eqn:H; cbn [rbind]; [|done].

(** ** The embedding at work *)

Example ToString_array :
  JS.ToString (JArr [int 1; JNull; JArr [int 2; int (-3)]; JStr "x"]) = "1,,2,-3,x".
Proof. reflexivity. Qed.

Example ToNumber_strings :
  JS.ToNumber (JStr " 42 ") = Fin 42
  ∧ JS.ToNumber (JStr "") = Fin 0
  ∧ JS.ToNumber (JStr "4x") = NaN
  ∧ JS.ToNumber (JArr [int 7]) = Fin 7
  ∧ JS.ToNumber JUndef = NaN.
Proof. repeat split. Qed.

Example validateOriginID_sample :
  Storage.validateOriginID (JStr "11") (int 1) (int 1) = Ok true
  ∧ Storage.validateOriginID (int 11) (int 1) (int 1)
    = Throw (InvalidOriginID "11" "11").
Proof. split; reflexivity. Qed.

Example getBinKey_sample :
  Storage.getBinCoords (Fin 50) (rgb (Fin 60) (Fin (-1)) (Fin 0))
  = Ok (Fin 1, Fin (-1), Fin 0)
  ∧ Storage.getBinKey (Fin 1, Fin (-1), Fin 0) = "1,-1,0".
Proof. split; reflexivity. Qed.

(** [createBins] on one item with one vertex of color [[1,2,3]] at
    [[15,25,35]], blended by [blendBackground] over the ambient value. *)
Example createBins_sample interpolate :
  Painter.createBins interpolate Painter.new [sample_item "blendBackground"] false
  = Ok [("1,2", {| Painter.color := rgb (Fin 21) (Fin 22) (Fin 23);
                   Painter.active := true;
                   Painter.depth := int 35 |})].
Proof. reflexivity. Qed.

(** The model classes of [main.js] do not produce what [validateEntity]
    expects of a vertex: a [CubeVertex] carries a two-element [valueArray]. *)
Example save_sample_vertex :
  Storage.save fresh sample_vertex1 "CubeVertices" = (Throw InvalidValueArray, fresh).
Proof. reflexivity. Qed.

(** ** Numbers *)

Lemma num_min_Fin (x y : Z) : num_min (Fin x) (Fin y) = Fin (Z.min x y).
Proof.
  unfold num_min, num_le.
  destruct (Z.leb_spec x y); f_equal; lia.
Qed.

Lemma ternary_abs (w : num) :
  w ≠ NaN → (if num_le (Fin 0) w then JNum w else JNum (num_neg w)) = JNum (num_abs w).
Proof.
  destruct w as [| |z|]; simpl; try done.
  intros _. destruct (Z.leb_spec 0 z); f_equal; f_equal; lia.
Qed.

Lemma num_le_refl a : a ≠ NaN → num_le a a = true.
Proof. destruct a; simpl; try done. intros _. lia. Qed.

Lemma num_le_trans a b c :
  num_le a b = true → num_le b c = true → num_le a c = true.
Proof.
  destruct a, b, c; simpl; try done. rewrite !Z.leb_le. lia.
Qed.

Lemma num_le_not_NaN a b : num_le a b = true → a ≠ NaN ∧ b ≠ NaN.
Proof. by destruct a, b. Qed.

Lemma num_max_upper a b :
  num_max a b ≠ NaN →
  num_le a (num_max a b) = true ∧ num_le b (num_max a b) = true.
Proof.
  destruct a as [| |x|], b as [| |y|]; simpl; try done; intros _.
  - split; [done|]. lia.
  - split; [|done]. lia.
  - destruct (Z.leb_spec x y); simpl; rewrite !Z.leb_le; lia.
Qed.

Lemma num_le_succ a m : num_le a m = true → num_le a (num_add m (Fin 1)) = true.
Proof.
  destruct a, m; simpl; try done. rewrite !Z.leb_le. lia.
Qed.

(** ** The blend strategies *)

(** C7: on numeric colors [blendBackground] adds the three contributions
    channel by channel and clamps each sum at 255: for integer channels of
    magnitude at most [2^51] (no sum of the program is rounded then: each is a
    [safe_integer]) the result is [min(255, base[i] + incoming[i] +
    ambient[i])]; in particular
    [blendBackground([10,10,10], [250,250,10], {ambient: [10,10,10]})] is
    [[255,255,30]]. *)
Theorem blendBackground_clamped_sum :
  (∀ b0 b1 b2 i0 i1 i2 a0 a1 a2 : Z,
     Forall addend [b0; b1; b2; i0; i1; i2; a0; a1; a2] →
     Utils.blendBackground (rgb (Fin b0) (Fin b1) (Fin b2))
       (rgb (Fin i0) (Fin i1) (Fin i2))
       (JObj [("ambient", rgb (Fin a0) (Fin a1) (Fin a2))])
     = Ok (rgb (Fin (Z.min 255 (b0 + i0 + a0)))
               (Fin (Z.min 255 (b1 + i1 + a1)))
               (Fin (Z.min 255 (b2 + i2 + a2))))
     ∧ Forall safe_integer
         [b0 + i0; b0 + i0 + a0; b1 + i1; b1 + i1 + a1; b2 + i2; b2 + i2 + a2])
  ∧ Utils.blendBackground (rgb (Fin 10) (Fin 10) (Fin 10))
       (rgb (Fin 250) (Fin 250) (Fin 10))
       (JObj [("ambient", rgb (Fin 10) (Fin 10) (Fin 10))])
     = Ok (rgb (Fin 255) (Fin 255) (Fin 30)).
Proof.
  split; [|reflexivity].
  intros b0 b1 b2 i0 i1 i2 a0 a1 a2 Hb. split.
  - rewrite <- !num_min_Fin. reflexivity.
  - repeat apply Forall_cons_1 in Hb as [? Hb]. unfold addend in *.
    repeat constructor; unfold safe_integer; lia.
Qed.

Lemma blendBackground_clamped_sum_witness :
  Utils.blendBackground (rgb (Fin 200) (Fin 0) (Fin (-5)))
    (rgb (Fin 100) (Fin 20) (Fin 5))
    (JObj [("ambient", rgb (Fin 0) (Fin 0) (Fin (-1)))])
  = Ok (rgb (Fin 255) (Fin 20) (Fin (-1)))
  ∧ Forall safe_integer [300; 300; 20; 20; 0; -1].
Proof.
  apply (proj1 blendBackground_clamped_sum 200 0 (-5) 100 20 5 0 0 (-1)).
  repeat constructor; unfold addend; lia.
Defined.

Section BlendStrategies.

(** The arithmetic of the unreachable lines of [BlendCornerByProximity]:
    nothing below depends on it. *)
Variable interpolate : jsval → jsval → jsval → jsval → jsval → result jsval.

(** Every call of [BlendCornerByProximity] throws: reading its parameters
    fails, or reading [distanceToSubject] does. *)
Lemma BlendCornerByProximity_throws color1 color2 params :
  Utils.BlendCornerByProximity interpolate color1 color2 params = Throw TypeError
  ∨ Utils.BlendCornerByProximity interpolate color1 color2 params
    = Throw (ReferenceError "distanceToSubject").
Proof.
  unfold Utils.BlendCornerByProximity.
  destruct (JS.get_prop params "weight") as [w|e] eqn:Hw; simpl.
  - destruct (JS.get_prop params "ambient") as [a|e] eqn:Ha; simpl.
    + by right.
    + destruct params; simpl in *; try discriminate; simplify_eq; by left.
  - destruct params; simpl in *; try discriminate; simplify_eq; by left.
Qed.

Lemma BlendCornerByProximity_object color1 color2 fields :
  Utils.BlendCornerByProximity interpolate color1 color2 (JObj fields)
  = Throw (ReferenceError "distanceToSubject").
Proof. reflexivity. Qed.

(** An identifier that names neither a strategy nor a member of
    [Object.prototype] is blended by [blendBackground]. *)
Lemma blend_falls_back p color1 color2 weight (ident : string) :
  Utils.blendingFunctions ident = None →
  Painter.blend interpolate p color1 color2
    (JObj [("weight", weight); ("proximity", JStr ident)])
  = Utils.blendBackground color1 color2
      (JObj [("weight", weight); ("ambient", Painter.ambientValue p)]).
Proof.
  intros H. unfold Painter.blend; simpl. by rewrite H.
Qed.

(** C8: the identifier [toString] is none of the three strategy names, yet
    [Painter.blend] does not blend it with [blendBackground]: the lookup in
    [blendingFunctions] finds the inherited [Object.prototype.toString], whose
    result becomes the color; for [hasOwnProperty] the inherited member
    throws. *)
Theorem blend_inherited_member :
  let base := rgb (Fin 10) (Fin 10) (Fin 10) in
  let incoming := rgb (Fin 250) (Fin 250) (Fin 10) in
  let params (ident : string) :=
    JObj [("weight", int 1); ("proximity", JStr ident)] in
  Painter.blend interpolate Painter.new base incoming (params "toString")
    = Ok (JStr "[object Undefined]")
  ∧ Painter.blend interpolate Painter.new base incoming (params "hasOwnProperty")
    = Throw TypeError
  ∧ Utils.blendBackground base incoming
      (JObj [("weight", int 1); ("ambient", Painter.ambientValue Painter.new)])
    = Ok (rgb (Fin 255) (Fin 255) (Fin 30)).
Proof. repeat split. Qed.

End BlendStrategies.

(** ** Objects and keys *)

Lemma assoc_set_eq name v fs : JS.assoc name (JS.assoc_set name v fs) = Some v.
Proof.
  induction fs as [|[k w] fs IH]; simpl.
  - by rewrite String.eqb_refl.
  - destruct (String.eqb_spec k name) as [->|Hne]; simpl.
    + by rewrite String.eqb_refl.
    + by destruct (String.eqb_spec k name).
Qed.

Lemma assoc_set_ne name name' v fs :
  name ≠ name' → JS.assoc name' (JS.assoc_set name v fs) = JS.assoc name' fs.
Proof.
  intros Hne. induction fs as [|[k w] fs IH]; simpl.
  - by destruct (String.eqb_spec name name').
  - destruct (String.eqb_spec k name) as [->|Hk]; simpl.
    + by destruct (String.eqb_spec name name').
    + by rewrite IH.
Qed.

Lemma get_prop_set_prop_ne e name name' v :
  name ≠ name' → JS.get_prop (JS.set_prop e name v) name' = JS.get_prop e name'.
Proof.
  intros Hne. destruct e; simpl; try done. by rewrite assoc_set_ne.
Qed.

Lemma get_prop_set_prop_eq fs name v :
  JS.get_prop (JS.set_prop (JObj fs) name v) name = Ok v.
Proof. simpl. by rewrite assoc_set_eq. Qed.

Lemma keyPath_cases storeName kp :
  Storage.keyPath_of storeName = Some kp →
  kp = "id" ∨ kp = "vertexID" ∨ kp = "logicId".
Proof.
  unfold Storage.keyPath_of, Storage.schema, Storage.lookup_name.
  repeat (destruct (String.eqb _ storeName); [intros [= <-]; auto|]). done.
Qed.

Lemma key_value_set_padding storeName e v :
  key_value storeName (JS.set_prop e "proximityPadding" v) = key_value storeName e.
Proof.
  unfold key_value.
  destruct (Storage.keyPath_of storeName) as [kp|] eqn:Hkp; simpl; [|done].
  apply keyPath_cases in Hkp as [-> | [-> | ->]]; destruct e; simpl; try done;
    by rewrite assoc_set_ne.
Qed.

Lemma key_value_get_prop storeName kp e kv :
  Storage.keyPath_of storeName = Some kp →
  key_value storeName e = Some kv →
  JS.get_prop e kp = Ok kv.
Proof.
  intros Hkp. unfold key_value. rewrite Hkp; simpl.
  apply keyPath_cases in Hkp as [-> | [-> | ->]]; destruct e; simpl; try done;
    by destruct (JS.assoc _ _); simpl; intros [= ->].
Qed.

Lemma put_Ok d storeName e d' :
  Storage.put d storeName e = Ok d' →
  ∃ k, key_of storeName e = Some k
       ∧ d' = <[storeName := <[k := e]> (Storage.records d storeName)]> d.
Proof.
  unfold Storage.put, key_of, key_value, Storage.extract_key.
  destruct (Storage.keyPath_of storeName) as [kp|]; simpl; [|done].
  destruct (Storage.eval_path _ e ≫= Storage.to_key) as [k|]; [|done].
  intros [= <-]. eauto.
Qed.

Lemma put_key d storeName e k :
  key_of storeName e = Some k →
  Storage.put d storeName e
  = Ok (<[storeName := <[k := e]> (Storage.records d storeName)]> d).
Proof.
  unfold Storage.put, key_of, key_value, Storage.extract_key.
  destruct (Storage.keyPath_of storeName) as [kp|]; simpl; [|done].
  by intros ->.
Qed.

Lemma records_insert_eq d storeName m :
  Storage.records (<[storeName := m]> d) storeName = m.
Proof. unfold Storage.records. by rewrite lookup_insert_eq. Qed.

Lemma records_insert_ne d storeName storeName' m :
  storeName ≠ storeName' →
  Storage.records (<[storeName := m]> d) storeName' = Storage.records d storeName'.
Proof. intros. unfold Storage.records. by rewrite lookup_insert_ne. Qed.

Lemma get_opened s kv storeName k :
  Storage.db s = true →
  is_Some (Storage.keyPath_of storeName) →
  Storage.to_key kv = Some k →
  Storage.get s kv storeName
  = Ok (default JUndef (Storage.records (Storage.data s) storeName !! k)).
Proof.
  intros Hdb [kp Hkp] Hk. unfold Storage.get. by rewrite Hdb, Hkp, Hk.
Qed.

(** ** Validation *)

Lemma validate_vertex e storeName e' :
  is_vertex_store storeName = true →
  Storage.validate e storeName = Ok e' →
  ∃ fs color position w proximity,
    e = JObj fs
    ∧ JS.get_prop e "valueArray"
      = Ok (JArr [color; position; JNum w; JStr proximity])
    ∧ w ≠ NaN
    ∧ e' = JS.set_prop e "proximityPadding" (JNum (num_abs w)).
Proof.
  unfold is_vertex_store, Storage.validate. intros -> Hv.
  destruct e as [| | | | | |fs]; try done.
  cbn -[Storage.color_out_of_range JS.is_array_of_length num_le] in Hv.
  destruct (JS.assoc "valueArray" fs) as [va|] eqn:Hva; [|done].
  cbn -[Storage.color_out_of_range JS.is_array_of_length num_le] in Hv.
  destruct va as [| | | | |va|]; try done.
  destruct va as [|color [|position [|weight [|proximity [|]]]]]; try done.
  destruct color as [| | | | |[|c0 [|c1 [|c2 [|]]]]|]; try done.
  destruct (Storage.color_out_of_range [c0; c1; c2]); [done|].
  destruct (negb (JS.is_array_of_length position 3)); [done|].
  destruct weight as [| | |w| | |]; try done.
  assert (w ≠ NaN) as Hw by (by destruct w).
  destruct proximity as [| | | |prox| |]; try (by destruct w).
  exists fs, (JArr [c0; c1; c2]), position, w, prox.
  split; [done|]. split; [simpl; by rewrite Hva|]. split; [done|].
  rewrite <- (ternary_abs w Hw). by destruct w; simplify_eq.
Qed.

Lemma validate_other e storeName e' :
  is_vertex_store storeName = false →
  Storage.validate e storeName = Ok e' → e' = e.
Proof.
  unfold is_vertex_store, Storage.validate, rbind. intros -> Hv.
  repeat case_match; by simplify_eq.
Qed.

Lemma validate_key_value e storeName e' :
  Storage.validate e storeName = Ok e' →
  key_value storeName e' = key_value storeName e.
Proof.
  intros Hv. destruct (is_vertex_store storeName) eqn:Hs.
  - apply validate_vertex in Hv as (?&?&?&?&?&?&?&?&->); [|done].
    apply key_value_set_padding.
  - by apply validate_other in Hv as ->.
Qed.

(** [validateEntity] changes no property but [proximityPadding]. *)
Lemma validate_props e storeName e' name :
  Storage.validate e storeName = Ok e' →
  name ≠ "proximityPadding" →
  JS.get_prop e' name = JS.get_prop e name.
Proof.
  intros Hv Hne. destruct (is_vertex_store storeName) eqn:Hs.
  - apply validate_vertex in Hv as (?&?&?&?&?&?&?&?&->); [|done].
    by apply get_prop_set_prop_ne.
  - by apply validate_other in Hv as ->.
Qed.

(** ** save and get *)

(** What a successful [save] leaves in the database. *)
Lemma save_Ok s e storeName s' :
  Storage.save s e storeName = (Ok tt, s') →
  ∃ e' k,
    Storage.db s = true
    ∧ Storage.validate e storeName = Ok e'
    ∧ key_of storeName e' = Some k
    ∧ s' = {| Storage.db := true;
              Storage.data :=
                <[storeName := <[k := e']> (Storage.records (Storage.data s) storeName)]>
                  (Storage.data s) |}.
Proof.
  unfold Storage.save, Storage.validateEntity.
  destruct (Storage.db s) eqn:Hdb; simpl; [|done].
  destruct (Storage.validate e storeName) as [e'|] eqn:Hv; [|done].
  destruct (Storage.check_originID e' storeName); [|done].
  destruct (Storage.put _ _ _) as [d|] eqn:Hput; [|done].
  intros [= <-]. apply put_Ok in Hput as (k & Hk & ->). eauto 10.
Qed.

Lemma save_get s e storeName s' :
  Storage.save s e storeName = (Ok tt, s') →
  ∃ e' kv,
    Storage.validate e storeName = Ok e'
    ∧ key_value storeName e = Some kv
    ∧ Storage.get s' kv storeName = Ok e'.
Proof.
  intros (e' & k & Hdb & Hv & Hk & ->)%save_Ok.
  pose proof (validate_key_value _ _ _ Hv) as Hkv.
  unfold key_of in Hk. rewrite Hkv in Hk.
  destruct (key_value storeName e) as [kv|] eqn:Hkv'; [|done]. simpl in Hk.
  exists e', kv. repeat split; [done|].
  rewrite (get_opened _ kv storeName k); simpl; try done.
  - by rewrite records_insert_eq, lookup_insert_eq.
  - unfold key_value in Hkv'. by destruct (Storage.keyPath_of storeName).
Qed.

(** A failed [save] leaves the storage as it was. *)
Lemma save_Throw s e storeName ex s' :
  Storage.save s e storeName = (Throw ex, s') → s' = s.
Proof.
  unfold Storage.save.
  repeat (case_match; try done); by intros [= _ <-].
Qed.

(** ** Sample entities (the data of [main.js]) *)

Lemma sample_cube_constructed :
  Models.Cube (int 1) (int 1) (rgb (Fin 0) (Fin 0) (Fin 0)) (JArr [JStr "AA"])
    [sample_vertex1; sample_vertex2] (JStr "blendBackground")
  = Ok sample_cube.
Proof. reflexivity. Qed.

Lemma sample_subcubeVertex_constructed originID :
  Models.SubcubeVertex (JStr "AAv0") (int 1) (int 1) (JStr "AA") (JStr originID)
    (JArr [rgb (Fin 0) (Fin 255) (Fin 0); rgb (Fin 0) (Fin 0) (Fin 0);
           int 1; JStr "weightedSphere"]) (int 1)
  = Ok (sample_subcubeVertex originID).
Proof. reflexivity. Qed.

(** ** Claims on save and get *)

(** C4: when [save(e, k)] succeeds, [get] with the key of [e] and [k] returns
    the entity that was saved: what is read back has every property of [e]
    with the value it has in [e], but for [proximityPadding] in the two vertex
    stores, which reads as the absolute value of the weight whatever [e]
    carried there; in the other stores what is read back is [e]. *)
Theorem save_get_roundtrip s e storeName s' :
  Storage.save s e storeName = (Ok tt, s') →
  ∃ keyPath key stored,
    Storage.keyPath_of storeName = Some keyPath
    ∧ JS.get_prop e keyPath = Ok key
    ∧ Storage.get s' key storeName = Ok stored
    ∧ (∀ name, name ≠ "proximityPadding" →
               JS.get_prop stored name = JS.get_prop e name)
    ∧ if is_vertex_store storeName
      then ∃ color position w proximity,
             JS.get_prop e "valueArray"
             = Ok (JArr [color; position; JNum w; JStr proximity])
             ∧ JS.get_prop stored "proximityPadding" = Ok (JNum (num_abs w))
      else stored = e.
Proof.
  intros Hsave.
  destruct (save_get _ _ _ _ Hsave) as (stored & key & Hv & Hkey & Hget).
  destruct (Storage.keyPath_of storeName) as [keyPath|] eqn:Hkp;
    [|by unfold key_value in Hkey; rewrite Hkp in Hkey].
  exists keyPath, key, stored.
  split; [done|]. split; [by eapply key_value_get_prop|]. split; [done|].
  split; [intros name Hname; by eapply validate_props|].
  destruct (is_vertex_store storeName) eqn:Hs.
  - apply validate_vertex in Hv as (fs & c & p & w & x & -> & Hva & _ & ->);
      [|done].
    exists c, p, w, x. split; [done|]. apply get_prop_set_prop_eq.
  - by eapply validate_other.
Qed.

Lemma save_get_roundtrip_witness :
  JS.get_prop (sample_valid_vertex (-5)) "proximityPadding" = Ok (int 77)
  ∧ ∃ keyPath key stored,
      Storage.keyPath_of "SubcubeVertices" = Some keyPath
      ∧ JS.get_prop (sample_valid_vertex (-5)) keyPath = Ok key
      ∧ Storage.get
          (Storage.save fresh (sample_valid_vertex (-5)) "SubcubeVertices").2
          key "SubcubeVertices" = Ok stored
      ∧ (∀ name, name ≠ "proximityPadding" →
                 JS.get_prop stored name
                 = JS.get_prop (sample_valid_vertex (-5)) name)
      ∧ ∃ color position w proximity,
          JS.get_prop (sample_valid_vertex (-5)) "valueArray"
          = Ok (JArr [color; position; JNum w; JStr proximity])
          ∧ JS.get_prop stored "proximityPadding" = Ok (JNum (num_abs w)).
Proof.
  split; [reflexivity|].
  apply (save_get_roundtrip fresh (sample_valid_vertex (-5)) "SubcubeVertices"
           (Storage.save fresh (sample_valid_vertex (-5)) "SubcubeVertices").2).
  vm_compute. reflexivity.
Defined.

(** C6: the record that a successful [save] into a vertex store leaves in the
    store has [proximityPadding] equal to the absolute value of the weight
    [valueArray[2]], whatever [proximityPadding] the entity carried before;
    and [calculateProximityPadding(w)] is the absolute value of [w]. *)
Theorem proximityPadding_is_abs_weight :
  (∀ s e storeName s',
     is_vertex_store storeName = true →
     Storage.save s e storeName = (Ok tt, s') →
     ∃ keyPath key stored color position w proximity,
       Storage.keyPath_of storeName = Some keyPath
       ∧ JS.get_prop e keyPath = Ok key
       ∧ JS.get_prop e "valueArray"
         = Ok (JArr [color; position; JNum w; JStr proximity])
       ∧ Storage.get s' key storeName = Ok stored
       ∧ JS.get_prop stored "proximityPadding" = Ok (JNum (num_abs w)))
  ∧ (∀ w, Utils.calculateProximityPadding (JNum w) = JNum (num_abs w)).
Proof.
  split.
  - intros s e storeName s' Hs Hsave.
    destruct (save_get _ _ _ _ Hsave) as (stored & key & Hv & Hkey & Hget).
    destruct (Storage.keyPath_of storeName) as [keyPath|] eqn:Hkp;
      [|by unfold key_value in Hkey; rewrite Hkp in Hkey].
    apply validate_vertex in Hv as (fs & c & p & w & x & -> & Hva & _ & ->);
      [|done].
    exists keyPath, key, (JS.set_prop (JObj fs) "proximityPadding" (JNum (num_abs w))),
      c, p, w, x.
    split; [done|]. split; [by eapply key_value_get_prop|].
    split; [done|]. split; [done|]. apply get_prop_set_prop_eq.
  - intros [| |z|]; try reflexivity.
    unfold Utils.calculateProximityPadding, JS.ge_num, JS.neg; simpl.
    destruct (Z.leb_spec 0 z); do 2 f_equal; lia.
Qed.

Lemma proximityPadding_is_abs_weight_witness :
  ∃ keyPath key stored color position w proximity,
    Storage.keyPath_of "SubcubeVertices" = Some keyPath
    ∧ JS.get_prop (sample_valid_vertex (-5)) keyPath = Ok key
    ∧ JS.get_prop (sample_valid_vertex (-5)) "valueArray"
      = Ok (JArr [color; position; JNum w; JStr proximity])
    ∧ Storage.get (Storage.save fresh (sample_valid_vertex (-5)) "SubcubeVertices").2
        key "SubcubeVertices" = Ok stored
    ∧ JS.get_prop stored "proximityPadding" = Ok (JNum (num_abs w)).
Proof.
  apply (proj1 proximityPadding_is_abs_weight fresh (sample_valid_vertex (-5))
           "SubcubeVertices"
           (Storage.save fresh (sample_valid_vertex (-5)) "SubcubeVertices").2).
  - reflexivity.
  - vm_compute. reflexivity.
Defined.

(** C9: [validateEntity(e, "Cubes")] accepts every [e] (on an initialised
    storage), [save(e, "Cubes")] never fails with a validation error, and a
    cube whose nested vertex color is 999 is saved. *)
Theorem validateEntity_Cubes_unchecked :
  (∀ s e, Storage.db s = true → Storage.validateEntity s e "Cubes" = Ok e)
  ∧ (∀ s e ex, (Storage.save s e "Cubes").1 = Throw ex →
               is_ValidationError ex = false)
  ∧ (Storage.save fresh
       (JObj [("id", int 2);
              ("value", JArr [rgb (Fin 0) (Fin 0) (Fin 0); JArr [];
                              JArr [JArr [rgb (Fin 0) (Fin 0) (Fin 0);
                                          rgb (Fin 999) (Fin (-1)) (Fin 0)]]])])
       "Cubes").1 = Ok tt.
Proof.
  split; [|split].
  - intros s e Hdb. unfold Storage.validateEntity. by rewrite Hdb.
  - intros s e ex. unfold Storage.save, Storage.validateEntity.
    destruct (Storage.db s); simpl; [|by intros [= <-]].
    destruct (Storage.put _ _ _) as [d|ex'] eqn:Hput; simpl; [done|].
    intros [= <-]. unfold Storage.put in Hput; simpl in Hput.
    by destruct (Storage.extract_key _ _); simplify_eq.
  - vm_compute. reflexivity.
Qed.

Lemma validateEntity_Cubes_unchecked_witness :
  Storage.validateEntity fresh (JStr "not a cube") "Cubes" = Ok (JStr "not a cube")
  ∧ is_ValidationError DataError = false.
Proof.
  split.
  - apply (proj1 validateEntity_Cubes_unchecked fresh (JStr "not a cube")).
    reflexivity.
  - apply (proj1 (proj2 validateEntity_Cubes_unchecked) fresh (JStr "not a cube")).
    reflexivity.
Defined.

(** C5: an entity built by the [SubcubeVertex] class has no [valueArray]
    field, so [save(e, "SubcubeVertices")] always fails and stores nothing;
    on an initialised storage the failure is the validation error on the
    [valueArray] format. *)
Theorem model_SubcubeVertex_never_saved
    s id windowUID cubeId subCubeID originID value activeWindowUID e :
  Models.SubcubeVertex id windowUID cubeId subCubeID originID value activeWindowUID
  = Ok e →
  ∃ ex, Storage.save s e "SubcubeVertices" = (Throw ex, s)
        ∧ (Storage.db s = true → ex = InvalidValueArray)
        ∧ is_ValidationError InvalidValueArray = true.
Proof.
  unfold Models.SubcubeVertex.
  destruct (JS.get_index value 2) as [w|]; simpl; [|done]. intros [= <-].
  unfold Storage.save, Storage.validateEntity.
  destruct (Storage.db s); simpl.
  - by exists InvalidValueArray.
  - by exists NotInitialized.
Qed.

Lemma model_SubcubeVertex_never_saved_witness :
  ∃ ex, Storage.save fresh (sample_subcubeVertex "11") "SubcubeVertices"
        = (Throw ex, fresh)
        ∧ (Storage.db fresh = true → ex = InvalidValueArray)
        ∧ is_ValidationError InvalidValueArray = true.
Proof.
  apply (model_SubcubeVertex_never_saved fresh (JStr "AAv0") (int 1) (int 1)
           (JStr "AA") (JStr "11")
           (JArr [rgb (Fin 0) (Fin 255) (Fin 0); rgb (Fin 0) (Fin 0) (Fin 0);
                  int 1; JStr "weightedSphere"]) (int 1)).
  reflexivity.
Defined.

(** ** The originID check *)

Lemma needs_originID_cases storeName :
  Storage.needs_originID storeName = true →
  storeName = "Subcubes" ∨ storeName = "SubcubeVertices".
Proof.
  unfold Storage.needs_originID; simpl.
  destruct (String.eqb_spec storeName "Subcubes"); [auto|].
  destruct (String.eqb_spec storeName "SubcubeVertices"); [auto|done].
Qed.

Lemma validate_object e storeName e' :
  Storage.needs_originID storeName = true →
  Storage.validate e storeName = Ok e' →
  ∃ fs, e = JObj fs.
Proof.
  intros [-> | ->]%needs_originID_cases Hv.
  - destruct e; try done; eauto.
  - apply validate_vertex in Hv as (fs & ? & ? & ? & ? & -> & _); eauto.
Qed.

(** C3 (amended): saving a Subcube or SubcubeVertex whose
    [originID] is not the concatenation of [windowUID] and [cubeId] always
    fails and leaves the storage unchanged; [validateEntity] runs first, so
    the failure is the error of [validateEntity] when it raises one, and the
    originID error when the entity passes it.  (The numbers in [windowUID]
    and [cubeId] are integers below [2^53] in magnitude, whose text is their
    decimal digits.) *)
Theorem save_rejects_foreign_originID s e storeName :
  Storage.needs_originID storeName = true →
  ids_printable e →
  ¬ originID_matches e →
  ∃ ex, Storage.save s e storeName = (Throw ex, s)
        ∧ (∀ ex', Storage.validateEntity s e storeName = Throw ex' → ex = ex')
        ∧ (is_Ok (Storage.validateEntity s e storeName) = true →
           is_ConsistencyError ex = true).
Proof.
  intros Hneeds _ Hforeign. unfold Storage.save.
  destruct (Storage.validateEntity s e storeName) as [e'|ex] eqn:Hv.
  2: { exists ex. split; [done|]. split; [by intros ex' [= <-]|done]. }
  unfold Storage.validateEntity in Hv.
  destruct (Storage.db s); simpl in Hv; [|done].
  destruct (validate_object _ _ _ Hneeds Hv) as [fs ->].
  unfold Storage.check_originID. rewrite Hneeds.
  rewrite !(validate_props _ _ _ _ Hv) by done. simpl.
  unfold Storage.validateOriginID.
  destruct (default JUndef (JS.assoc "originID" fs)) as [| | | |o| |] eqn:Ho;
    simpl; try (by eexists).
  destruct (String.eqb_spec o
              (JS.ToString (default JUndef (JS.assoc "windowUID" fs))
               +:+ JS.ToString (default JUndef (JS.assoc "cubeId" fs))))
    as [->|Hne]; simpl; [|by eexists].
  destruct Hforeign. eexists _, _. simpl. by rewrite Ho.
Qed.

Lemma save_rejects_foreign_originID_witness :
  ∃ ex, Storage.save fresh
          (JS.set_prop (sample_valid_vertex 3) "originID" (JStr "12"))
          "SubcubeVertices"
        = (Throw ex, fresh)
        ∧ (∀ ex', Storage.validateEntity fresh
                    (JS.set_prop (sample_valid_vertex 3) "originID" (JStr "12"))
                    "SubcubeVertices" = Throw ex' → ex = ex')
        ∧ (is_Ok (Storage.validateEntity fresh
                    (JS.set_prop (sample_valid_vertex 3) "originID" (JStr "12"))
                    "SubcubeVertices") = true →
           is_ConsistencyError ex = true).
Proof.
  apply (save_rejects_foreign_originID fresh
           (JS.set_prop (sample_valid_vertex 3) "originID" (JStr "12"))
           "SubcubeVertices").
  - reflexivity.
  - intros name v [-> | ->] [= <-]; reflexivity.
  - intros (w & c & Hw & Hc & Ho). vm_compute in Hw, Hc, Ho.
    injection Hw as <-. injection Hc as <-. discriminate Ho.
Defined.

(** C3 as stated fails: the SubcubeVertex that the model class builds with
    originID "99" for window 1 and cube 1 is rejected by [save] with the
    [valueArray] validation error, not with the originID error. *)
Lemma foreign_originID_validation_error_first :
  ¬ originID_matches (sample_subcubeVertex "99")
  ∧ Storage.save fresh (sample_subcubeVertex "99") "SubcubeVertices"
    = (Throw InvalidValueArray, fresh)
  ∧ is_ConsistencyError InvalidValueArray = false.
Proof.
  split; [|split; reflexivity].
  intros (w & c & Hw & Hc & Ho). vm_compute in Hw, Hc, Ho.
  injection Hw as <-. injection Hc as <-. discriminate Ho.
Qed.

(** ** updateCubeHierarchy *)

Lemma puts_Ok requests :
  ∀ d : gmap string (gmap (gen_tree (num + string)) jsval),
  (∀ name e, (name, e) ∈ requests → is_Some (key_of name e)) →
  ∃ d', Storage.puts d requests = (Ok tt, d')
        ∧ ∀ storeName k,
            Storage.records d' storeName !! k
            = written requests storeName k (Storage.records d storeName !! k).
Proof.
  induction requests as [|[name e] rest IH]; intros d Hkeys; simpl.
  - by exists d.
  - destruct (Hkeys name e) as [k0 Hk0]; [left|].
    rewrite (put_key _ _ _ _ Hk0).
    destruct (IH (<[name := <[k0 := e]> (Storage.records d name)]> d))
      as (d' & Hputs & Hd').
    { intros ???. apply Hkeys. by right. }
    exists d'. split; [done|]. intros storeName k. rewrite Hd'. f_equal.
    rewrite Hk0. destruct (decide (name = storeName)) as [->|Hne].
    + rewrite records_insert_eq.
      destruct (decide (k0 = k)) as [->|Hk].
      * rewrite lookup_insert_eq. by rewrite decide_True.
      * rewrite lookup_insert_ne by done. rewrite decide_False; [done|].
        intros [_ [=]]; done.
    + rewrite records_insert_ne by done. rewrite decide_False; [done|].
      by intros [? _].
Qed.

Lemma written_cases requests storeName k before :
  written requests storeName k before = before
  ∨ ∃ e, written requests storeName k before = Some e
         ∧ (storeName, e) ∈ requests ∧ key_of storeName e = Some k.
Proof.
  revert before. induction requests as [|[name e] rest IH]; intros before; simpl.
  - by left.
  - destruct (IH (if decide (name = storeName ∧ key_of name e = Some k)
                  then Some e else before)) as [Heq|(e' & Heq & Hin & Hk)].
    + case_decide as Hd.
      * destruct Hd as [-> Hk]. right. exists e. split; [done|].
        split; [left|done].
      * by left.
    + right. exists e'. split; [done|]. split; [by right|done].
Qed.

Lemma written_elem requests storeName e k before :
  (storeName, e) ∈ requests →
  key_of storeName e = Some k →
  ∃ e', written requests storeName k before = Some e'
        ∧ (storeName, e') ∈ requests ∧ key_of storeName e' = Some k.
Proof.
  revert before. induction requests as [|[name e0] rest IH]; intros before Hin Hk.
  - by apply elem_of_nil in Hin.
  - simpl. apply elem_of_cons in Hin as [[= <- <-]|Hin].
    + rewrite decide_True by done.
      destruct (written_cases rest storeName k (Some e))
        as [Heq|(e' & Heq & Hin' & Hk')].
      * exists e. split; [done|]. split; [left|done].
      * exists e'. split; [done|]. split; [by right|done].
    + destruct (IH (if decide (name = storeName ∧ key_of name e0 = Some k)
                    then Some e0 else before) Hin Hk) as (e' & Heq & Hin' & Hk').
      exists e'. split; [done|]. split; [by right|done].
Qed.

Lemma NoDup_fmap_elem {A B} (f : A → B) (l : list A) x y :
  NoDup (f <$> l) → x ∈ l → y ∈ l → f x = f y → x = y.
Proof.
  induction l as [|a l IH]; intros Hnd Hx Hy Hf.
  - by apply elem_of_nil in Hx.
  - rewrite fmap_cons in Hnd.
    pose proof (NoDup_cons_1_1 _ _ Hnd) as Hni.
    apply NoDup_cons_1_2 in Hnd.
    apply elem_of_cons in Hx as [->|Hx]; apply elem_of_cons in Hy as [->|Hy].
    + done.
    + destruct Hni. rewrite Hf. by apply list_elem_of_fmap_2.
    + destruct Hni. rewrite <- Hf. by apply list_elem_of_fmap_2.
    + by apply IH.
Qed.

(** The record that [written] leaves under a key comes from the last
    request for that store and key. *)
Lemma written_last requests storeName k :
  ∀ before stored,
  written requests storeName k before = Some stored →
  (before = Some stored
   ∧ ∀ e, (storeName, e) ∈ requests → key_of storeName e ≠ Some k)
  ∨ ∃ earlier later,
      requests = (earlier ++ (storeName, stored) :: later)%list
      ∧ key_of storeName stored = Some k
      ∧ ∀ e, (storeName, e) ∈ later → key_of storeName e ≠ Some k.
Proof.
  induction requests as [|[name e0] rest IH]; intros before stored; simpl.
  - intros ->. left. split; [done|]. intros e He. by apply elem_of_nil in He.
  - intros [[Hb Hrest]|(earlier & later & -> & Hk & Hlater)]%IH.
    + case_decide as Hd.
      * destruct Hd as [-> Hk]. injection Hb as ->. right.
        exists [], rest. by split.
      * left. split; [done|]. intros e [[= <- <-]|He]%elem_of_cons.
        -- intros Hk. by destruct Hd.
        -- by apply Hrest.
    + right. by exists ((name, e0) :: earlier), later.
Qed.

(** C1: [updateCubeHierarchy] does not validate (the atomicity that its
    documentation announces does not rest on any check).  On an initialised
    storage, when every entity of the bundle carries a valid key, the call
    succeeds and every entity of the bundle is visible through [get]
    afterwards, whether or not [validateEntity] would accept it: under its
    key, [get] returns the entity of the last request of the bundle for that
    store and key, which is the entity itself when the keys of the bundle are
    distinct. *)
Theorem updateCubeHierarchy_writes_unvalidated s cubeData :
  Storage.db s = true →
  (∀ storeName e, (storeName, e) ∈ Storage.requests_of cubeData →
                  is_Some (key_of storeName e)) →
  ∃ s', Storage.updateCubeHierarchy s cubeData = (Ok tt, s')
    ∧ ∀ storeName e, (storeName, e) ∈ Storage.requests_of cubeData →
        ∃ key stored earlier later,
          key_value storeName e = Some key
          ∧ Storage.get s' key storeName = Ok stored
          ∧ Storage.requests_of cubeData
            = (earlier ++ (storeName, stored) :: later)%list
          ∧ key_of storeName stored = key_of storeName e
          ∧ (∀ e', (storeName, e') ∈ later →
                   key_of storeName e' ≠ key_of storeName e)
          ∧ (NoDup (target <$> Storage.requests_of cubeData) → stored = e).
Proof.
  intros Hdb Hkeys. unfold Storage.updateCubeHierarchy. rewrite Hdb.
  cbn [negb].
  destruct (puts_Ok _ (Storage.data s) Hkeys) as (d' & -> & Hd').
  eexists. split; [done|]. intros storeName e Hin.
  destruct (Hkeys _ _ Hin) as [k Hk].
  destruct (written_elem _ _ _ _ (Storage.records (Storage.data s) storeName !! k)
              Hin Hk) as (stored & Hw & Hin' & Hk').
  pose proof Hk as Hkv. unfold key_of in Hkv.
  destruct (key_value storeName e) as [key|] eqn:Hkey; [|done]. simpl in Hkv.
  destruct (written_last _ _ _ _ _ Hw)
    as [[_ Hnone]|(earlier & later & Hsplit & _ & Hlater)];
    [by destruct (Hnone _ Hin)|].
  exists key, stored, earlier, later. split; [done|]. split.
  { rewrite (get_opened _ key storeName k); simpl; try done.
    - by rewrite Hd', Hw.
    - unfold key_value in Hkey. by destruct (Storage.keyPath_of storeName). }
  split; [done|]. split; [congruence|].
  split; [intros e' He'; rewrite Hk; by apply Hlater|].
  intros Hnd.
  assert ((storeName, stored) = (storeName, e)) as [= ->]; [|done].
  eapply (NoDup_fmap_elem target); try done.
  unfold target; simpl. congruence.
Qed.

Lemma updateCubeHierarchy_writes_unvalidated_witness :
  Storage.validateEntity fresh (sample_subcubeVertex "11") "SubcubeVertices"
  = Throw InvalidValueArray
  ∧ ∃ s', Storage.updateCubeHierarchy fresh sample_bundle = (Ok tt, s')
    ∧ ∀ storeName e, (storeName, e) ∈ Storage.requests_of sample_bundle →
        ∃ key stored earlier later,
          key_value storeName e = Some key
          ∧ Storage.get s' key storeName = Ok stored
          ∧ Storage.requests_of sample_bundle
            = (earlier ++ (storeName, stored) :: later)%list
          ∧ key_of storeName stored = key_of storeName e
          ∧ (∀ e', (storeName, e') ∈ later →
                   key_of storeName e' ≠ key_of storeName e)
          ∧ (NoDup (target <$> Storage.requests_of sample_bundle) → stored = e).
Proof.
  split; [reflexivity|].
  apply (updateCubeHierarchy_writes_unvalidated fresh sample_bundle).
  - reflexivity.
  - intros storeName e Hin. unfold sample_bundle, Storage.requests_of in Hin.
    simpl in Hin. apply elem_of_cons in Hin as [[= -> ->]|Hin].
    + by eexists.
    + apply list_elem_of_singleton in Hin as [= -> ->]. by eexists.
Defined.

(** The bundle of [main.js]: its SubcubeVertex does not pass
    [validateEntity], and after [updateCubeHierarchy] both the cube and that
    vertex are visible through [get]. *)
Lemma updateCubeHierarchy_keeps_invalid_entity :
  Storage.validateEntity fresh (sample_subcubeVertex "11") "SubcubeVertices"
  = Throw InvalidValueArray
  ∧ ∃ s', Storage.updateCubeHierarchy fresh sample_bundle = (Ok tt, s')
      ∧ Storage.get s' (int 1) "Cubes" = Ok sample_cube
      ∧ Storage.get s' (JStr "AAv0") "SubcubeVertices"
        = Ok (sample_subcubeVertex "11").
Proof.
  split; [reflexivity|].
  eexists. split; [vm_compute; reflexivity|]. split; vm_compute; reflexivity.
Qed.

(** A bundle whose subcube has no [id]: the [put] of the subcube throws and
    the call fails, while the request for the cube, placed before it, stays in
    the transaction and is committed. *)
Remark updateCubeHierarchy_keyless_subcube :
  ∃ s',
    Storage.updateCubeHierarchy fresh
      {| Storage.CubeData.cube := sample_cube;
         Storage.CubeData.subcubes :=
           Some [JObj [("center", rgb (Fin 0) (Fin 0) (Fin 0))]];
         Storage.CubeData.subcubeVertices := None;
         Storage.CubeData.cubeVertices := None |}
    = (Throw DataError, s')
    ∧ Storage.get s' (int 1) "Cubes" = Ok sample_cube.
Proof. eexists. split; vm_compute; reflexivity. Qed.

(** ** The painter *)

Lemma Map_get_set_eq m k b : Painter.Map_get (Painter.Map_set m k b) k = Some b.
Proof.
  induction m as [|[k' b'] m IH]; simpl.
  - by rewrite String.eqb_refl.
  - destruct (String.eqb_spec k' k) as [->|Hne]; simpl.
    + by rewrite String.eqb_refl.
    + by destruct (String.eqb_spec k' k).
Qed.

Lemma foldR_throws {A S} (f : S → A → result S) (l : list A) (x : A) :
  x ∈ l →
  (∀ s, ∃ ex, f s x = Throw ex) →
  ∀ s, ∃ ex, Painter.foldR f l s = Throw ex.
Proof.
  intros Hin Hx. induction l as [|a l IH]; intros s.
  - by apply elem_of_nil in Hin.
  - simpl. apply elem_of_cons in Hin as [<-|Hin].
    + destruct (Hx s) as [ex ->]. by exists ex.
    + destruct (f s a) as [s'|ex]; simpl; [by apply IH|by exists ex].
Qed.

Section Painting.

Variable interpolate : jsval → jsval → jsval → jsval → jsval → result jsval.

Lemma blend_proximity p color1 color2 weight logic :
  JS.ToString logic = "BlendCornerByProximity" →
  Painter.blend interpolate p color1 color2
    (JObj [("weight", weight); ("proximity", logic)])
  = Throw (ReferenceError "distanceToSubject").
Proof.
  intros Hname. unfold Painter.blend. simpl. unfold id. by rewrite Hname.
Qed.

Lemma iterate_index position xyz i :
  JS.iterate position = Ok xyz → JS.get_index position i = Ok (nth i xyz JUndef).
Proof. destruct position; simpl; try done; by intros [= <-]. Qed.

(** The depth that [findFarthestDepth] reads in a vertex. *)
Lemma farthest_in_vertices vertices :
  ∀ maxZ m,
    Painter.foldR (λ maxZ vertex,
      let* position := Painter.part vertex 1 in
      let* z := JS.get_index position 2 in
      Ok (num_max maxZ (JS.ToNumber z))) vertices maxZ = Ok m →
    m ≠ NaN →
    num_le maxZ m = true
    ∧ ∀ vertex, vertex ∈ vertices →
        ∃ position z,
          Painter.part vertex 1 = Ok position
          ∧ JS.get_index position 2 = Ok z
          ∧ num_le (JS.ToNumber z) m = true.
Proof.
  induction vertices as [|v vertices IH]; intros maxZ m; simpl.
  - intros [= <-] Hm. split; [by apply num_le_refl|].
    intros vertex Hin. by apply elem_of_nil in Hin.
  - case_bind (Painter.part v 1) as position Hpos.
    case_bind (JS.get_index position 2) as z Hz.
    intros Hfold Hm. destruct (IH _ _ Hfold Hm) as [Hle Hall].
    destruct (num_max_upper maxZ (JS.ToNumber z)) as [Hl Hr];
      [by apply num_le_not_NaN in Hle as [? _]|].
    split; [by eapply num_le_trans|].
    intros vertex [->|Hin]%elem_of_cons; [|by apply Hall].
    exists position, z. split; [done|]. split; [done|]. by eapply num_le_trans.
Qed.

(** When [findFarthestDepth] returns a number, every vertex of the data has a
    depth, and none is farther. *)
Lemma findFarthestDepth_upper data m :
  Painter.findFarthestDepth data = Ok m →
  m ≠ NaN →
  ∀ item vertices vertex,
    item ∈ data → Painter.vertices_of item = Ok vertices → vertex ∈ vertices →
    ∃ position z,
      Painter.part vertex 1 = Ok position
      ∧ JS.get_index position 2 = Ok z
      ∧ num_le (JS.ToNumber z) m = true.
Proof.
  unfold Painter.findFarthestDepth. generalize NInf.
  induction data as [|item0 data IH]; intros maxZ; simpl.
  - intros _ _ item vertices vertex Hin. by apply elem_of_nil in Hin.
  - case_bind (Painter.vertices_of item0) as vertices0 Hvs0.
    destruct (Painter.foldR _ vertices0 maxZ) as [m0|] eqn:Hm0; cbn [rbind];
      [|done].
    intros Hfold Hm item vertices vertex [->|Hin]%elem_of_cons Hvs Hvertex.
    + rewrite Hvs0 in Hvs. injection Hvs as <-.
      assert (num_le m0 m = true) as Hle.
      { clear -Hfold Hm. revert m0 Hfold.
        induction data as [|item data IH]; intros m0; simpl.
        - intros [= <-]. by apply num_le_refl.
        - destruct (Painter.vertices_of item) as [vs|]; cbn [rbind]; [|done].
          destruct (Painter.foldR _ vs m0) as [m1|] eqn:Hm1; cbn [rbind]; [|done].
          intros Hfold. pose proof (IH _ Hfold) as Hle.
          destruct (farthest_in_vertices _ _ _ Hm1) as [Hle' _];
            [by apply num_le_not_NaN in Hle as [? _]|].
          by eapply num_le_trans. }
      destruct (farthest_in_vertices _ _ _ Hm0) as [_ Hall];
        [by apply num_le_not_NaN in Hle as [? _]|].
      destruct (Hall vertex Hvertex) as (position & z & Hpos & Hz & Hz').
      exists position, z. split; [done|]. split; [done|]. by eapply num_le_trans.
    + by eapply IH.
Qed.

(** A vertex that passes the depth filter and whose blend logic names
    [BlendCornerByProximity] makes the loop body throw, whatever the bins. *)
Lemma paint_throws p isBackground maxDepth vertex position xyz logic :
  Painter.part vertex 1 = Ok position →
  JS.iterate position = Ok xyz →
  JS.le_num (nth 2 xyz JUndef) (num_add maxDepth (Fin 1)) = true →
  Painter.logic_of vertex = Ok logic →
  JS.ToString logic = "BlendCornerByProximity" →
  ∀ bins, ∃ ex,
    Painter.paint interpolate p isBackground maxDepth bins vertex = Throw ex.
Proof.
  intros Hpos Hxyz Hle Hlogic Hname bins.
  unfold Painter.paint. rewrite Hpos; cbn [rbind]. rewrite Hxyz; cbn [rbind].
  rewrite Hle.
  set (binKey := if isBackground then _ else _).
  assert (∀ bins1,
    ∃ ex, (let* blendLogic := Painter.logic_of vertex in
           match Painter.Map_get bins1 binKey with
           | None => Throw TypeError
           | Some b =>
               let* color2 := Painter.part vertex 0 in
               let* weight := Painter.part vertex 2 in
               let* newColor :=
                 Painter.blend interpolate p (Painter.color b) color2
                   (JObj [("weight", weight); ("proximity", blendLogic)]) in
               Ok (Painter.Map_set bins1 binKey
                     {| Painter.color := newColor; Painter.active := true;
                        Painter.depth :=
                          if isBackground
                          then JNum (num_max (JS.ToNumber (Painter.depth b))
                                       (JS.ToNumber (nth 2 xyz JUndef)))
                          else Painter.depth b |})
           end) = Throw ex) as Hblend.
  { intros bins1. rewrite Hlogic; cbn [rbind].
    destruct (Painter.Map_get bins1 binKey) as [b|]; [|by eexists].
    destruct (Painter.part vertex 0) as [color2|]; cbn [rbind]; [|by eexists].
    destruct (Painter.part vertex 2) as [weight|]; cbn [rbind]; [|by eexists].
    rewrite blend_proximity by done. by eexists. }
  destruct (Painter.Map_get bins binKey) as [b|]; cbn [rbind].
  - apply Hblend.
  - destruct (JS.iterate (Painter.ambientValue p)) as [ambient|]; cbn [rbind];
      [apply Hblend|by eexists].
Qed.

(** The same for a vertex that is not farther than [maxDepth]. *)
Lemma paint_throws_upper p isBackground maxDepth vertex position z logic :
  Painter.part vertex 1 = Ok position →
  JS.get_index position 2 = Ok z →
  num_le (JS.ToNumber z) maxDepth = true →
  Painter.logic_of vertex = Ok logic →
  JS.ToString logic = "BlendCornerByProximity" →
  ∀ bins, ∃ ex,
    Painter.paint interpolate p isBackground maxDepth bins vertex = Throw ex.
Proof.
  intros Hpos Hz Hle Hlogic Hname bins.
  destruct (JS.iterate position) as [xyz|ex] eqn:Hxyz.
  - eapply paint_throws; try done.
    rewrite (iterate_index _ _ 2 Hxyz) in Hz. injection Hz as <-.
    by apply num_le_succ.
  - exists ex. unfold Painter.paint. rewrite Hpos; cbn [rbind]. by rewrite Hxyz.
Qed.

(** C10: every call of [BlendCornerByProximity] throws (on the parameter
    object that [Painter.blend] passes, with the ReferenceError for
    [distanceToSubject]), and [createBins] throws whenever a vertex of the
    data resolves to [BlendCornerByProximity], unless the farthest depth comes
    out as NaN (the depth filter then drops every vertex and nothing is
    blended). *)
Theorem BlendCornerByProximity_always_throws :
  (∀ color1 color2 params,
     ∃ ex, Utils.BlendCornerByProximity interpolate color1 color2 params = Throw ex)
  ∧ (∀ color1 color2 weight ambient,
       Utils.BlendCornerByProximity interpolate color1 color2
         (JObj [("weight", weight); ("ambient", ambient)])
       = Throw (ReferenceError "distanceToSubject"))
  ∧ (∀ p data isBackground item vertices vertex logic,
       item ∈ data →
       Painter.vertices_of item = Ok vertices →
       vertex ∈ vertices →
       Painter.logic_of vertex = Ok logic →
       JS.ToString logic = "BlendCornerByProximity" →
       Painter.findFarthestDepth data ≠ Ok NaN →
       ∃ ex, Painter.createBins interpolate p data isBackground = Throw ex).
Proof.
  split; [|split].
  - intros color1 color2 params.
    destruct (BlendCornerByProximity_throws interpolate color1 color2 params)
      as [-> | ->]; by eexists.
  - reflexivity.
  - intros p data isBackground item vertices vertex logic
      Hitem Hvs Hvertex Hlogic Hname Hmax.
    unfold Painter.createBins.
    destruct (Painter.findFarthestDepth data) as [maxDepth|ex] eqn:Hdepth;
      cbn [rbind]; [|by exists ex].
    assert (maxDepth ≠ NaN) as Hnum by congruence.
    destruct (findFarthestDepth_upper _ _ Hdepth Hnum _ _ _ Hitem Hvs Hvertex)
      as (position & z & Hpos & Hz & Hle).
    apply (foldR_throws _ data item Hitem). intros bins.
    rewrite Hvs; cbn [rbind].
    apply (foldR_throws _ vertices vertex Hvertex).
    by eapply paint_throws_upper.
Qed.

(** With a vertex that has no depth the farthest depth is NaN, and
    [createBins] returns without blending the vertex that names
    [BlendCornerByProximity]. *)
Remark createBins_NaN_depth :
  let flat :=
    JObj [("value",
           JArr [rgb (Fin 0) (Fin 0) (Fin 0); JArr [];
                 JArr [JObj [("valueArray",
                              JArr [rgb (Fin 1) (Fin 2) (Fin 3);
                                    JArr [int 15; int 25];
                                    int 1; JStr "blendBackground"])]]])] in
  Painter.findFarthestDepth [sample_item "BlendCornerByProximity"; flat] = Ok NaN
  ∧ Painter.createBins interpolate Painter.new
      [sample_item "BlendCornerByProximity"; flat] false
    = Ok [("1,2", {| Painter.color := Painter.ambientValue Painter.new;
                     Painter.active := false;
                     Painter.depth := int 35 |})].
Proof. split; reflexivity. Qed.

End Painting.

Lemma BlendCornerByProximity_always_throws_witness :
  ∃ ex, Painter.createBins (λ _ _ _ _ _, Ok JUndef) Painter.new
          [sample_item "blendBackground"; sample_item "BlendCornerByProximity"]
          false
        = Throw ex.
Proof.
  eapply (proj2 (proj2 (BlendCornerByProximity_always_throws (λ _ _ _ _ _, Ok JUndef)))
            Painter.new
            [sample_item "blendBackground"; sample_item "BlendCornerByProximity"]
            false (sample_item "BlendCornerByProximity")).
  - right. left.
  - reflexivity.
  - left.
  - reflexivity.
  - reflexivity.
  - discriminate.
Defined.

(** ** The spatial index *)

(** *** Cells *)

Lemma floor_div_Fin (x b : Z) : b ≠ 0 → floor_div (Fin x) (Fin b) = Fin (x / b).
Proof. intros Hb. simpl. by destruct (Z.eqb_spec b 0). Qed.



(** The bounds of the three loops of a query with small arguments are
    integers that the program counts one by one. *)
Lemma cells_safe (b p r : Z) :
  0 < b → small p → small r →
  safe_integer (p / b - - ((- r) / b)) ∧ safe_integer (p / b + - ((- r) / b)).
Proof.
  unfold small, safe_integer. intros Hb Hp Hr.
  assert (- 2 ^ 24 ≤ p / b ≤ 2 ^ 24) as Hc.
  { split; [apply Z.div_le_lower_bound|apply Z.div_le_upper_bound]; nia. }
  assert (- 2 ^ 24 ≤ (- r) / b ≤ 2 ^ 24) as Hrb.
  { split; [apply Z.div_le_lower_bound|apply Z.div_le_upper_bound]; nia. }
  lia.
Qed.

(** *** The distance test *)


(** Comparing a square root with [r] without computing the root. *)
Lemma sqrt_le_iff (s r : Z) :
  0 ≤ s → (sqrt (IZR s) <= IZR r)%R ↔ 0 ≤ r ∧ s ≤ r * r.
Proof.
  intros Hs. split.
  - intros Hle.
    assert (0 <= sqrt (IZR s))%R as H0 by apply sqrt_pos.
    assert (0 <= IZR r)%R as Hr by lra.
    split; [by apply le_IZR|].
    apply le_IZR. rewrite mult_IZR.
    rewrite <- (sqrt_sqrt (IZR s)) by (by apply IZR_le).
    by apply Rmult_le_compat.
  - intros [Hr Hle].
    rewrite <- (sqrt_square (IZR r)) by (by apply IZR_le).
    apply sqrt_le_1_alt. rewrite <- mult_IZR. by apply IZR_le.
Qed.

(** [sqrt_le] decides the comparison of the real square root. *)
Lemma sqrt_le_Fin (s r : Z) :
  0 ≤ s → sqrt_le (Fin s) (Fin r) = true ↔ (sqrt (IZR s) <= IZR r)%R.
Proof.
  intros Hs. rewrite sqrt_le_iff by done. simpl.
  rewrite !andb_true_iff, !Z.leb_le. tauto.
Qed.







(** *** What the index holds *)

Lemma slot_of_push sl sl' es bin e :
  e ∈ Storage.slot_of sl (Storage.push sl' es bin)
  ↔ e ∈ Storage.slot_of sl bin ∨ (sl = sl' ∧ e ∈ es).
Proof.
  destruct sl, sl'; simpl; rewrite ?elem_of_app;
    solve [ tauto | split; [auto | intros [?|[? _]]; [done|discriminate]] ].
Qed.

Lemma slot_of_no_entities sl e : e ∉ Storage.slot_of sl Storage.no_entities.
Proof. destruct sl; apply not_elem_of_nil. Qed.

Lemma index_entity_Ok binSize sl (bins : gmap string Storage.entities) e bins' :
  Storage.index_entity binSize sl bins e = Ok bins' →
  ∃ pos coords old,
    Storage.position_of sl e = Ok pos
    ∧ Storage.getBinCoords binSize pos = Ok coords
    ∧ old = default Storage.no_entities (bins !! Storage.getBinKey coords)
    ∧ bins' = <[Storage.getBinKey coords := Storage.push sl [e] old]> bins.
Proof.
  unfold Storage.index_entity.
  case_bind (Storage.position_of sl e) as pos Hpos.
  case_bind (Storage.getBinCoords binSize pos) as coords Hcoords.
  intros [= <-]. exists pos, coords. eexists.
  split; [done|]. split; [done|]. split; [done|].
  destruct (bins !! Storage.getBinKey coords) as [old|] eqn:Hold.
  - by rewrite Hold.
  - rewrite lookup_insert_eq. simpl. by rewrite insert_insert_eq.
Qed.

Lemma index_entity_inv binSize sl (bins : gmap string Storage.entities) e bins' :
  bins_inv binSize bins →
  Storage.index_entity binSize sl bins e = Ok bins' →
  bins_inv binSize bins'.
Proof.
  intros Hinv (pos & coords & old & Hpos & Hcoords & -> & ->)%index_entity_Ok.
  intros key bin sl' e' Hbin He'.
  destruct (decide (Storage.getBinKey coords = key)) as [<-|Hne].
  - rewrite lookup_insert_eq in Hbin. injection Hbin as <-.
    apply slot_of_push in He' as [He'|[-> ->%list_elem_of_singleton]].
    + destruct (bins !! Storage.getBinKey coords) as [old|] eqn:Hold; simpl in He'.
      * by eapply Hinv.
      * by apply slot_of_no_entities in He'.
    + by exists pos, coords.
  - rewrite lookup_insert_ne in Hbin by done. by eapply Hinv.
Qed.

Lemma index_entity_indexed binSize sl (bins : gmap string Storage.entities)
    e bins' :
  Storage.index_entity binSize sl bins e = Ok bins' →
  ∀ sl' e', indexed bins' sl' e' ↔ indexed bins sl' e' ∨ (sl' = sl ∧ e' = e).
Proof.
  intros (pos & coords & old & Hpos & Hcoords & -> & ->)%index_entity_Ok sl' e'.
  set (k := Storage.getBinKey coords). split.
  - intros (key & bin & Hbin & He').
    destruct (decide (k = key)) as [<-|Hne].
    + rewrite lookup_insert_eq in Hbin. injection Hbin as <-.
      apply slot_of_push in He' as [He'|[-> ->%list_elem_of_singleton]];
        [|by right].
      left. destruct (bins !! k) as [old|] eqn:Hold; simpl in He'.
      * by exists k, old.
      * by apply slot_of_no_entities in He'.
    + rewrite lookup_insert_ne in Hbin by done. left. by exists key, bin.
  - intros [(key & bin & Hbin & He')|[-> ->]].
    + destruct (decide (k = key)) as [<-|Hne].
      * eexists k, _. rewrite lookup_insert_eq. split; [done|].
        apply slot_of_push. left. by rewrite Hbin.
      * exists key, bin. by rewrite lookup_insert_ne.
    + eexists k, _. rewrite lookup_insert_eq. split; [done|].
      apply slot_of_push. right. split; [done|]. by apply list_elem_of_singleton.
Qed.

Lemma index_all_spec binSize sl es :
  ∀ (bins bins' : gmap string Storage.entities),
  Storage.index_all binSize sl es bins = Ok bins' →
  (bins_inv binSize bins → bins_inv binSize bins')
  ∧ ∀ sl' e, indexed bins' sl' e ↔ indexed bins sl' e ∨ (sl' = sl ∧ e ∈ es).
Proof.
  induction es as [|e0 es IH]; intros bins bins'; simpl.
  - intros [= <-]. split; [done|]. intros sl' e.
    rewrite elem_of_nil. tauto.
  - case_bind (Storage.index_entity binSize sl bins e0) as bins1 H1.
    intros [Hinv Hidx]%IH. split.
    + intros Hb. by eapply Hinv, index_entity_inv.
    + intros sl' e. rewrite Hidx, (index_entity_indexed _ _ _ _ _ H1).
      rewrite elem_of_cons. tauto.
Qed.

Lemma buildSpatialIndex_spec s windowUID binSize idx :
  Storage.buildSpatialIndex s windowUID binSize = Ok idx →
  ∃ ents,
    Storage.getEntitiesInBounds s Storage.everywhere windowUID = Ok ents
    ∧ Storage.binSize idx = binSize
    ∧ bins_inv binSize (Storage.bins idx)
    ∧ ∀ sl e, indexed (Storage.bins idx) sl e ↔ e ∈ Storage.slot_of sl ents.
Proof.
  unfold Storage.buildSpatialIndex.
  case_bind (Storage.getEntitiesInBounds s Storage.everywhere windowUID)
    as ents Hents.
  case_bind (Storage.index_all binSize Storage.Cubes (Storage.cubes ents) ∅)
    as b1 H1.
  case_bind (Storage.index_all binSize Storage.Subcubes (Storage.subcubes ents) b1)
    as b2 H2.
  case_bind (Storage.index_all binSize Storage.SubcubeVertices
               (Storage.subcubeVertices ents) b2) as b3 H3.
  intros [= <-]. exists ents. split; [done|]. split; [done|]. simpl.
  apply index_all_spec in H1 as [Hinv1 Hidx1].
  apply index_all_spec in H2 as [Hinv2 Hidx2].
  apply index_all_spec in H3 as [Hinv3 Hidx3].
  split.
  - apply Hinv3, Hinv2, Hinv1. intros key bin sl e Hbin.
    by rewrite lookup_empty in Hbin.
  - intros sl e. rewrite Hidx3, Hidx2, Hidx1.
    assert (¬ indexed (∅ : gmap string Storage.entities) sl e) as Hempty.
    { intros (key & bin & Hbin & _). by rewrite lookup_empty in Hbin. }
    destruct sl; simpl; intuition congruence.
Qed.

(** *** The loops of queryNearPosition *)








Lemma filterR_Ok {A} (p : A → result bool) (l l' : list A) :
  Storage.filterR p l = Ok l' → ∀ x, x ∈ l' ↔ x ∈ l ∧ p x = Ok true.
Proof.
  revert l'. induction l as [|a l IH]; intros l'; simpl.
  - intros [= <-] x. rewrite elem_of_nil. tauto.
  - case_bind (p a) as b Hb. case_bind (Storage.filterR p l) as rest Hrest.
    intros [= <-] x. specialize (IH _ eq_refl x).
    destruct b.
    + rewrite !elem_of_cons, IH. split; [intros [->|[??]]; auto|tauto].
    + rewrite IH, elem_of_cons. split; [tauto|].
      intros [[->|?] ?]; [congruence|tauto].
Qed.



Lemma positions_within_elem B s sl e :
  positions_within B s = true →
  e ∈ (map_to_list (Storage.records (Storage.data s) (store_of sl))).*2 →
  entity_within B sl e = true.
Proof.
  unfold positions_within. rewrite forallb_forall. intros Hall He.
  assert (In sl [Storage.Cubes; Storage.Subcubes; Storage.SubcubeVertices])
    as Hsl by (destruct sl; simpl; auto).
  specialize (Hall sl Hsl). rewrite forallb_forall in Hall.
  by apply Hall, list_elem_of_In.
Qed.


(** *** A sample index *)

Lemma sample_index_built :
  Storage.buildSpatialIndex sample_storage (int 1) (Fin 50) = Ok (sample_index 50)
  ∧ Storage.buildSpatialIndex sample_storage (int 1) (Fin (-50))
    = Ok (sample_index (-50)).
Proof. split; vm_compute; reflexivity. Qed.

(** With bins of size 50, the query at [[0,0,0]] with radius 10 returns the
    subcubes at [[0,0,0]] and [[10,0,0]], not the one at [[60,60,60]]. *)
Lemma sample_query :
  ∃ results,
    Storage.queryNearPosition (sample_index 50) (point (0, 0, 0)) (Fin 10)
    = Storage.Returns results
    ∧ Storage.cubes results = []
    ∧ Storage.subcubeVertices results = []
    ∧ ∀ e, e ∈ Storage.subcubes results
           ↔ e = sample_subcube_at "A" 0 0 0 ∨ e = sample_subcube_at "B" 10 0 0.
Proof.
  eexists. split; [vm_compute; reflexivity|].
  split; [done|]. split; [done|]. intros e. cbn [Storage.subcubes].
  rewrite !elem_of_cons, elem_of_nil.
  change (sample_subcube_at "A" 0 0 0) with
    (JObj [("id", JStr "A"); ("windowUID", JNum (Fin 1));
           ("center", JArr [JNum (Fin 0); JNum (Fin 0); JNum (Fin 0)]);
           ("order", JNum (Fin 0));
           ("vertexArray", JArr [JArr [JStr "v0"; JStr "blendBackground"]]);
           ("cubeId", JNum (Fin 1)); ("originID", JStr "11");
           ("blendingLogicId", JStr "blendBackground")]).
  change (sample_subcube_at "B" 10 0 0) with
    (JObj [("id", JStr "B"); ("windowUID", JNum (Fin 1));
           ("center", JArr [JNum (Fin 10); JNum (Fin 0); JNum (Fin 0)]);
           ("order", JNum (Fin 0));
           ("vertexArray", JArr [JArr [JStr "v0"; JStr "blendBackground"]]);
           ("cubeId", JNum (Fin 1)); ("originID", JStr "11");
           ("blendingLogicId", JStr "blendBackground")]).
  tauto.
Qed.



(** * Further properties of the code *)

(** ** A storage that is not open *)

(** X1: before [init] and after [close], every call of the storage that
    reaches the database is rejected with "Database not initialized", and
    those that write leave the storage as it was. *)
Theorem unopened_storage_rejects s :
  Storage.db s = false →
  (∀ e storeName, Storage.validateEntity s e storeName = Throw NotInitialized)
  ∧ (∀ e storeName, Storage.save s e storeName = (Throw NotInitialized, s))
  ∧ (∀ key storeName, Storage.get s key storeName = Throw NotInitialized)
  ∧ (∀ indexName value storeName,
       Storage.getAllByIndex s indexName value storeName = Throw NotInitialized)
  ∧ (∀ cubeData,
       Storage.updateCubeHierarchy s cubeData = (Throw NotInitialized, s))
  ∧ (∀ matrixUpdates,
       Storage.batchUpdateMatrices s matrixUpdates
       = (Storage.Rejects NotInitialized, s))
  ∧ (∀ b windowUID, Storage.getEntitiesInBounds s b windowUID = Throw NotInitialized)
  ∧ (∀ windowUID binSize,
       Storage.buildSpatialIndex s windowUID binSize = Throw NotInitialized).
Proof.
  intros Hdb.
  unfold Storage.validateEntity, Storage.save, Storage.validateEntity, Storage.get,
    Storage.getAllByIndex, Storage.updateCubeHierarchy, Storage.batchUpdateMatrices,
    Storage.buildSpatialIndex, Storage.getEntitiesInBounds.
  rewrite Hdb. by repeat split.
Qed.

Lemma unopened_storage_rejects_witness :
  (∀ e storeName,
     Storage.validateEntity (Storage.close fresh) e storeName = Throw NotInitialized)
  ∧ (∀ e storeName,
       Storage.save (Storage.close fresh) e storeName
       = (Throw NotInitialized, Storage.close fresh))
  ∧ (∀ key storeName,
       Storage.get (Storage.close fresh) key storeName = Throw NotInitialized)
  ∧ (∀ indexName value storeName,
       Storage.getAllByIndex (Storage.close fresh) indexName value storeName
       = Throw NotInitialized)
  ∧ (∀ cubeData,
       Storage.updateCubeHierarchy (Storage.close fresh) cubeData
       = (Throw NotInitialized, Storage.close fresh))
  ∧ (∀ matrixUpdates,
       Storage.batchUpdateMatrices (Storage.close fresh) matrixUpdates
       = (Storage.Rejects NotInitialized, Storage.close fresh))
  ∧ (∀ b windowUID,
       Storage.getEntitiesInBounds (Storage.close fresh) b windowUID
       = Throw NotInitialized)
  ∧ (∀ windowUID binSize,
       Storage.buildSpatialIndex (Storage.close fresh) windowUID binSize
       = Throw NotInitialized).
Proof. apply (unopened_storage_rejects (Storage.close fresh)). reflexivity. Defined.

(** ** What a save leaves alone *)

Lemma key_of_validate e storeName e' :
  Storage.validate e storeName = Ok e' → key_of storeName e' = key_of storeName e.
Proof. intros Hv. unfold key_of. by rewrite (validate_key_value _ _ _ Hv). Qed.

(** X2: a [save] changes at most one record, the one under the key of the
    entity in the store it names: [get] with any other key or store answers as
    before, the connection stays as it is, and a [save] that fails changes
    nothing. *)
Theorem save_changes_one_record s e storeName r s' :
  Storage.save s e storeName = (r, s') →
  Storage.db s' = Storage.db s
  ∧ (∀ ex, r = Throw ex → s' = s)
  ∧ ∀ key' storeName',
      storeName' ≠ storeName ∨ Storage.to_key key' ≠ key_of storeName e →
      Storage.get s' key' storeName' = Storage.get s key' storeName'.
Proof.
  destruct r as [[]|ex]; intros Hsave.
  - apply save_Ok in Hsave as (e' & k & Hdb & Hv & Hk & ->).
    rewrite <- (key_of_validate _ _ _ Hv), Hk.
    split; [done|]. split; [done|]. intros key' storeName' Hother.
    unfold Storage.get; simpl. rewrite Hdb; simpl.
    destruct (Storage.keyPath_of storeName'); [|done].
    destruct (Storage.to_key key') as [k'|]; [|done]. do 2 f_equal.
    destruct (decide (storeName' = storeName)) as [->|Hne].
    + rewrite records_insert_eq, lookup_insert_ne; [done|].
      destruct Hother as [|Hother]; [done|]. by intros ->.
    + by rewrite records_insert_ne.
  - apply save_Throw in Hsave as ->. split; [done|]. split; done.
Qed.

Lemma save_changes_one_record_witness :
  Storage.db (Storage.save fresh sample_cube "Cubes").2 = Storage.db fresh
  ∧ (∀ ex, Ok tt = Throw ex → (Storage.save fresh sample_cube "Cubes").2 = fresh)
  ∧ ∀ key' storeName',
      storeName' ≠ "Cubes" ∨ Storage.to_key key' ≠ key_of "Cubes" sample_cube →
      Storage.get (Storage.save fresh sample_cube "Cubes").2 key' storeName'
      = Storage.get fresh key' storeName'.
Proof.
  apply (save_changes_one_record fresh sample_cube "Cubes" (Ok tt)).
  vm_compute. reflexivity.
Defined.

(** ** The records of the database *)

Lemma put_well_keyed d storeName e d' :
  well_keyed d → Storage.put d storeName e = Ok d' → well_keyed d'.
Proof.
  intros Hd (k & Hk & ->)%put_Ok storeName' k' e'.
  destruct (decide (storeName = storeName')) as [<-|Hne].
  - rewrite records_insert_eq.
    destruct (decide (k = k')) as [<-|Hk'].
    + rewrite lookup_insert_eq. by intros [= <-].
    + rewrite lookup_insert_ne by done. apply Hd.
  - rewrite records_insert_ne by done. apply Hd.
Qed.

Lemma puts_well_keyed requests :
  ∀ (d : gmap string (gmap (gen_tree (num + string)) jsval)) r d',
    well_keyed d → Storage.puts d requests = (r, d') → well_keyed d'.
Proof.
  induction requests as [|[storeName e] rest IH]; intros d r d' Hd; simpl.
  - by intros [= _ <-].
  - destruct (Storage.put d storeName e) as [d1|ex] eqn:Hput.
    + apply IH. by eapply put_well_keyed.
    + by intros [= _ <-].
Qed.

Lemma put_matrices_well_keyed scope matrixUpdates :
  ∀ (d : gmap string (gmap (gen_tree (num + string)) jsval)) r d',
    well_keyed d → Storage.put_matrices scope d matrixUpdates = (r, d') →
    well_keyed d'.
Proof.
  induction matrixUpdates as [|update rest IH]; intros d r d' Hd; simpl.
  - by intros [= _ <-].
  - destruct (Storage.put_matrix scope d update) as [d1|ex] eqn:Hput.
    + apply IH. unfold Storage.put_matrix in Hput.
      destruct (JS.get_prop update "type") as [type|]; simpl in Hput; [|done].
      case_bool_decide; [|done].
      destruct (JS.get_prop update "matrix") as [matrix|]; simpl in Hput; [|done].
      by eapply put_well_keyed.
    + by intros [= _ <-].
Qed.

Lemma perform_well_keyed s op :
  well_keyed (Storage.data s) → well_keyed (Storage.data (perform s op)).
Proof.
  intros Hs. destruct op as [| |e storeName|cubeData|matrixUpdates]; simpl; try done.
  - destruct (Storage.save s e storeName) as [[[]|ex] s'] eqn:Hsave; simpl.
    + apply save_Ok in Hsave as (e' & k & _ & _ & Hk & ->); simpl.
      eapply put_well_keyed; [done|]. by apply put_key.
    + by apply save_Throw in Hsave as ->.
  - unfold Storage.updateCubeHierarchy.
    destruct (negb (Storage.db s)); [done|].
    destruct (Storage.puts _ _) as [r d] eqn:Hputs; simpl.
    by eapply puts_well_keyed.
  - unfold Storage.batchUpdateMatrices.
    destruct (negb (Storage.db s)); [done|].
    destruct (Storage.storeNames_of _ _) as [scope|]; [|done].
    case_bool_decide; [done|].
    destruct (Storage.put_matrices _ _ _) as [r d] eqn:Hputs; simpl.
    by eapply put_matrices_well_keyed.
Qed.

Lemma run_well_keyed history : well_keyed (Storage.data (run history)).
Proof.
  unfold run.
  assert (well_keyed (Storage.data unopened)) as Hstart by (by intros ???).
  revert Hstart. generalize unopened.
  induction history as [|op history IH]; intros s Hs; simpl; [done|].
  by apply IH, perform_well_keyed.
Qed.

(** X3: whatever calls are made on a new database, every record that it holds
    is filed under the key that the key path of its store selects in the
    record itself; in particular every record is an object with that key
    property. *)
Theorem records_well_keyed history :
  ∀ storeName k e,
    Storage.records (Storage.data (run history)) storeName !! k = Some e →
    key_of storeName e = Some k ∧ ∃ fields, e = JObj fields.
Proof.
  intros storeName k e He%run_well_keyed. split; [done|].
  unfold key_of, key_value in He.
  destruct (Storage.keyPath_of storeName) as [kp|] eqn:Hkp; simpl in He; [|done].
  apply keyPath_cases in Hkp as [-> | [-> | ->]];
    destruct e; simpl in He; try done; eauto.
Qed.

Lemma records_well_keyed_witness :
  key_of "Cubes" sample_cube = Some (GenLeaf (inl (Fin 1)))
  ∧ ∃ fields, sample_cube = JObj fields.
Proof.
  apply (records_well_keyed [Init; Save sample_cube "Cubes"] "Cubes"
           (GenLeaf (inl (Fin 1))) sample_cube).
  vm_compute. reflexivity.
Defined.

Lemma key_of_object storeName e k :
  key_of storeName e = Some k → ∃ fields, e = JObj fields.
Proof.
  unfold key_of, key_value.
  destruct (Storage.keyPath_of storeName) as [kp|] eqn:Hkp; simpl; [|done].
  apply keyPath_cases in Hkp as [-> | [-> | ->]]; destruct e; simpl; try done; eauto.
Qed.

(** X4: after any history of calls, [get] resolves with undefined exactly when
    the store holds no record under the key, and otherwise with an object
    whose key property is the key that was asked for. *)
Theorem get_answers_for_key history key storeName v :
  Storage.get (run history) key storeName = Ok v →
  ∃ k, Storage.to_key key = Some k
    ∧ (v = JUndef
       ↔ Storage.records (Storage.data (run history)) storeName !! k = None)
    ∧ (v ≠ JUndef →
       key_of storeName v = Some k ∧ ∃ fields, v = JObj fields).
Proof.
  unfold Storage.get.
  destruct (negb (Storage.db (run history))); [done|].
  destruct (Storage.keyPath_of storeName); [|done].
  destruct (Storage.to_key key) as [k|]; [|done]. intros [= <-].
  exists k. split; [done|].
  destruct (Storage.records _ storeName !! k) as [e|] eqn:He; simpl.
  - apply run_well_keyed in He.
    destruct (key_of_object _ _ _ He) as [fields ->].
    split; [done|]. intros _. eauto.
  - done.
Qed.

Lemma get_answers_for_key_witness :
  ∃ k, Storage.to_key (int 1) = Some k
    ∧ (sample_cube = JUndef
       ↔ Storage.records
           (Storage.data (run [Init; Save sample_cube "Cubes"; Close; Init]))
           "Cubes" !! k = None)
    ∧ (sample_cube ≠ JUndef →
       key_of "Cubes" sample_cube = Some k ∧ ∃ fields, sample_cube = JObj fields).
Proof.
  apply (get_answers_for_key [Init; Save sample_cube "Cubes"; Close; Init]
           (int 1) "Cubes" sample_cube).
  vm_compute. reflexivity.
Defined.

(** ** getAllByIndex and getEntitiesInBounds *)

Lemma extract_key_windowUID e k :
  Storage.extract_key "windowUID" e = Some k
  ↔ ∃ w, JS.get_prop e "windowUID" = Ok w ∧ Storage.to_key w = Some k.
Proof.
  unfold Storage.extract_key.
  change (Storage.split_path "windowUID" "") with ["windowUID"].
  destruct e as [| | | | | |fs]; simpl;
    try (split; [done|by intros (w & [= <-] & ?)]).
  destruct (JS.assoc "windowUID" fs) as [w|]; simpl.
  - split; [eauto|]. by intros (? & [= <-] & ?).
  - split; [done|]. by intros (? & [= <-] & ?).
Qed.

Lemma index_windowUID sl :
  Storage.keyPath_of (store_of sl) = Some "id"
  ∧ Storage.index_of (store_of sl) "windowUID" = Some "windowUID".
Proof. by destruct sl. Qed.

(** The records that the [windowUID] index gives for a window. *)
Lemma getAllByIndex_windowUID s sl windowUID kw :
  Storage.db s = true →
  Storage.to_key windowUID = Some kw →
  ∃ l, Storage.getAllByIndex s "windowUID" windowUID (store_of sl) = Ok l
       ∧ ∀ e, e ∈ l ↔ in_window s (store_of sl) kw e.
Proof.
  intros Hdb Hkw. unfold Storage.getAllByIndex. rewrite Hdb; simpl.
  destruct (index_windowUID sl) as [-> ->].
  exists (filter (λ r, Storage.extract_key "windowUID" r = Some kw)
            (map_to_list (Storage.records (Storage.data s) (store_of sl))).*2).
  split; [rewrite Hkw; by destruct windowUID|].
  intros e. rewrite list_elem_of_filter, list_elem_of_fmap, extract_key_windowUID.
  unfold in_window. split.
  - intros [Hw ([k e'] & -> & He%elem_of_map_to_list)]. eauto.
  - intros [[k He] Hw]. split; [done|].
    exists (k, e). by rewrite elem_of_map_to_list.
Qed.

Lemma filterR_throws {A} (p : A → result bool) (l : list A) x :
  (∀ y ex, p y = Throw ex → ex = TypeError) →
  x ∈ l → p x = Throw TypeError → Storage.filterR p l = Throw TypeError.
Proof.
  intros Honly Hx Hpx. induction l as [|a l IH]; [by apply elem_of_nil in Hx|].
  simpl. destruct (p a) as [b|ex] eqn:Ha; simpl.
  - apply elem_of_cons in Hx as [->|Hx]; [congruence|].
    by rewrite (IH Hx).
  - by rewrite (Honly _ _ Ha).
Qed.

Lemma isInBounds_box lo hi pos :
  Storage.isInBounds (box lo hi) pos = Ok true
  ↔ ∃ q, coordinates pos = Some q ∧ in_box lo hi q.
Proof.
  destruct lo as [[l0 l1] l2], hi as [[h0 h1] h2].
  unfold Storage.isInBounds, coordinates, JS.ge_num, JS.le_num; simpl.
  destruct (JS.get_index pos 0) as [v0|]; simpl;
    [|split; [done|by intros (? & ? & ?)]].
  destruct (JS.get_index pos 1) as [v1|]; simpl;
    [|split; [done|by intros (? & ? & ?)]].
  destruct (JS.get_index pos 2) as [v2|]; simpl;
    [|split; [done|by intros (? & ? & ?)]].
  destruct (JS.ToNumber v0) as [| |q0|], (JS.ToNumber v1) as [| |q1|],
    (JS.ToNumber v2) as [| |q2|]; simpl;
    rewrite ?andb_false_r; simpl;
    try (split; [done|by intros (? & ? & ?)]).
  split.
  - intros [= H]. exists (q0, q1, q2). split; [done|].
    repeat (apply andb_prop in H as [H ?]). simpl. lia.
  - intros (q & [= <-] & Hq). simpl in Hq. f_equal.
    repeat (apply andb_true_intro; split); lia.
Qed.

Lemma get_prop_TypeError v name ex : JS.get_prop v name = Throw ex → ex = TypeError.
Proof. destruct v; simpl; by intros [= <-]. Qed.

Lemma get_index_TypeError v i ex : JS.get_index v i = Throw ex → ex = TypeError.
Proof. destruct v; simpl; by intros [= <-]. Qed.

Lemma iterate_TypeError v ex : JS.iterate v = Throw ex → ex = TypeError.
Proof. destruct v; simpl; by intros [= <-]. Qed.

Create HintDb type_error.
#[local] Hint Resolve get_prop_TypeError get_index_TypeError iterate_TypeError
  : type_error.

(** In a goal [(let* x := m in k) = Throw ex → ex = TypeError]: name the
    value of [m]; the case where [m] throws is left to the hints. *)
Ltac throws_TypeError :=
  repeat match goal with
  | |- rbind ?m _ = Throw _ → _ =>
      let H := fresh "H" in
      destruct m eqn:H; cbn [rbind]; [|intros [= <-]; eauto with type_error]
  end; try done.

Lemma position_of_TypeError sl e ex :
  Storage.position_of sl e = Throw ex → ex = TypeError.
Proof.
  unfold Storage.position_of. destruct sl; throws_TypeError;
    eauto with type_error.
Qed.

Lemma in_bounds_TypeError b sl e ex :
  Storage.in_bounds b sl e = Throw ex → ex = TypeError.
Proof.
  unfold Storage.in_bounds, Storage.isInBounds.
  destruct (Storage.min b) as [[??]?], (Storage.max b) as [[??]?].
  destruct (Storage.position_of sl e) eqn:Hpos; cbn [rbind].
  - throws_TypeError.
  - intros [= <-]. by eapply position_of_TypeError.
Qed.

Lemma filterR_TypeError {A} (p : A → result bool) (l : list A) ex :
  (∀ y ex, p y = Throw ex → ex = TypeError) →
  Storage.filterR p l = Throw ex → ex = TypeError.
Proof.
  intros Honly. induction l as [|a l IH]; simpl; [done|].
  destruct (p a) as [b|ex'] eqn:Ha; simpl; [|intros [= <-]; by eapply Honly].
  destruct (Storage.filterR p l); simpl; [done|]. intros [= <-]. by apply IH.
Qed.

Lemma in_bounds_box lo hi sl e :
  Storage.in_bounds (box lo hi) sl e = Ok true
  ↔ ∃ pos q, Storage.position_of sl e = Ok pos
             ∧ coordinates pos = Some q ∧ in_box lo hi q.
Proof.
  unfold Storage.in_bounds.
  destruct (Storage.position_of sl e) as [pos|]; cbn [rbind].
  - rewrite isInBounds_box. split.
    + intros (q & ? & ?). eauto.
    + intros (? & q & [= <-] & ? & ?). eauto.
  - split; [done|]. by intros (? & ? & ? & _).
Qed.

(** What [getEntitiesInBounds] puts in each list: the records that the
    [windowUID] index gives and that pass the bounds test. *)
Lemma getEntitiesInBounds_Ok s b windowUID kw ents :
  Storage.to_key windowUID = Some kw →
  Storage.getEntitiesInBounds s b windowUID = Ok ents →
  Storage.db s = true
  ∧ ∀ sl e, e ∈ Storage.slot_of sl ents
            ↔ in_window s (store_of sl) kw e
              ∧ Storage.in_bounds b sl e = Ok true.
Proof.
  intros Hkw. unfold Storage.getEntitiesInBounds.
  destruct (Storage.db s) eqn:Hdb; simpl; [|done].
  destruct (getAllByIndex_windowUID s Storage.Cubes _ _ Hdb Hkw) as (cs & Hc & Hcs).
  destruct (getAllByIndex_windowUID s Storage.Subcubes _ _ Hdb Hkw) as (ss & Hs & Hss).
  destruct (getAllByIndex_windowUID s Storage.SubcubeVertices _ _ Hdb Hkw)
    as (vs & Hv & Hvs).
  cbn [store_of] in Hc, Hs, Hv. rewrite Hc, Hs, Hv. cbn [rbind].
  case_bind (Storage.filterR (Storage.in_bounds b Storage.Cubes) cs) as cs' Hcs'.
  case_bind (Storage.filterR (Storage.in_bounds b Storage.Subcubes) ss) as ss' Hss'.
  case_bind (Storage.filterR (Storage.in_bounds b Storage.SubcubeVertices) vs)
    as vs' Hvs'.
  intros [= <-]. split; [done|].
  intros [] e; cbn [Storage.slot_of Storage.cubes Storage.subcubes
                     Storage.subcubeVertices].
  - by rewrite (filterR_Ok _ _ _ Hcs'), Hcs.
  - by rewrite (filterR_Ok _ _ _ Hss'), Hss.
  - by rewrite (filterR_Ok _ _ _ Hvs'), Hvs.
Qed.

(** X5: on records whose coordinates are numbers (integers that the program
    holds exactly, infinite or NaN, or undefined, null or a boolean, but no
    string), [getEntitiesInBounds] with a box of finite corners returns
    exactly the records of the three stores that belong to the window and
    whose position has three finite coordinates inside the box, the faces
    included. *)
Theorem getEntitiesInBounds_exact s lo hi windowUID kw ents :
  positions_within (2 ^ 53) s = true →
  Storage.to_key windowUID = Some kw →
  Storage.getEntitiesInBounds s (box lo hi) windowUID = Ok ents →
  ∀ sl e,
    e ∈ Storage.slot_of sl ents
    ↔ in_window s (store_of sl) kw e
      ∧ ∃ pos q, Storage.position_of sl e = Ok pos
                 ∧ position_within (2 ^ 53) pos = true
                 ∧ coordinates pos = Some q ∧ in_box lo hi q.
Proof.
  intros Hstore Hkw Hents sl e.
  destruct (getEntitiesInBounds_Ok _ _ _ _ _ Hkw Hents) as [_ ->].
  rewrite in_bounds_box. split.
  - intros [Hwin (pos & q & Hpos & Hq & Hbox)]. split; [done|].
    exists pos, q. split; [done|]. split; [|done].
    destruct Hwin as [[k Hk] _].
    assert (entity_within (2 ^ 53) sl e = true) as He.
    { apply (positions_within_elem _ s); [done|].
      apply list_elem_of_fmap. exists (k, e). split; [done|].
      by apply elem_of_map_to_list. }
    unfold entity_within in He. by rewrite Hpos in He.
  - intros [Hwin (pos & q & Hpos & _ & Hq & Hbox)]. split; [done|].
    by exists pos, q.
Qed.

Lemma getEntitiesInBounds_exact_witness :
  sample_subcube_at "B" 10 0 0
    ∈ Storage.slot_of Storage.Subcubes
        (entities_or_none
           (Storage.getEntitiesInBounds sample_storage
              (box (0, 0, 0) (10, 10, 10)) (int 1)))
  ↔ in_window sample_storage (store_of Storage.Subcubes) (GenLeaf (inl (Fin 1)))
      (sample_subcube_at "B" 10 0 0)
    ∧ ∃ pos q, Storage.position_of Storage.Subcubes (sample_subcube_at "B" 10 0 0)
               = Ok pos
               ∧ position_within (2 ^ 53) pos = true
               ∧ coordinates pos = Some q ∧ in_box (0, 0, 0) (10, 10, 10) q.
Proof.
  apply (getEntitiesInBounds_exact sample_storage (0, 0, 0) (10, 10, 10) (int 1)).
  - vm_compute. reflexivity.
  - reflexivity.
  - vm_compute. reflexivity.
Defined.

Lemma position_of_validate sl e storeName e' :
  Storage.validate e storeName = Ok e' →
  Storage.position_of sl e' = Storage.position_of sl e.
Proof.
  intros Hv. unfold Storage.position_of.
  destruct sl; by rewrite (validate_props _ _ _ _ Hv).
Qed.

(** X6: an entity that [save] has stored in one of the three stores, with a
    valid key as its [windowUID] and a position of three finite coordinates,
    is in the answer of every later [getEntitiesInBounds] for its window whose
    box holds the position (when that call returns). *)
Theorem saved_entity_in_bounds s sl e s' w kw pos q lo hi ents :
  Storage.save s e (store_of sl) = (Ok tt, s') →
  JS.get_prop e "windowUID" = Ok w →
  Storage.to_key w = Some kw →
  Storage.position_of sl e = Ok pos →
  coordinates pos = Some q →
  in_box lo hi q →
  Storage.getEntitiesInBounds s' (box lo hi) w = Ok ents →
  ∃ stored,
    Storage.validate e (store_of sl) = Ok stored
    ∧ stored ∈ Storage.slot_of sl ents
    ∧ (sl ≠ Storage.SubcubeVertices → stored = e).
Proof.
  intros Hsave Hw Hkw Hpos Hq Hbox Hents.
  apply save_Ok in Hsave as (stored & k & Hdb & Hv & Hk & ->).
  exists stored. split; [done|]. split.
  - destruct (getEntitiesInBounds_Ok _ _ _ _ _ Hkw Hents) as [_ ->].
    split.
    + split.
      * exists k; simpl. by rewrite records_insert_eq, lookup_insert_eq.
      * exists w. by rewrite (validate_props _ _ _ _ Hv).
    + apply in_bounds_box. exists pos, q.
      by rewrite (position_of_validate _ _ _ _ Hv).
  - intros Hsl. eapply validate_other; [|done]. by destruct sl.
Qed.

Lemma saved_entity_in_bounds_witness :
  ∃ stored,
    Storage.validate (sample_subcube_at "A" 0 0 0) (store_of Storage.Subcubes)
    = Ok stored
    ∧ stored ∈ Storage.slot_of Storage.Subcubes
                 (entities_or_none
                    (Storage.getEntitiesInBounds
                       (Storage.save fresh (sample_subcube_at "A" 0 0 0) "Subcubes").2
                       (box (0, 0, 0) (10, 10, 10)) (int 1)))
    ∧ (Storage.Subcubes ≠ Storage.SubcubeVertices
       → stored = sample_subcube_at "A" 0 0 0).
Proof.
  apply (saved_entity_in_bounds fresh Storage.Subcubes (sample_subcube_at "A" 0 0 0)
           (Storage.save fresh (sample_subcube_at "A" 0 0 0) "Subcubes").2
           (int 1) (GenLeaf (inl (Fin 1))) (point (0, 0, 0)) (0, 0, 0)
           (0, 0, 0) (10, 10, 10)).
  - vm_compute. reflexivity.
  - reflexivity.
  - reflexivity.
  - reflexivity.
  - reflexivity.
  - simpl. lia.
  - vm_compute. reflexivity.
Defined.

Lemma positionless_in_bounds b sl e :
  positionless sl e → Storage.in_bounds b sl e = Throw TypeError.
Proof.
  unfold positionless, Storage.in_bounds, Storage.isInBounds.
  destruct (Storage.min b) as [[??]?], (Storage.max b) as [[??]?].
  destruct (Storage.position_of sl e) as [pos|ex] eqn:Hpos; cbn [rbind].
  - by intros [-> | ->].
  - intros _. by rewrite (position_of_TypeError _ _ _ Hpos).
Qed.

(** X7: one record of a window without a position (a Cube without [value], a
    Subcube without [center], a SubcubeVertex without [value]) makes every
    [getEntitiesInBounds] and every [buildSpatialIndex] for that window fail
    with a TypeError, whatever the box. *)
Theorem positionless_record_breaks_queries s sl e windowUID kw :
  Storage.db s = true →
  Storage.to_key windowUID = Some kw →
  in_window s (store_of sl) kw e →
  positionless sl e →
  (∀ b, Storage.getEntitiesInBounds s b windowUID = Throw TypeError)
  ∧ (∀ binSize, Storage.buildSpatialIndex s windowUID binSize = Throw TypeError).
Proof.
  intros Hdb Hkw Hwin Hpos.
  assert (∀ b, Storage.getEntitiesInBounds s b windowUID = Throw TypeError) as Hb.
  { intros b. unfold Storage.getEntitiesInBounds. rewrite Hdb; simpl.
    destruct (getAllByIndex_windowUID s Storage.Cubes _ _ Hdb Hkw) as (cs & Hc & Hcs).
    destruct (getAllByIndex_windowUID s Storage.Subcubes _ _ Hdb Hkw)
      as (ss & Hs & Hss).
    destruct (getAllByIndex_windowUID s Storage.SubcubeVertices _ _ Hdb Hkw)
      as (vs & Hv & Hvs).
    cbn [store_of] in Hc, Hs, Hv. rewrite Hc, Hs, Hv. cbn [rbind].
    pose proof (positionless_in_bounds b sl e Hpos) as Hthrow.
    destruct (Storage.filterR (Storage.in_bounds b Storage.Cubes) cs)
      as [cs'|ex] eqn:Hcs'; cbn [rbind].
    2: { f_equal. eapply filterR_TypeError; [|done]. apply in_bounds_TypeError. }
    destruct (Storage.filterR (Storage.in_bounds b Storage.Subcubes) ss)
      as [ss'|ex] eqn:Hss'; cbn [rbind].
    2: { f_equal. eapply filterR_TypeError; [|done]. apply in_bounds_TypeError. }
    destruct (Storage.filterR (Storage.in_bounds b Storage.SubcubeVertices) vs)
      as [vs'|ex] eqn:Hvs'; cbn [rbind].
    2: { f_equal. eapply filterR_TypeError; [|done]. apply in_bounds_TypeError. }
    exfalso. destruct sl.
    - apply Hcs in Hwin.
      by rewrite (filterR_throws _ _ _ (in_bounds_TypeError b _) Hwin Hthrow) in Hcs'.
    - apply Hss in Hwin.
      by rewrite (filterR_throws _ _ _ (in_bounds_TypeError b _) Hwin Hthrow) in Hss'.
    - apply Hvs in Hwin.
      by rewrite (filterR_throws _ _ _ (in_bounds_TypeError b _) Hwin Hthrow) in Hvs'. }
  split; [done|]. intros binSize. unfold Storage.buildSpatialIndex. by rewrite Hb.
Qed.

Lemma positionless_record_breaks_queries_witness :
  (Storage.save fresh (sample_valid_vertex 3) "SubcubeVertices").1 = Ok tt
  ∧ (∀ b, Storage.getEntitiesInBounds
            (Storage.save fresh (sample_valid_vertex 3) "SubcubeVertices").2
            b (int 1) = Throw TypeError)
  ∧ (∀ binSize, Storage.buildSpatialIndex
                  (Storage.save fresh (sample_valid_vertex 3) "SubcubeVertices").2
                  (int 1) binSize = Throw TypeError).
Proof.
  split; [vm_compute; reflexivity|].
  apply (positionless_record_breaks_queries
           (Storage.save fresh (sample_valid_vertex 3) "SubcubeVertices").2
           Storage.SubcubeVertices
           (JS.set_prop (sample_valid_vertex 3) "proximityPadding" (int 3))
           (int 1) (GenLeaf (inl (Fin 1)))).
  - vm_compute. reflexivity.
  - reflexivity.
  - split.
    + exists (GenLeaf (inr "v0")). vm_compute. reflexivity.
    + exists (int 1). split; reflexivity.
  - vm_compute. exact I.
Defined.

(** ** Building the spatial index *)





Lemma index_all_nonempty binSize sl es :
  ∀ bins bins' : gmap string Storage.entities,
    (∀ key bin, bins !! key = Some bin → ∃ sl e, e ∈ Storage.slot_of sl bin) →
    Storage.index_all binSize sl es bins = Ok bins' →
    ∀ key bin, bins' !! key = Some bin → ∃ sl e, e ∈ Storage.slot_of sl bin.
Proof.
  induction es as [|e es IH]; intros bins bins' Hbins; simpl.
  - by intros [= <-].
  - case_bind (Storage.index_entity binSize sl bins e) as bins1 H1.
    apply IH. intros key bin.
    apply index_entity_Ok in H1 as (pos & coords & old & _ & _ & _ & ->).
    destruct (decide (Storage.getBinKey coords = key)) as [<-|Hne].
    + rewrite lookup_insert_eq. intros [= <-]. exists sl, e.
      apply slot_of_push. right. split; [done|]. by apply list_elem_of_singleton.
    + rewrite lookup_insert_ne by done. apply Hbins.
Qed.

(** X9: in the index that [buildSpatialIndex] returns no bin is empty, every
    entity sits in the bin that is named after the cell of its position, and
    so in no other bin. *)
Theorem buildSpatialIndex_bins s windowUID binSize idx :
  Storage.buildSpatialIndex s windowUID binSize = Ok idx →
  (∀ key bin, Storage.bins idx !! key = Some bin →
              ∃ sl e, e ∈ Storage.slot_of sl bin)
  ∧ (∀ key bin sl e,
       Storage.bins idx !! key = Some bin → e ∈ Storage.slot_of sl bin →
       ∃ pos coords,
         Storage.position_of sl e = Ok pos
         ∧ Storage.getBinCoords binSize pos = Ok coords
         ∧ Storage.getBinKey coords = key)
  ∧ (∀ key1 bin1 key2 bin2 sl e,
       Storage.bins idx !! key1 = Some bin1 → e ∈ Storage.slot_of sl bin1 →
       Storage.bins idx !! key2 = Some bin2 → e ∈ Storage.slot_of sl bin2 →
       key1 = key2).
Proof.
  intros Hidx.
  destruct (buildSpatialIndex_spec _ _ _ _ Hidx) as (ents & _ & _ & Hinv & _).
  split; [|split].
  - unfold Storage.buildSpatialIndex in Hidx.
    destruct (Storage.getEntitiesInBounds s Storage.everywhere windowUID)
      as [ents'|]; cbn [rbind] in Hidx; [|done].
    destruct (Storage.index_all binSize Storage.Cubes _ ∅) as [b1|] eqn:H1;
      cbn [rbind] in Hidx; [|done].
    destruct (Storage.index_all binSize Storage.Subcubes _ b1) as [b2|] eqn:H2;
      cbn [rbind] in Hidx; [|done].
    destruct (Storage.index_all binSize Storage.SubcubeVertices _ b2) as [b3|] eqn:H3;
      cbn [rbind] in Hidx; [|done].
    injection Hidx as <-. simpl.
    eapply index_all_nonempty; [|done].
    eapply index_all_nonempty; [|done].
    eapply index_all_nonempty; [|done].
    intros key bin. by rewrite lookup_empty.
  - apply Hinv.
  - intros key1 bin1 key2 bin2 sl e Hb1 He1 Hb2 He2.
    destruct (Hinv _ _ _ _ Hb1 He1) as (pos1 & c1 & Hp1 & Hc1 & <-).
    destruct (Hinv _ _ _ _ Hb2 He2) as (pos2 & c2 & Hp2 & Hc2 & <-).
    congruence.
Qed.

Lemma buildSpatialIndex_bins_witness :
  (∀ key bin, Storage.bins (sample_index 50) !! key = Some bin →
              ∃ sl e, e ∈ Storage.slot_of sl bin)
  ∧ (∀ key bin sl e,
       Storage.bins (sample_index 50) !! key = Some bin →
       e ∈ Storage.slot_of sl bin →
       ∃ pos coords,
         Storage.position_of sl e = Ok pos
         ∧ Storage.getBinCoords (Fin 50) pos = Ok coords
         ∧ Storage.getBinKey coords = key)
  ∧ (∀ key1 bin1 key2 bin2 sl e,
       Storage.bins (sample_index 50) !! key1 = Some bin1 →
       e ∈ Storage.slot_of sl bin1 →
       Storage.bins (sample_index 50) !! key2 = Some bin2 →
       e ∈ Storage.slot_of sl bin2 →
       key1 = key2).
Proof.
  apply (buildSpatialIndex_bins sample_storage (int 1) (Fin 50) (sample_index 50)).
  vm_compute. reflexivity.
Defined.

(** ** Queries on an index with bins of size zero *)



(** ** updateCubeHierarchy: what is written when a request fails *)

Lemma puts_app (d : gmap string (gmap (gen_tree (num + string)) jsval))
    (l1 l2 : list (string * jsval)) :
  Storage.puts d (l1 ++ l2)%list
  = match Storage.puts d l1 with
    | (Ok _, d1) => Storage.puts d1 l2
    | (Throw ex, d1) => (Throw ex, d1)
    end.
Proof.
  revert d. induction l1 as [|[storeName e] l1 IH]; intros d; simpl; [done|].
  by destruct (Storage.put d storeName e).
Qed.

Lemma requests_of_store cubeData storeName e :
  (storeName, e) ∈ Storage.requests_of cubeData →
  storeName ∈ ["Cubes"; "Subcubes"; "SubcubeVertices"; "CubeVertices"].
Proof.
  unfold Storage.requests_of.
  rewrite !elem_of_app, !list_elem_of_fmap, list_elem_of_singleton.
  intros [[= -> _] | [(? & [= -> _] & _) | [(? & [= -> _] & _) | (? & [= -> _] & _)]]];
    set_solver.
Qed.

Lemma put_keyless d storeName e :
  is_Some (Storage.keyPath_of storeName) →
  key_of storeName e = None →
  Storage.put d storeName e = Throw DataError.
Proof.
  unfold Storage.put, key_of, key_value, Storage.extract_key.
  intros [kp ->]; simpl. by intros ->.
Qed.

(** X11: [updateCubeHierarchy] is not atomic.  When an entity of the bundle
    has no valid key, the call fails with the DataError of that [put], and the
    entities placed before it (the cube first, then the subcubes, the subcube
    vertices and the cube vertices, in this order) are written all the same:
    [get] finds them afterwards. *)
Theorem updateCubeHierarchy_partial_write s cubeData before storeName e after :
  Storage.db s = true →
  Storage.requests_of cubeData = (before ++ (storeName, e) :: after)%list →
  (∀ name x, (name, x) ∈ before → is_Some (key_of name x)) →
  key_of storeName e = None →
  ∃ s', Storage.updateCubeHierarchy s cubeData = (Throw DataError, s')
    ∧ ∀ name x, (name, x) ∈ before →
        ∃ key stored,
          key_value name x = Some key
          ∧ Storage.get s' key name = Ok stored
          ∧ (name, stored) ∈ before
          ∧ key_of name stored = key_of name x.
Proof.
  intros Hdb Hreq Hkeys Hnone. unfold Storage.updateCubeHierarchy.
  rewrite Hdb, Hreq, puts_app. cbn [negb].
  destruct (puts_Ok _ (Storage.data s) Hkeys) as (d' & -> & Hd').
  simpl. rewrite put_keyless; [|
    |done].
  2: { assert (storeName ∈ ["Cubes"; "Subcubes"; "SubcubeVertices"; "CubeVertices"])
         as Hs.
       { apply (requests_of_store cubeData storeName e). rewrite Hreq.
         apply elem_of_app. right. left. }
       repeat (apply elem_of_cons in Hs as [->|Hs]; [by eexists|]).
       by apply elem_of_nil in Hs. }
  eexists. split; [done|]. intros name x Hin.
  destruct (Hkeys _ _ Hin) as [k Hk].
  destruct (written_elem _ _ _ _ (Storage.records (Storage.data s) name !! k)
              Hin Hk) as (stored & Hw & Hin' & Hk').
  pose proof Hk as Hkv. unfold key_of in Hkv.
  destruct (key_value name x) as [key|] eqn:Hkey; [|done]. simpl in Hkv.
  exists key, stored. split; [done|]. split.
  { rewrite (get_opened _ key name k); simpl; try done.
    - by rewrite Hd', Hw.
    - unfold key_value in Hkey. by destruct (Storage.keyPath_of name). }
  split; [done|congruence].
Qed.

Lemma updateCubeHierarchy_partial_write_witness :
  ∃ s',
    Storage.updateCubeHierarchy fresh
      {| Storage.CubeData.cube := sample_cube;
         Storage.CubeData.subcubes := Some [sample_subcube];
         Storage.CubeData.subcubeVertices :=
           Some [JObj [("value", JArr [])]; sample_subcubeVertex "11"];
         Storage.CubeData.cubeVertices := None |}
    = (Throw DataError, s')
    ∧ ∀ name x, (name, x) ∈ [("Cubes", sample_cube); ("Subcubes", sample_subcube)] →
        ∃ key stored,
          key_value name x = Some key
          ∧ Storage.get s' key name = Ok stored
          ∧ (name, stored) ∈ [("Cubes", sample_cube); ("Subcubes", sample_subcube)]
          ∧ key_of name stored = key_of name x.
Proof.
  apply (updateCubeHierarchy_partial_write fresh _
           [("Cubes", sample_cube); ("Subcubes", sample_subcube)]
           "SubcubeVertices" (JObj [("value", JArr [])])
           [("SubcubeVertices", sample_subcubeVertex "11")]).
  - reflexivity.
  - reflexivity.
  - intros name x Hin.
    apply elem_of_cons in Hin as [[= -> ->]|Hin]; [by eexists|].
    apply list_elem_of_singleton in Hin as [= -> ->]. by eexists.
  - reflexivity.
Defined.

Lemma puts_other_store requests storeName :
  ∀ (d : gmap string (gmap (gen_tree (num + string)) jsval)) r d',
    (∀ name e, (name, e) ∈ requests → name ≠ storeName) →
    Storage.puts d requests = (r, d') →
    Storage.records d' storeName = Storage.records d storeName.
Proof.
  induction requests as [|[name e] rest IH]; intros d r d' Hother; simpl.
  - by intros [= _ <-].
  - destruct (Storage.put d name e) as [d1|ex] eqn:Hput; [|by intros [= _ <-]].
    intros Hputs.
    rewrite (IH d1 r d'); [|intros name' e' ?; apply (Hother name' e'); by right|done].
    apply put_Ok in Hput as (k & _ & ->).
    apply records_insert_ne, (Hother name e). left.
Qed.

(** X12: [updateCubeHierarchy] writes to the stores Cubes, Subcubes,
    SubcubeVertices and CubeVertices only: whether it succeeds or fails, the
    records of every other store (the three matrix stores, BlendingLogic,
    ZAxisConfig) are as before. *)
Theorem updateCubeHierarchy_other_stores s cubeData r s' storeName :
  Storage.updateCubeHierarchy s cubeData = (r, s') →
  storeName ∉ ["Cubes"; "Subcubes"; "SubcubeVertices"; "CubeVertices"] →
  Storage.db s' = Storage.db s
  ∧ Storage.records (Storage.data s') storeName
    = Storage.records (Storage.data s) storeName
  ∧ ∀ key, Storage.get s' key storeName = Storage.get s key storeName.
Proof.
  unfold Storage.updateCubeHierarchy. intros Hup Hother.
  assert (Storage.db s' = Storage.db s
          ∧ Storage.records (Storage.data s') storeName
            = Storage.records (Storage.data s) storeName) as [Hdb Hrec].
  { destruct (negb (Storage.db s)); [by simplify_eq|].
    destruct (Storage.puts _ _) as [r' d] eqn:Hputs. simplify_eq; simpl.
    split; [done|]. eapply puts_other_store; [|done].
    intros name e Hin ->. by apply Hother, (requests_of_store cubeData _ e). }
  split; [done|]. split; [done|]. intros key.
  unfold Storage.get. by rewrite Hdb, Hrec.
Qed.

Lemma updateCubeHierarchy_other_stores_witness :
  Storage.db (Storage.updateCubeHierarchy fresh sample_bundle).2 = Storage.db fresh
  ∧ Storage.records (Storage.data (Storage.updateCubeHierarchy fresh sample_bundle).2)
      "CubeMatrix"
    = Storage.records (Storage.data fresh) "CubeMatrix"
  ∧ ∀ key, Storage.get (Storage.updateCubeHierarchy fresh sample_bundle).2 key
             "CubeMatrix"
           = Storage.get fresh key "CubeMatrix".
Proof.
  apply (updateCubeHierarchy_other_stores fresh sample_bundle (Ok tt)).
  - vm_compute. reflexivity.
  - intros H. repeat (apply elem_of_cons in H as [[=]|H]). by apply elem_of_nil in H.
Defined.

(** ** batchUpdateMatrices *)

Lemma is_string_spec v t : Storage.is_string v t = true ↔ v = JStr t.
Proof.
  destruct v; simpl; try (split; [done|by intros [=]]).
  rewrite String.eqb_eq. split; [by intros ->|by intros [= ->]].
Qed.

(** The store names that one update adds to the set. *)
Lemma add_storeName_spec (acc : gset string) update type :
  JS.get_prop update "type" = Ok type →
  ∃ acc', Storage.add_storeName acc update = Ok acc'
          ∧ ∀ t, t ∈ acc' ↔ t ∈ acc ∨ (t ∈ matrix_stores ∧ type = JStr t).
Proof.
  intros Htype. unfold Storage.add_storeName. rewrite Htype; cbn [rbind].
  eexists. split; [done|]. intros t. unfold matrix_stores.
  rewrite !elem_of_cons, elem_of_nil.
  destruct (Storage.is_string type "CubeMatrix") eqn:H1;
    destruct (Storage.is_string type "SubcubeMatrix") eqn:H2;
    destruct (Storage.is_string type "BackgroundMatrix") eqn:H3;
    rewrite ?is_string_spec in *;
    repeat match goal with
           | H : Storage.is_string _ _ = false |- _ =>
               apply not_true_iff_false in H; rewrite is_string_spec in H
           end;
    subst; try discriminate;
    rewrite ?elem_of_union, ?elem_of_singleton;
    intuition (subst; try congruence; auto).
Qed.

Lemma storeNames_of_spec matrixUpdates :
  ∀ acc : gset string,
    (∀ update, update ∈ matrixUpdates →
               ∃ type, JS.get_prop update "type" = Ok type) →
    ∃ scope, Storage.storeNames_of acc matrixUpdates = Ok scope
      ∧ ∀ t, t ∈ scope
             ↔ t ∈ acc
               ∨ (t ∈ matrix_stores
                  ∧ ∃ update, update ∈ matrixUpdates
                              ∧ JS.get_prop update "type" = Ok (JStr t)).
Proof.
  induction matrixUpdates as [|update rest IH]; intros acc Hall; simpl.
  - exists acc. split; [done|]. intros t. split; [auto|].
    intros [|(_ & ? & []%elem_of_nil & _)]; done.
  - destruct (Hall update) as [type Htype]; [left|].
    destruct (add_storeName_spec acc update type Htype) as (acc' & -> & Hacc').
    cbn [rbind].
    destruct (IH acc') as (scope & -> & Hscope).
    { intros u Hu. apply Hall. by right. }
    exists scope. split; [done|]. intros t. rewrite Hscope, Hacc'. split.
    + intros [[|[? ->]]|(? & u & ? & ?)]; [by left|..].
      * right. split; [done|]. exists update. split; [left|done].
      * right. split; [done|]. exists u. split; [by right|done].
    + intros [|(? & u & [->|?]%elem_of_cons & Hu)]; [by left; left|..].
      * left. right. split; [done|]. congruence.
      * right. eauto.
Qed.

(** X13: a call without updates, or whose updates name none of the three
    matrix stores by a string [type], opens a transaction over no store:
    [db.transaction] throws, the call is rejected with an InvalidAccessError
    and nothing is written. *)
Theorem batchUpdateMatrices_empty_scope s matrixUpdates :
  Storage.db s = true →
  (∀ update, update ∈ matrixUpdates →
     ∃ type, JS.get_prop update "type" = Ok type
             ∧ ∀ t, t ∈ matrix_stores → type ≠ JStr t) →
  Storage.batchUpdateMatrices s matrixUpdates = (Storage.RejectsInvalidAccess, s).
Proof.
  intros Hdb Hall. unfold Storage.batchUpdateMatrices. rewrite Hdb; cbn [negb].
  destruct (storeNames_of_spec matrixUpdates ∅) as (scope & -> & Hscope).
  { intros update Hu. destruct (Hall _ Hu) as (type & ? & _). eauto. }
  rewrite bool_decide_eq_true_2; [done|].
  apply elem_of_equiv_empty_L. intros t [[]%elem_of_empty|(Ht & u & Hu & Htype)]%Hscope.
  destruct (Hall _ Hu) as (type & Htype' & Hne).
  apply (Hne t Ht). congruence.
Qed.

Lemma batchUpdateMatrices_empty_scope_witness :
  Storage.batchUpdateMatrices fresh [] = (Storage.RejectsInvalidAccess, fresh)
  ∧ Storage.batchUpdateMatrices fresh
      [JObj [("type", JStr "Cubes"); ("matrix", sample_cube)]]
    = (Storage.RejectsInvalidAccess, fresh).
Proof.
  split.
  - apply (batchUpdateMatrices_empty_scope fresh []); [reflexivity|].
    intros update H. by apply elem_of_nil in H.
  - apply (batchUpdateMatrices_empty_scope fresh
             [JObj [("type", JStr "Cubes"); ("matrix", sample_cube)]]);
      [reflexivity|].
    intros update ->%list_elem_of_singleton. exists (JStr "Cubes").
    split; [reflexivity|]. intros t Ht.
    repeat (apply elem_of_cons in Ht as [->|Ht]; [done|]).
    by apply elem_of_nil in Ht.
Defined.





Lemma storeNames_of_matrix_stores matrixUpdates :
  ∀ (acc scope : gset string),
    Storage.storeNames_of acc matrixUpdates = Ok scope →
    ∀ t, t ∈ scope → t ∈ acc ∨ t ∈ matrix_stores.
Proof.
  induction matrixUpdates as [|update rest IH]; intros acc scope; simpl.
  - intros [= <-] t. auto.
  - case_bind (Storage.add_storeName acc update) as acc' Hacc'.
    intros Hscope t Ht. destruct (IH _ _ Hscope t Ht) as [Ht'|]; [|by right].
    unfold Storage.add_storeName in Hacc'.
    destruct (JS.get_prop update "type") as [type|] eqn:Htype; [|done].
    destruct (add_storeName_spec acc update type Htype) as (acc2 & Heq & Hspec).
    unfold Storage.add_storeName in Heq. rewrite Htype in Heq.
    rewrite Heq in Hacc'. injection Hacc' as <-.
    apply Hspec in Ht'. tauto.
Qed.

Lemma put_matrices_other_store scope matrixUpdates storeName :
  storeName ∉ scope →
  ∀ (d : gmap string (gmap (gen_tree (num + string)) jsval)) r d',
    Storage.put_matrices scope d matrixUpdates = (r, d') →
    Storage.records d' storeName = Storage.records d storeName.
Proof.
  intros Hout. induction matrixUpdates as [|update rest IH]; intros d r d'; simpl.
  - by intros [= _ <-].
  - destruct (Storage.put_matrix scope d update) as [d1|ex] eqn:Hput;
      [|by intros [= _ <-]].
    intros Hputs. rewrite (IH _ _ _ Hputs).
    unfold Storage.put_matrix in Hput.
    destruct (JS.get_prop update "type") as [type|]; cbn [rbind] in Hput; [|done].
    case_bool_decide as Hin; [|done].
    destruct (JS.get_prop update "matrix") as [matrix|]; cbn [rbind] in Hput; [|done].
    apply put_Ok in Hput as (k & _ & ->).
    apply records_insert_ne. intros Heq. apply Hout. by rewrite <- Heq.
Qed.

(** X15: [batchUpdateMatrices] writes to the three matrix stores only: an
    update that names another store (Cubes, say) is never written, and whether
    the call resolves or is rejected, the records of every other store are as
    before. *)
Theorem batchUpdateMatrices_other_stores s matrixUpdates r s' storeName :
  Storage.batchUpdateMatrices s matrixUpdates = (r, s') →
  storeName ∉ matrix_stores →
  Storage.db s' = Storage.db s
  ∧ Storage.records (Storage.data s') storeName
    = Storage.records (Storage.data s) storeName
  ∧ ∀ key, Storage.get s' key storeName = Storage.get s key storeName.
Proof.
  unfold Storage.batchUpdateMatrices. intros Hbatch Hother.
  assert (Storage.db s' = Storage.db s
          ∧ Storage.records (Storage.data s') storeName
            = Storage.records (Storage.data s) storeName) as [Hdb Hrec].
  { destruct (negb (Storage.db s)); [by simplify_eq|].
    destruct (Storage.storeNames_of ∅ matrixUpdates) as [scope|] eqn:Hscope;
      [|by simplify_eq].
    case_bool_decide; [by simplify_eq|].
    destruct (Storage.put_matrices _ _ _) as [r' d] eqn:Hputs. simplify_eq; simpl.
    split; [done|]. eapply put_matrices_other_store; [|done].
    intros Hin.
    destruct (storeNames_of_matrix_stores _ _ _ Hscope _ Hin) as [[]%elem_of_empty|];
      done. }
  split; [done|]. split; [done|]. intros key.
  unfold Storage.get. by rewrite Hdb, Hrec.
Qed.

Lemma batchUpdateMatrices_other_stores_witness :
  Storage.db
    (Storage.batchUpdateMatrices fresh
       [JObj [("type", JStr "CubeMatrix"); ("matrix", JObj [("id", int 1)])];
        JObj [("type", JStr "Cubes"); ("matrix", sample_cube)]]).2
  = Storage.db fresh
  ∧ Storage.records
      (Storage.data
         (Storage.batchUpdateMatrices fresh
            [JObj [("type", JStr "CubeMatrix"); ("matrix", JObj [("id", int 1)])];
             JObj [("type", JStr "Cubes"); ("matrix", sample_cube)]]).2)
      "Cubes"
    = Storage.records (Storage.data fresh) "Cubes"
  ∧ ∀ key,
      Storage.get
        (Storage.batchUpdateMatrices fresh
           [JObj [("type", JStr "CubeMatrix"); ("matrix", JObj [("id", int 1)])];
            JObj [("type", JStr "Cubes"); ("matrix", sample_cube)]]).2
        key "Cubes"
      = Storage.get fresh key "Cubes".
Proof.
  apply (batchUpdateMatrices_other_stores fresh
           [JObj [("type", JStr "CubeMatrix"); ("matrix", JObj [("id", int 1)])];
            JObj [("type", JStr "Cubes"); ("matrix", sample_cube)]]
           (Storage.Rejects NotFoundError)).
  - vm_compute. reflexivity.
  - intros H. repeat (apply elem_of_cons in H as [[=]|H]). by apply elem_of_nil in H.
Defined.

(** ** The blend strategies, continued *)

(** X16: [calculateProximityPadding] never returns a negative number, returns
    a weight that is not below zero as it is, and applying it twice is the
    same as applying it once. *)
Theorem calculateProximityPadding_nonnegative weight :
  JS.lt_num (Utils.calculateProximityPadding weight) (Fin 0) = false
  ∧ (JS.ge_num weight (Fin 0) = true →
     Utils.calculateProximityPadding weight = weight)
  ∧ Utils.calculateProximityPadding (Utils.calculateProximityPadding weight)
    = Utils.calculateProximityPadding weight.
Proof.
  unfold Utils.calculateProximityPadding, JS.lt_num, JS.ge_num, JS.neg.
  destruct (num_le (Fin 0) (JS.ToNumber weight)) eqn:Hle.
  - rewrite Hle. split; [|done].
    destruct (JS.ToNumber weight) as [| |z|]; simpl in *; try done.
    apply Z.leb_le in Hle. apply Z.ltb_ge. lia.
  - split; [|split; [done|]].
    + destruct (JS.ToNumber weight) as [| |z|]; simpl in *; try done.
      apply Z.leb_gt in Hle. apply Z.ltb_ge. lia.
    + destruct (JS.ToNumber weight) as [| |z|]; simpl in *; try done.
      apply Z.leb_gt in Hle. destruct (Z.leb_spec 0 (- z)); [done|lia].
Qed.

(** ** The painter, continued *)

Lemma Map_get_set_ne m k k' b :
  k ≠ k' → Painter.Map_get (Painter.Map_set m k b) k' = Painter.Map_get m k'.
Proof.
  intros Hne. induction m as [|[k0 b0] m IH]; simpl.
  - by destruct (String.eqb_spec k k').
  - destruct (String.eqb_spec k0 k) as [->|Hk]; simpl.
    + by destruct (String.eqb_spec k k').
    + by rewrite IH.
Qed.

Lemma foldR_TypeError {A S} (f : S → A → result S) (l : list A) :
  (∀ s x ex, f s x = Throw ex → ex = TypeError) →
  ∀ s ex, Painter.foldR f l s = Throw ex → ex = TypeError.
Proof.
  intros Honly. induction l as [|x l IH]; intros s ex; simpl; [done|].
  destruct (f s x) as [s'|ex'] eqn:Hf; cbn [rbind].
  - apply IH.
  - intros [= <-]. by eapply Honly.
Qed.

Lemma part_TypeError vertex i ex : Painter.part vertex i = Throw ex → ex = TypeError.
Proof.
  unfold Painter.part. throws_TypeError.
  destruct (JS.truthy _); [done|]. throws_TypeError. eauto with type_error.
Qed.

Lemma vertices_of_TypeError item ex :
  Painter.vertices_of item = Throw ex → ex = TypeError.
Proof.
  unfold Painter.vertices_of. throws_TypeError.
  destruct (JS.truthy _); [eauto with type_error|]. throws_TypeError.
  repeat case_match; by intros [= <-].
Qed.

Lemma findFarthestDepth_TypeError data ex :
  Painter.findFarthestDepth data = Throw ex → ex = TypeError.
Proof.
  apply foldR_TypeError. intros maxZ item ex'.
  destruct (Painter.vertices_of item) as [vertices|] eqn:Hvs; cbn [rbind].
  - apply foldR_TypeError. intros maxZ' vertex ex''.
    destruct (Painter.part vertex 1) as [position|] eqn:Hpos; cbn [rbind].
    + throws_TypeError.
    + intros [= <-]. by eapply part_TypeError.
  - intros [= <-]. by eapply vertices_of_TypeError.
Qed.

Section PaintingMore.

Variable interpolate : jsval → jsval → jsval → jsval → jsval → result jsval.

(** X18: the objects that the model classes build cannot be painted:
    [createBins] fails with a TypeError as soon as the data holds a Subcube of
    [models.js] (it has no [value] to read [value[2]] from) or a Cube of
    [models.js] built from a CubeVertex (its nested vertices are arrays, which
    have no [valueArray]). *)
Theorem createBins_model_entities p data isBackground item :
  item ∈ data →
  is_model_Subcube item ∨ is_model_Cube item →
  Painter.createBins interpolate p data isBackground = Throw TypeError.
Proof.
  intros Hitem Hmodel.
  assert (∃ ex, Painter.findFarthestDepth data = Throw ex) as [ex Hex].
  { apply (foldR_throws _ _ item Hitem). intros maxZ.
    destruct Hmodel as [(? & ? & ? & ? & ? & ? & ? & ? & ->) | Hcube].
    - by eexists.
    - destruct Hcube as (? & ? & ? & ? & ? & ? & ? & ? & ? & ? & vs & Hcube).
      unfold Models.Cube in Hcube. simpl in Hcube.
      destruct (Models.map_valueArray vs) as [arrays|]; simpl in Hcube; [|done].
      injection Hcube as <-. by eexists. }
  unfold Painter.createBins. rewrite Hex; cbn [rbind].
  by rewrite (findFarthestDepth_TypeError _ _ Hex).
Qed.

End PaintingMore.

Lemma createBins_model_entities_witness :
  Painter.createBins (λ _ _ _ _ _, Ok JUndef) Painter.new
    [sample_cube; sample_subcube] false
  = Throw TypeError.
Proof.
  apply (createBins_model_entities (λ _ _ _ _ _, Ok JUndef) Painter.new
           [sample_cube; sample_subcube] false sample_subcube).
  - right. left.
  - left. by repeat eexists.
Defined.

Lemma num_le_NaN_r a : num_le a NaN = false.
Proof. by destruct a. Qed.

Lemma num_max_cases a b : num_max a b = NaN ∨ num_max a b = a ∨ num_max a b = b.
Proof.
  destruct a as [| |x|], b as [| |y|]; simpl; auto.
  destruct (x <=? y); auto.
Qed.

Lemma foldR_invariant {A S} (f : S → A → result S) (Inv : S → Prop) (l : list A) :
  (∀ s x s', Inv s → f s x = Ok s' → Inv s') →
  ∀ s s', Inv s → Painter.foldR f l s = Ok s' → Inv s'.
Proof.
  intros Hstep. induction l as [|x l IH]; intros s s' Hs; simpl.
  - by intros [= <-].
  - case_bind (f s x) as s1 H1. apply IH. by eapply Hstep.
Qed.

Section PaintingEdges.

Variable interpolate : jsval → jsval → jsval → jsval → jsval → result jsval.

(** A vertex that is not farther than [maxDepth] and whose weight cannot be
    read makes the loop body throw, whatever the bins. *)
Lemma paint_throws_part p isBackground maxDepth vertex position z :
  Painter.part vertex 1 = Ok position →
  JS.get_index position 2 = Ok z →
  num_le (JS.ToNumber z) maxDepth = true →
  (∃ ex, Painter.part vertex 2 = Throw ex) →
  ∀ bins, ∃ ex,
    Painter.paint interpolate p isBackground maxDepth bins vertex = Throw ex.
Proof.
  intros Hpos Hz Hle [ex Hweight] bins.
  unfold Painter.paint. rewrite Hpos; cbn [rbind].
  destruct (JS.iterate position) as [xyz|] eqn:Hxyz; cbn [rbind]; [|by eexists].
  rewrite (iterate_index _ _ 2 Hxyz) in Hz. injection Hz as <-.
  unfold JS.le_num. rewrite (num_le_succ _ _ Hle).
  set (binKey := if isBackground then _ else _).
  destruct (match Painter.Map_get bins binKey with
            | Some _ => Ok bins
            | None => _
            end) as [bins1|]; cbn [rbind]; [|by eexists].
  destruct (Painter.logic_of vertex) as [logic|]; cbn [rbind]; [|by eexists].
  destruct (Painter.Map_get bins1 binKey) as [b|]; [|by eexists].
  destruct (Painter.part vertex 0) as [color2|]; cbn [rbind]; [|by eexists].
  rewrite Hweight; cbn [rbind]. by eexists.
Qed.

(** X19: [createBins] fails on a vertex [{valueArray: [color, position,
    weight, logic]}] whose weight is 0 (or falsy in another way): the painter
    reads the weight as [vertex.valueArray[2] || vertex.value[2]], and the
    vertex has no [value].  (Unless the farthest depth is NaN, when no vertex
    is blended.) *)
Theorem createBins_falsy_weight p data isBackground item vertices
    color position weight logic :
  item ∈ data →
  Painter.vertices_of item = Ok vertices →
  flat_vertex color position weight logic ∈ vertices →
  JS.truthy weight = false →
  Painter.findFarthestDepth data ≠ Ok NaN →
  ∃ ex, Painter.createBins interpolate p data isBackground = Throw ex.
Proof.
  intros Hitem Hvs Hvertex Hweight Hmax.
  unfold Painter.createBins.
  destruct (Painter.findFarthestDepth data) as [maxDepth|ex] eqn:Hdepth;
    cbn [rbind]; [|by exists ex].
  assert (maxDepth ≠ NaN) as Hnum by congruence.
  destruct (findFarthestDepth_upper _ _ Hdepth Hnum _ _ _ Hitem Hvs Hvertex)
    as (pos & z & Hpos & Hz & Hle).
  apply (foldR_throws _ data item Hitem). intros bins.
  rewrite Hvs; cbn [rbind].
  apply (foldR_throws _ vertices _ Hvertex).
  eapply paint_throws_part; try done.
  exists TypeError. unfold Painter.part, flat_vertex. simpl. by rewrite Hweight.
Qed.

(** X20: when the farthest depth is NaN (some vertex has a depth that is not a
    number), the depth test [z <= maxDepth + 1] fails for every vertex:
    [createBins] blends nothing, and every bin it returns is inactive and
    holds a copy of the ambient value. *)
Theorem NaN_depth_blends_nothing p data isBackground bins :
  Painter.findFarthestDepth data = Ok NaN →
  Painter.createBins interpolate p data isBackground = Ok bins →
  ∀ key b, Painter.Map_get bins key = Some b →
    Painter.active b = false
    ∧ ∃ ambient, JS.iterate (Painter.ambientValue p) = Ok ambient
                 ∧ Painter.color b = JArr ambient.
Proof.
  intros Hdepth. unfold Painter.createBins. rewrite Hdepth; cbn [rbind].
  set (Inv := λ bins : Painter.Map,
    ∀ key b, Painter.Map_get bins key = Some b →
      Painter.active b = false
      ∧ ∃ ambient, JS.iterate (Painter.ambientValue p) = Ok ambient
                   ∧ Painter.color b = JArr ambient).
  apply (foldR_invariant _ Inv); [|done].
  intros bins0 item bins1 Hinv.
  case_bind (Painter.vertices_of item) as vertices Hvs.
  apply (foldR_invariant _ Inv); [|done].
  clear bins0 bins1 Hinv. intros bins0 vertex bins1 Hinv. unfold Painter.paint.
  case_bind (Painter.part vertex 1) as position Hpos.
  case_bind (JS.iterate position) as xyz Hxyz.
  unfold JS.le_num. simpl num_add. rewrite num_le_NaN_r.
  set (binKey := if isBackground then _ else _).
  destruct (Painter.Map_get bins0 binKey) as [b0|] eqn:Hget; cbn [rbind].
  - by intros [= <-].
  - case_bind (JS.iterate (Painter.ambientValue p)) as ambient Hambient.
    intros [= <-] key b.
    destruct (decide (binKey = key)) as [<-|Hne].
    + rewrite Map_get_set_eq. intros [= <-]. simpl. eauto.
    + rewrite Map_get_set_ne by done. apply Hinv.
Qed.

End PaintingEdges.

Lemma le_num_farthest data maxDepth item vertices vertex position xyz :
  Painter.findFarthestDepth data = Ok maxDepth →
  maxDepth ≠ NaN →
  item ∈ data →
  Painter.vertices_of item = Ok vertices →
  vertex ∈ vertices →
  Painter.part vertex 1 = Ok position →
  JS.iterate position = Ok xyz →
  JS.le_num (nth 2 xyz JUndef) (num_add maxDepth (Fin 1)) = true.
Proof.
  intros Hdepth Hnum Hitem Hvs Hvertex Hpos Hxyz.
  destruct (findFarthestDepth_upper _ _ Hdepth Hnum _ _ _ Hitem Hvs Hvertex)
    as (pos & z & Hpos' & Hz & Hle).
  rewrite Hpos in Hpos'. injection Hpos' as <-.
  rewrite (iterate_index _ _ 2 Hxyz) in Hz. injection Hz as <-.
  by apply num_le_succ.
Qed.

(** X21: when the farthest depth is a number, every vertex of the data passes
    the depth test [z <= maxDepth + 1] of [createBins]: the test drops no
    vertex. *)
Theorem depth_test_passes data maxDepth item vertices vertex position xyz :
  Painter.findFarthestDepth data = Ok maxDepth →
  maxDepth ≠ NaN →
  item ∈ data →
  Painter.vertices_of item = Ok vertices →
  vertex ∈ vertices →
  Painter.part vertex 1 = Ok position →
  JS.iterate position = Ok xyz →
  JS.le_num (nth 2 xyz JUndef) (num_add maxDepth (Fin 1)) = true.
Proof. apply le_num_farthest. Qed.

Lemma createBins_falsy_weight_witness :
  ∃ ex, Painter.createBins (λ _ _ _ _ _, Ok JUndef) Painter.new
          [item_of [flat_vertex (rgb (Fin 1) (Fin 2) (Fin 3))
                      (rgb (Fin 15) (Fin 25) (Fin 35)) (int 0)
                      (JStr "blendBackground")]]
          false
        = Throw ex.
Proof.
  apply (createBins_falsy_weight (λ _ _ _ _ _, Ok JUndef) Painter.new
           [item_of [flat_vertex (rgb (Fin 1) (Fin 2) (Fin 3))
                       (rgb (Fin 15) (Fin 25) (Fin 35)) (int 0)
                       (JStr "blendBackground")]]
           false
           (item_of [flat_vertex (rgb (Fin 1) (Fin 2) (Fin 3))
                       (rgb (Fin 15) (Fin 25) (Fin 35)) (int 0)
                       (JStr "blendBackground")])
           [flat_vertex (rgb (Fin 1) (Fin 2) (Fin 3))
              (rgb (Fin 15) (Fin 25) (Fin 35)) (int 0) (JStr "blendBackground")]
           (rgb (Fin 1) (Fin 2) (Fin 3)) (rgb (Fin 15) (Fin 25) (Fin 35)) (int 0)
           (JStr "blendBackground")).
  - left.
  - reflexivity.
  - left.
  - reflexivity.
  - vm_compute. discriminate.
Defined.

Lemma NaN_depth_blends_nothing_witness :
  Painter.active
    {| Painter.color := Painter.ambientValue Painter.new;
       Painter.active := false;
       Painter.depth := int 35 |} = false
  ∧ ∃ ambient,
      JS.iterate (Painter.ambientValue Painter.new) = Ok ambient
      ∧ Painter.color
          {| Painter.color := Painter.ambientValue Painter.new;
             Painter.active := false;
             Painter.depth := int 35 |} = JArr ambient.
Proof.
  apply (NaN_depth_blends_nothing (λ _ _ _ _ _, Ok JUndef) Painter.new
           [sample_item "BlendCornerByProximity";
            item_of [flat_vertex (rgb (Fin 1) (Fin 2) (Fin 3))
                       (JArr [int 15; int 25]) (int 1) (JStr "blendBackground")]]
           false
           [("1,2", {| Painter.color := Painter.ambientValue Painter.new;
                       Painter.active := false;
                       Painter.depth := int 35 |})]
           eq_refl eq_refl "1,2").
  reflexivity.
Defined.

Lemma depth_test_passes_witness :
  JS.le_num (nth 2 [int 15; int 25; int 35] JUndef) (num_add (Fin 35) (Fin 1)) = true.
Proof.
  apply (depth_test_passes [sample_item "blendBackground"] (Fin 35)
           (sample_item "blendBackground")
           [flat_vertex (rgb (Fin 1) (Fin 2) (Fin 3)) (rgb (Fin 15) (Fin 25) (Fin 35))
              (int 1) (JStr "blendBackground")]
           (flat_vertex (rgb (Fin 1) (Fin 2) (Fin 3)) (rgb (Fin 15) (Fin 25) (Fin 35))
              (int 1) (JStr "blendBackground"))
           (rgb (Fin 15) (Fin 25) (Fin 35))).
  - reflexivity.
  - done.
  - left.
  - reflexivity.
  - left.
  - reflexivity.
  - reflexivity.
Defined.

(** ** findFarthestDepth *)

Lemma farthest_attained vertices :
  ∀ maxZ m,
    Painter.foldR (λ maxZ vertex,
      let* position := Painter.part vertex 1 in
      let* z := JS.get_index position 2 in
      Ok (num_max maxZ (JS.ToNumber z))) vertices maxZ = Ok m →
    m ≠ NaN →
    m = maxZ
    ∨ ∃ vertex position z,
        vertex ∈ vertices
        ∧ Painter.part vertex 1 = Ok position
        ∧ JS.get_index position 2 = Ok z
        ∧ JS.ToNumber z = m.
Proof.
  induction vertices as [|vertex vertices IH]; intros maxZ m; simpl.
  - intros [= <-] _. by left.
  - case_bind (Painter.part vertex 1) as position Hpos.
    case_bind (JS.get_index position 2) as z Hz.
    intros Hfold Hnum.
    destruct (IH _ _ Hfold Hnum) as [->|(v & pos & z' & Hv & ? & ? & ?)].
    + destruct (num_max_cases maxZ (JS.ToNumber z)) as [HNaN|[->| ->]];
        [done|by left|].
      right. exists vertex, position, z. split; [left|done].
    + right. exists v, pos, z'. split; [by right|done].
Qed.

(** X22: when [findFarthestDepth] returns a number, no vertex of the data is
    deeper, and the number is the depth of one of the vertices, or -Infinity,
    the value that the search starts from. *)
Theorem findFarthestDepth_maximum data m :
  Painter.findFarthestDepth data = Ok m →
  m ≠ NaN →
  (∀ item vertices vertex,
     item ∈ data → Painter.vertices_of item = Ok vertices → vertex ∈ vertices →
     ∃ position z,
       Painter.part vertex 1 = Ok position
       ∧ JS.get_index position 2 = Ok z
       ∧ num_le (JS.ToNumber z) m = true)
  ∧ (m = NInf
     ∨ ∃ item vertices vertex position z,
         item ∈ data
         ∧ Painter.vertices_of item = Ok vertices
         ∧ vertex ∈ vertices
         ∧ Painter.part vertex 1 = Ok position
         ∧ JS.get_index position 2 = Ok z
         ∧ JS.ToNumber z = m).
Proof.
  intros Hdepth Hnum. split; [by apply findFarthestDepth_upper|].
  revert Hdepth. unfold Painter.findFarthestDepth. generalize NInf.
  induction data as [|item data IH]; intros maxZ; simpl.
  - intros [= <-]. by left.
  - case_bind (Painter.vertices_of item) as vertices Hvs.
    destruct (Painter.foldR _ vertices maxZ) as [m1|] eqn:Hm1; cbn [rbind]; [|done].
    intros Hfold.
    destruct (IH _ Hfold) as [->|(it & vs & v & pos & z & Hit & ? & ? & ? & ? & ?)].
    + destruct (farthest_attained _ _ _ Hm1 Hnum) as [->|(v & pos & z & ? & ? & ? & ?)];
        [by left|].
      right. exists item, vertices, v, pos, z. split; [left|done].
    + right. exists it, vs, v, pos, z. split; [by right|done].
Qed.

Lemma findFarthestDepth_maximum_witness :
  (∀ item vertices vertex,
     item ∈ [sample_item "blendBackground"] →
     Painter.vertices_of item = Ok vertices → vertex ∈ vertices →
     ∃ position z,
       Painter.part vertex 1 = Ok position
       ∧ JS.get_index position 2 = Ok z
       ∧ num_le (JS.ToNumber z) (Fin 35) = true)
  ∧ (Fin 35 = NInf
     ∨ ∃ item vertices vertex position z,
         item ∈ [sample_item "blendBackground"]
         ∧ Painter.vertices_of item = Ok vertices
         ∧ vertex ∈ vertices
         ∧ Painter.part vertex 1 = Ok position
         ∧ JS.get_index position 2 = Ok z
         ∧ JS.ToNumber z = Fin 35).
Proof.
  apply (findFarthestDepth_maximum [sample_item "blendBackground"] (Fin 35)).
  - reflexivity.
  - done.
Defined.

(** ** Cells and bin keys *)

(** X23: for an integer bin size other than zero and integer coordinates,
    all below [2^52] in magnitude, [getBinCoords] gives each coordinate the
    number of the cell that holds it: with a positive bin size [b] the cell
    [c] is the half-open interval from [b * c] (included) to [b * (c + 1)]
    (excluded), so negative coordinates fall in negative cells.  The cell
    numbers are below [2^52] in magnitude too. *)
Theorem getBinCoords_cell b x y z :
  b ≠ 0 →
  Forall medium [b; x; y; z] →
  ∃ cx cy cz,
    Storage.getBinCoords (Fin b) (point (x, y, z)) = Ok (Fin cx, Fin cy, Fin cz)
    ∧ in_cell b cx x ∧ in_cell b cy y ∧ in_cell b cz z
    ∧ Forall medium [cx; cy; cz].
Proof.
  intros Hb Hm. exists (x / b), (y / b), (z / b).
  split.
  { unfold Storage.getBinCoords. cbn -[floor_div]. by rewrite !floor_div_Fin. }
  assert (∀ a, in_cell b (a / b) a) as Hcell.
  { intros a. unfold in_cell. pose proof (Z.div_mod a b Hb) as Hdiv.
    destruct (Z.lt_total 0 b) as [Hpos|[Hz|Hneg]]; [|lia|].
    - left. pose proof (Z.mod_pos_bound a b Hpos). lia.
    - right. pose proof (Z.mod_neg_bound a b Hneg). lia. }
  assert (∀ a, medium a → medium (a / b)) as Hmed.
  { intros a Ha. unfold medium in *. destruct (Hcell a) as [[? ?]|[? ?]]; nia. }
  repeat apply Forall_cons_1 in Hm as [? Hm].
  split; [done|]. split; [done|]. split; [done|]. repeat constructor; auto.
Qed.

Lemma getBinCoords_cell_witness :
  ∃ cx cy cz,
    Storage.getBinCoords (Fin 50) (point (60, -1, 0)) = Ok (Fin cx, Fin cy, Fin cz)
    ∧ in_cell 50 cx 60 ∧ in_cell 50 cy (-1) ∧ in_cell 50 cz 0
    ∧ Forall medium [cx; cy; cz].
Proof.
  apply (getBinCoords_cell 50 60 (-1) 0); [done|].
  repeat constructor; unfold medium; lia.
Defined.

Lemma string_forall_impl (P Q : ascii → bool) s :
  (∀ c, P c = true → Q c = true) →
  string_forall P s = true → string_forall Q s = true.
Proof.
  intros HPQ. induction s as [|c s IH]; simpl; [done|].
  rewrite !andb_true_iff. intros [??]. auto.
Qed.

Lemma pretty_N_go_numeric x :
  ∀ s, string_forall numeric_char s = true →
       string_forall numeric_char (pretty_N_go x s) = true.
Proof.
  induction (N.lt_wf_0 x) as [x _ IH]; intros s Hs.
  assert (x = 0 ∨ 0 < x)%N as [->|Hx] by lia.
  - by rewrite pretty_N_go_0.
  - rewrite pretty_N_go_step by done. apply IH; [by apply N.div_lt|].
    simpl. rewrite Hs, andb_true_r.
    unfold pretty_N_char. by repeat case_match.
Qed.

Lemma pretty_Z_numeric (z : Z) : string_forall numeric_char (pretty z) = true.
Proof.
  assert (∀ n : N, string_forall numeric_char (pretty n) = true) as HN.
  { intros n. unfold pretty, pretty_N. case_decide; [done|].
    by apply pretty_N_go_numeric. }
  destruct z as [|q|q]; [done|apply (HN (N.pos q))|].
  unfold pretty, pretty_Z. simpl. apply (HN (N.pos q)).
Qed.

Lemma num_to_string_inj n n' :
  JS.num_to_string n = JS.num_to_string n' → n = n'.
Proof.
  destruct n as [| |z|], n' as [| |z'|]; simpl; try done;
    try (intros H; pose proof (pretty_Z_numeric z) as Hz;
         rewrite H in Hz; by vm_compute in Hz);
    try (intros H; pose proof (pretty_Z_numeric z') as Hz;
         rewrite <- H in Hz; by vm_compute in Hz).
  by intros ->%(inj pretty).
Qed.

Lemma num_to_string_no_comma n :
  string_forall not_comma (JS.num_to_string n) = true.
Proof.
  destruct n as [| |z|]; try done. simpl.
  apply (string_forall_impl numeric_char); [|apply pretty_Z_numeric].
  intros c. unfold numeric_char, not_comma.
  destruct (Ascii.eqb_spec c ",") as [->|]; [by vm_compute|done].
Qed.

Lemma append_comma_inj a a' r r' :
  string_forall not_comma a = true →
  string_forall not_comma a' = true →
  a +:+ "," +:+ r = a' +:+ "," +:+ r' →
  a = a' ∧ r = r'.
Proof.
  revert a'. induction a as [|c a IH]; intros [|c' a']; simpl.
  - intros _ _ [= H]. split; [done|exact H].
  - intros _ Hc' [= <- _]. by vm_compute in Hc'.
  - intros Hc _ [= -> _]. by vm_compute in Hc.
  - rewrite !andb_true_iff. intros [_ Ha] [_ Ha'] [= -> H].
    by destruct (IH a' Ha Ha' H) as [-> ->].
Qed.

(** X24: [getBinKey] names each cell differently: two different triples of bin
    coordinates (whether numbers, infinite or NaN) have different keys, so no
    two cells share a bin. *)
Theorem getBinKey_injective c c' :
  c ≠ c' → Storage.getBinKey c ≠ Storage.getBinKey c'.
Proof.
  intros Hne Heq. apply Hne. revert Heq.
  destruct c as [[b0 b1] b2], c' as [[b0' b1'] b2']. unfold Storage.getBinKey.
  intros [H0 H]%append_comma_inj; [|apply num_to_string_no_comma..].
  apply append_comma_inj in H as [H1 H2]; [|apply num_to_string_no_comma..].
  by rewrite (num_to_string_inj _ _ H0), (num_to_string_inj _ _ H1),
    (num_to_string_inj _ _ H2).
Qed.

Lemma getBinKey_injective_witness :
  Storage.getBinKey (Fin 1, Fin 23, PInf) = "1,23,Infinity"
  ∧ Storage.getBinKey (Fin 12, Fin 3, PInf) = "12,3,Infinity"
  ∧ Storage.getBinKey (Fin 1, Fin 23, PInf) ≠ Storage.getBinKey (Fin 12, Fin 3, PInf).
Proof.
  split; [reflexivity|]. split; [reflexivity|].
  apply (getBinKey_injective (Fin 1, Fin 23, PInf) (Fin 12, Fin 3, PInf)).
  intros [=].
Defined.

(** ** The originID check, continued *)

Lemma append_assoc (a b c : string) : (a +:+ b) +:+ c = a +:+ b +:+ c.
Proof.
  induction a as [|x a IH]; [done|].
  change (String x ((a +:+ b) +:+ c) = String x (a +:+ b +:+ c)). by rewrite IH.
Qed.

(** X25: [validateOriginID] does not see where the text of an originID
    splits: a string originID is accepted for every way of cutting it into a
    window text and a cube text, so that one originID answers for several
    pairs (for window 1 with cube 23 as for window 12 with cube 3). *)
Theorem validateOriginID_split (a b c : string) :
  Storage.validateOriginID (JStr (a +:+ b +:+ c)) (JStr a) (JStr (b +:+ c))
  = Ok true
  ∧ Storage.validateOriginID (JStr (a +:+ b +:+ c)) (JStr (a +:+ b)) (JStr c)
    = Ok true
  ∧ Storage.validateOriginID (JStr "123") (int 1) (int 23) = Ok true
  ∧ Storage.validateOriginID (JStr "123") (int 12) (int 3) = Ok true.
Proof.
  unfold Storage.validateOriginID. simpl. rewrite String.eqb_refl.
  by rewrite append_assoc, String.eqb_refl.
Qed.

(** ** The script of main.js *)

(** X26: whatever the database holds when the script starts, [main()] is
    rejected by its second [save]: the CubeVertex of [models.js] carries a
    two-element [valueArray], which [validateEntity] refuses.  By then the
    cube has been written under the key 1 of the store Cubes; nothing else has
    changed, and none of the later steps (the batch updates, the spatial
    queries, the painter and the renderer) is reached. *)
Theorem main_stops_at_second_save interpolate half renderMiniMap s :
  ∃ s',
    Main.main interpolate half renderMiniMap s
    = (inr (Main.Rejected InvalidValueArray), s')
    ∧ Storage.db s' = true
    ∧ Storage.get s' (int 1) "Cubes" = Ok sample_cube
    ∧ ∀ key storeName,
        storeName ≠ "Cubes" ∨ Storage.to_key key ≠ Storage.to_key (int 1) →
        Storage.get s' key storeName = Storage.get (Storage.init s) key storeName.
Proof.
  eexists. split.
  { unfold Main.main, Main.bind, Main.init, Main.of_result, Main.save.
    cbn -[insert]. reflexivity. }
  split; [done|]. split.
  { unfold Storage.get. cbn -[insert].
    by rewrite records_insert_eq, lookup_insert_eq. }
  intros key storeName Hother. unfold Storage.get.
  cbn [Storage.db Storage.data Storage.init negb].
  destruct (Storage.keyPath_of storeName); [|done].
  destruct (Storage.to_key key) as [k|]; [|done]. do 2 f_equal.
  destruct (decide (storeName = "Cubes")) as [->|Hne].
  - rewrite records_insert_eq, lookup_insert_ne; [done|].
    destruct Hother as [|Hother]; [done|]. intros <-. by apply Hother.
  - by rewrite records_insert_ne.
Qed.

(** ** The active flag of the bins *)

Lemma foldR_invariant_in {A S} (f : S → A → result S) (Inv : S → Prop)
    (l : list A) :
  (∀ s x s', x ∈ l → Inv s → f s x = Ok s' → Inv s') →
  ∀ s s', Inv s → Painter.foldR f l s = Ok s' → Inv s'.
Proof.
  induction l as [|x l IH]; intros Hstep s s' Hs; simpl.
  - by intros [= <-].
  - case_bind (f s x) as s1 H1. apply IH.
    + intros s0 y s0' Hy. apply Hstep. by right.
    + eapply Hstep; [left|done..].
Qed.

Section ActiveBins.

Variable interpolate : jsval → jsval → jsval → jsval → jsval → result jsval.

(** X27: when the farthest depth is a number, every bin that [createBins]
    returns is active: each bin is made for a vertex, and every vertex passes
    the depth test and is blended.  (When it is NaN, no bin is active.) *)
Theorem createBins_all_active p data isBackground maxDepth bins :
  Painter.findFarthestDepth data = Ok maxDepth →
  maxDepth ≠ NaN →
  Painter.createBins interpolate p data isBackground = Ok bins →
  ∀ key b, Painter.Map_get bins key = Some b → Painter.active b = true.
Proof.
  intros Hdepth Hnum. unfold Painter.createBins. rewrite Hdepth; cbn [rbind].
  set (Inv := λ bins : Painter.Map,
    ∀ key b, Painter.Map_get bins key = Some b → Painter.active b = true).
  apply (foldR_invariant_in _ Inv); [|done].
  intros bins0 item bins1 Hitem Hinv.
  case_bind (Painter.vertices_of item) as vertices Hvs.
  apply (foldR_invariant_in _ Inv); [|done].
  clear bins0 bins1 Hinv. intros bins0 vertex bins1 Hvertex Hinv.
  unfold Painter.paint.
  case_bind (Painter.part vertex 1) as position Hpos.
  case_bind (JS.iterate position) as xyz Hxyz.
  rewrite (le_num_farthest _ _ _ _ _ _ _ Hdepth Hnum Hitem Hvs Hvertex Hpos Hxyz).
  set (binKey := if isBackground then _ else _).
  set (created := match Painter.Map_get bins0 binKey with
                  | Some _ => Ok bins0
                  | None => _
                  end).
  assert (∀ bins', created = Ok bins' →
            ∀ key b, key ≠ binKey → Painter.Map_get bins' key = Some b →
                     Painter.active b = true) as Hcreated.
  { intros bins'. unfold created.
    destruct (Painter.Map_get bins0 binKey) as [b0|]; cbn [rbind].
    - intros [= <-] key b _. apply Hinv.
    - destruct (JS.iterate (Painter.ambientValue p)); cbn [rbind]; [|done].
      intros [= <-] key b Hne. rewrite Map_get_set_ne by done. apply Hinv. }
  destruct created as [bins'|]; cbn [rbind]; [|done].
  specialize (Hcreated bins' eq_refl).
  case_bind (Painter.logic_of vertex) as logic Hlogic.
  destruct (Painter.Map_get bins' binKey) as [b0|]; [|done].
  case_bind (Painter.part vertex 0) as color2 Hcolor.
  case_bind (Painter.part vertex 2) as weight Hweight.
  case_bind (Painter.blend interpolate p (Painter.color b0) color2
               (JObj [("weight", weight); ("proximity", logic)])) as newColor Hblend.
  intros [= <-] key b.
  destruct (decide (binKey = key)) as [<-|Hne].
  - rewrite Map_get_set_eq. by intros [= <-].
  - rewrite Map_get_set_ne by done. by apply Hcreated.
Qed.

End ActiveBins.

Lemma createBins_all_active_witness :
  Painter.active
    {| Painter.color := rgb (Fin 21) (Fin 22) (Fin 23);
       Painter.active := true;
       Painter.depth := int 35 |} = true.
Proof.
  apply (createBins_all_active (λ _ _ _ _ _, Ok JUndef) Painter.new
           [sample_item "blendBackground"] false (Fin 35)
           [("1,2", {| Painter.color := rgb (Fin 21) (Fin 22) (Fin 23);
                       Painter.active := true;
                       Painter.depth := int 35 |})]
           eq_refl ltac:(done) eq_refl "1,2").
  reflexivity.
Defined.

(** ** Queries on a built index do not throw *)






(** ** The bins of createBins *)

Lemma Map_get_set_is_Some m k k' b :
  is_Some (Painter.Map_get (Painter.Map_set m k b) k')
  ↔ is_Some (Painter.Map_get m k') ∨ k' = k.
Proof.
  destruct (decide (k = k')) as [<-|Hne].
  - rewrite Map_get_set_eq. split; [by right|by eexists].
  - rewrite Map_get_set_ne by done. split; [by left|].
    by intros [| ->].
Qed.

Section Bins.

Variable interpolate : jsval → jsval → jsval → jsval → jsval → result jsval.

(** The keys after the loop body for one vertex: those before, and the key
    of the vertex. *)
Lemma paint_keys p isBackground maxDepth bins vertex bins' :
  Painter.paint interpolate p isBackground maxDepth bins vertex = Ok bins' →
  ∃ position xyz,
    Painter.part vertex 1 = Ok position
    ∧ JS.iterate position = Ok xyz
    ∧ ∀ k, is_Some (Painter.Map_get bins' k)
           ↔ is_Some (Painter.Map_get bins k) ∨ k = bin_key p isBackground xyz.
Proof.
  unfold Painter.paint.
  case_bind (Painter.part vertex 1) as position Hpos.
  case_bind (JS.iterate position) as xyz Hxyz.
  fold (bin_key p isBackground xyz). set (binKey := bin_key p isBackground xyz).
  intros Hpaint. exists position, xyz. split; [done|]. split; [done|].
  set (created := match Painter.Map_get bins binKey with
                  | Some _ => Ok bins
                  | None => _
                  end) in Hpaint.
  assert (∀ bins1, created = Ok bins1 →
            ∀ k, is_Some (Painter.Map_get bins1 k)
                 ↔ is_Some (Painter.Map_get bins k) ∨ k = binKey) as Hcreated.
  { intros bins1. unfold created.
    destruct (Painter.Map_get bins binKey) as [b0|] eqn:Hget; cbn [rbind].
    - intros [= <-] k. split; [by left|]. intros [| ->]; [done|by eexists].
    - destruct (JS.iterate (Painter.ambientValue p)); cbn [rbind]; [|done].
      intros [= <-] k. apply Map_get_set_is_Some. }
  destruct created as [bins1|]; cbn [rbind] in Hpaint; [|done].
  specialize (Hcreated bins1 eq_refl).
  destruct (JS.le_num _ _).
  - destruct (Painter.logic_of vertex) as [logic|]; cbn [rbind] in Hpaint; [|done].
    destruct (Painter.Map_get bins1 binKey) as [b1|]; [|done].
    destruct (Painter.part vertex 0) as [color2|]; cbn [rbind] in Hpaint; [|done].
    destruct (Painter.part vertex 2) as [weight|]; cbn [rbind] in Hpaint; [|done].
    destruct (Painter.blend _ _ _ _ _) as [newColor|]; cbn [rbind] in Hpaint; [|done].
    injection Hpaint as <-. intros k.
    rewrite Map_get_set_is_Some, Hcreated. tauto.
  - by injection Hpaint as <-.
Qed.

Lemma paint_all_keys p isBackground maxDepth vertices :
  ∀ bins bins',
    Painter.foldR (Painter.paint interpolate p isBackground maxDepth) vertices bins
    = Ok bins' →
    (∀ vertex, vertex ∈ vertices →
       ∃ position xyz, Painter.part vertex 1 = Ok position
                       ∧ JS.iterate position = Ok xyz)
    ∧ ∀ k, is_Some (Painter.Map_get bins' k)
           ↔ is_Some (Painter.Map_get bins k)
             ∨ ∃ vertex position xyz,
                 vertex ∈ vertices
                 ∧ Painter.part vertex 1 = Ok position
                 ∧ JS.iterate position = Ok xyz
                 ∧ k = bin_key p isBackground xyz.
Proof.
  induction vertices as [|vertex vertices IH]; intros bins bins'; simpl.
  - intros [= <-]. split; [by intros ? []%elem_of_nil|].
    intros k. split; [by left|]. by intros [|(? & ? & ? & []%elem_of_nil & _)].
  - case_bind (Painter.paint interpolate p isBackground maxDepth bins vertex)
      as bins1 Hpaint.
    intros Hfold. destruct (IH _ _ Hfold) as [Hall Hkeys].
    destruct (paint_keys _ _ _ _ _ _ Hpaint) as (position & xyz & Hpos & Hxyz & Hk1).
    split.
    + intros v [->|Hv]%elem_of_cons; [eauto|by apply Hall].
    + intros k. rewrite Hkeys, Hk1. split.
      * intros [[| ->]|(v & pos & c & Hv & ? & ? & ?)]; [by left|..].
        -- right. exists vertex, position, xyz. split; [left|done].
        -- right. exists v, pos, c. split; [by right|done].
      * intros [|(v & pos & c & [->|Hv]%elem_of_cons & Hp & Hc & ->)];
          [by left; left|..].
        -- left. right. congruence.
        -- right. eauto 10.
Qed.

(** X29: the bins that [createBins] returns are the cells of the vertices:
    every vertex of the data has a position of coordinates to read and a bin
    under the key of its cell, and every bin is the bin of some vertex. *)
Theorem createBins_bins_of_vertices p data isBackground bins :
  Painter.createBins interpolate p data isBackground = Ok bins →
  (∀ item vertices vertex,
     item ∈ data → Painter.vertices_of item = Ok vertices → vertex ∈ vertices →
     ∃ xyz, vertex_at data vertex xyz
            ∧ is_Some (Painter.Map_get bins (bin_key p isBackground xyz)))
  ∧ ∀ key, is_Some (Painter.Map_get bins key)
           → ∃ vertex xyz, vertex_at data vertex xyz
                           ∧ key = bin_key p isBackground xyz.
Proof.
  unfold Painter.createBins.
  case_bind (Painter.findFarthestDepth data) as maxDepth Hdepth.
  assert (∀ items (bins0 bins' : Painter.Map),
    Painter.foldR (λ bins item,
      let* vertices := Painter.vertices_of item in
      Painter.foldR (Painter.paint interpolate p isBackground maxDepth)
        vertices bins) items bins0 = Ok bins' →
    (∀ item vertices vertex,
       item ∈ items → Painter.vertices_of item = Ok vertices → vertex ∈ vertices →
       ∃ position xyz, Painter.part vertex 1 = Ok position
                       ∧ JS.iterate position = Ok xyz)
    ∧ ∀ k, is_Some (Painter.Map_get bins' k)
           ↔ is_Some (Painter.Map_get bins0 k)
             ∨ ∃ vertex xyz, vertex_at items vertex xyz
                             ∧ k = bin_key p isBackground xyz) as Hitems.
  { induction items as [|item items IH]; intros bins0 bins'; simpl.
    - intros [= <-]. split; [by intros ? ? ? []%elem_of_nil|].
      intros k. split; [by left|].
      by intros [|(? & ? & (? & ? & ? & []%elem_of_nil & _) & _)].
    - case_bind (Painter.vertices_of item) as vertices Hvs.
      destruct (Painter.foldR _ vertices bins0) as [bins1|] eqn:Hinner;
        cbn [rbind]; [|done].
      intros Hfold. destruct (IH _ _ Hfold) as [Hall Hkeys].
      destruct (paint_all_keys _ _ _ _ _ _ Hinner) as [Hall1 Hkeys1].
      split.
      + intros it vs v [->|Hit]%elem_of_cons Hvs' Hv.
        * rewrite Hvs in Hvs'. injection Hvs' as <-. by apply Hall1.
        * by eapply Hall.
      + intros k. rewrite Hkeys, Hkeys1. split.
        * intros [[|(v & pos & c & Hv & ? & ? & ->)]
                 |(v & c & (it & vs & pos & Hit & ? & ? & ? & ?) & ->)];
            [by left|..].
          -- right. exists v, c. split; [|done].
             exists item, vertices, pos. split; [left|done].
          -- right. exists v, c. split; [|done].
             exists it, vs, pos. split; [by right|done].
        * intros [|(v & c & (it & vs & pos & [->|Hit]%elem_of_cons & Hvs' & Hv & ? & ?)
                    & ->)]; [by left; left|..].
          -- rewrite Hvs in Hvs'. injection Hvs' as <-.
             left. right. eauto 10.
          -- right. exists v, c. split; [|done]. exists it, vs, pos. eauto. }
  intros Hbins. destruct (Hitems _ _ _ Hbins) as [Hall Hkeys]. split.
  - intros item vertices vertex Hitem Hvs Hvertex.
    destruct (Hall _ _ _ Hitem Hvs Hvertex) as (position & xyz & Hpos & Hxyz).
    exists xyz. split; [exists item, vertices, position; eauto|].
    apply Hkeys. right. exists vertex, xyz. split; [|done].
    exists item, vertices, position. eauto.
  - intros key [[b Hb]|Hkey]%Hkeys; [done|]. exact Hkey.
Qed.

End Bins.

Lemma createBins_bins_of_vertices_witness :
  (∀ item vertices vertex,
     item ∈ [sample_item "blendBackground"] →
     Painter.vertices_of item = Ok vertices → vertex ∈ vertices →
     ∃ xyz, vertex_at [sample_item "blendBackground"] vertex xyz
            ∧ is_Some
                (Painter.Map_get
                   [("1,2", {| Painter.color := rgb (Fin 21) (Fin 22) (Fin 23);
                               Painter.active := true;
                               Painter.depth := int 35 |})]
                   (bin_key Painter.new false xyz)))
  ∧ ∀ key,
      is_Some
        (Painter.Map_get
           [("1,2", {| Painter.color := rgb (Fin 21) (Fin 22) (Fin 23);
                       Painter.active := true;
                       Painter.depth := int 35 |})] key)
      → ∃ vertex xyz, vertex_at [sample_item "blendBackground"] vertex xyz
                      ∧ key = bin_key Painter.new false xyz.
Proof.
  apply (createBins_bins_of_vertices (λ _ _ _ _ _, Ok JUndef) Painter.new
           [sample_item "blendBackground"] false).
  reflexivity.
Defined.

(** ** Saving a record again *)

Lemma assoc_set_idem name v fs :
  JS.assoc_set name v (JS.assoc_set name v fs) = JS.assoc_set name v fs.
Proof.
  induction fs as [|[k w] fs IH]; simpl.
  - by rewrite String.eqb_refl.
  - destruct (String.eqb k name) eqn:Hk; simpl; rewrite Hk; [done|].
    by rewrite IH.
Qed.

(** [validateEntity] accepts the entity that it has left, and leaves it as
    it is. *)
Lemma validate_idem e storeName e' :
  Storage.validate e storeName = Ok e' → Storage.validate e' storeName = Ok e'.
Proof.
  intros Hv. destruct (is_vertex_store storeName) eqn:Hs.
  - revert Hv. unfold is_vertex_store in Hs. unfold Storage.validate. rewrite Hs.
    destruct e as [| | | | | |fs]; try done.
    cbn -[Storage.color_out_of_range JS.is_array_of_length num_le].
    destruct (JS.assoc "valueArray" fs) as [va|] eqn:Hva; [|done].
    cbn -[Storage.color_out_of_range JS.is_array_of_length num_le].
    destruct va as [| | | | |va|]; try done.
    destruct va as [|color [|position [|weight [|proximity [|]]]]]; try done.
    destruct color as [| | | | |[|c0 [|c1 [|c2 [|]]]]|]; try done.
    destruct (Storage.color_out_of_range [c0; c1; c2]) eqn:Hcolor; [done|].
    destruct (negb (JS.is_array_of_length position 3)) eqn:Hposition; [done|].
    destruct weight as [| | |w| | |]; try done.
    destruct proximity as [| | | |prox| |]; try (by destruct w).
    assert (∀ v, JS.assoc "valueArray" (JS.assoc_set "proximityPadding" v fs)
                 = Some (JArr [JArr [c0; c1; c2]; position; JNum w; JStr prox]))
      as Hva'.
    { intros v. by rewrite assoc_set_ne. }
    destruct w as [| |z|]; try done; intros [= <-];
      cbn -[Storage.color_out_of_range JS.is_array_of_length num_le];
      rewrite Hva';
      cbn -[Storage.color_out_of_range JS.is_array_of_length num_le];
      rewrite Hcolor, Hposition; by rewrite assoc_set_idem.
  - by pose proof (validate_other _ _ _ Hs Hv) as ->.
Qed.

(** X30: saving again the record that a [save] has stored (the value that
    [get] returns for it) succeeds and leaves the storage exactly as it is. *)
Theorem save_again_changes_nothing s e storeName s' :
  Storage.save s e storeName = (Ok tt, s') →
  ∃ key stored,
    key_value storeName e = Some key
    ∧ Storage.get s' key storeName = Ok stored
    ∧ Storage.save s' stored storeName = (Ok tt, s').
Proof.
  intros Hsave.
  destruct (save_get _ _ _ _ Hsave) as (stored & key & Hv & Hkey & Hget).
  exists key, stored. split; [done|]. split; [done|].
  revert Hsave. unfold Storage.save, Storage.validateEntity.
  destruct (Storage.db s) eqn:Hdb; cbn [negb]; [|done]. rewrite Hv.
  destruct (Storage.check_originID stored storeName) as [ok|] eqn:Hcheck; [|done].
  destruct (Storage.put (Storage.data s) storeName stored) as [d|] eqn:Hput; [|done].
  intros [= <-]. cbn [Storage.db Storage.data negb].
  rewrite (validate_idem _ _ _ Hv), Hcheck.
  apply put_Ok in Hput as (k & Hk & ->).
  rewrite (put_key _ _ _ _ Hk), records_insert_eq.
  by rewrite insert_insert_eq, insert_insert_eq.
Qed.

Lemma save_again_changes_nothing_witness :
  ∃ key stored,
    key_value "SubcubeVertices" (sample_valid_vertex (-5)) = Some key
    ∧ Storage.get
        (Storage.save fresh (sample_valid_vertex (-5)) "SubcubeVertices").2
        key "SubcubeVertices" = Ok stored
    ∧ Storage.save
        (Storage.save fresh (sample_valid_vertex (-5)) "SubcubeVertices").2
        stored "SubcubeVertices"
      = (Ok tt, (Storage.save fresh (sample_valid_vertex (-5)) "SubcubeVertices").2).
Proof.
  apply (save_again_changes_nothing fresh (sample_valid_vertex (-5))
           "SubcubeVertices").
  vm_compute. reflexivity.
Defined.
